(** * GlobaLeaks request core: handlers/base.py and jobs/pgp_check_sched.py

    A shallow embedding of the payload validator, the identity resolver, the
  authentication decorator, the chunked upload assembler, the streaming
  file producer, the execution governor and the periodic PGP expiry check,
  followed by the properties established about them. *)

From stdpp Require Import base option list strings gmap.
From Stdlib Require Import Ascii String ZArith QArith Qround Lia.

#[local] Set Warnings "-register-all".
#[local] Open Scope string_scope.
#[local] Open Scope Z_scope.

(** ** Python values *)

(** A Python float as json.loads can produce it: a finite binary fraction
    [m * 2^e], an infinity or a NaN (json.loads accepts the literals
    Infinity, -Infinity and NaN). *)
Inductive pyfloat :=
| FFinite (m e : Z)
| FInfinity (negative : bool)
| FNaN.

(** The values json.loads returns. A dict is kept as its list of items, in
    iteration order; a well-formed dict has pairwise distinct keys. *)
Inductive jvalue :=
| JNone
| JBool (b : bool)
| JInt (z : Z)
| JFloat (f : pyfloat)
| JStr (s : string)
| JList (l : list jvalue)
| JDict (d : list (string * jvalue)).

(** The primitive classes the request templates name, and the marker class
    requests.SkipSpecificValidation. *)
Inductive python_type :=
| Tint
| Tbool
| Tfloat
| Ttext
| Tdict
| Tlist
| SkipSpecificValidation.

#[global] Instance python_type_eq_dec : EqDecision python_type.
Proof. solve_decision. Defined.

(** A message template: a callable (primitive class), a regular expression
    given as a str, a mapping of keys to templates, or a list whose element
    0 is the template of every element. *)
Inductive template :=
| TCallable (python_type : python_type)
| TRegexp (pattern : string)
| TDict (d : list (string * template))
| TList (l : list template).

(** ** Exceptions *)

(** The messages of errors.InputValidationError raised by the validator. *)
Inductive validation_error :=
| KeyTypeValidationFailure (key : string)
| MissingKey (key : string)
| KeyDoubleValidationFailure (key : string)
| SuccessCounterDoubleCheckFailure
| NotEveryElement
| InvalidJsonMassage
| InvalidJSONFormat.

Inductive exn :=
| InputValidationError (e : validation_error)
| NotAuthenticated
| InvalidAuthentication
| HTTPAuthenticationRequired
| FileTooBig (limit : Z)
| AttributeError
| TypeError
| IndexError
| KeyError
| ValueError
| UnicodeDecodeError
| Base64Error
| IOError.

(** The result of a call: a returned value or a raised exception. *)
Inductive res (A : Type) :=
| Ok (a : A)
| Raise (e : exn).
Arguments Ok {A} a.
Arguments Raise {A} e.

#[global] Instance res_ret : MRet res := fun A a => Ok a.
#[global] Instance res_bind : MBind res := fun A B f m =>
  match m with
  | Ok a => f a
  | Raise e => Raise e
  end.

(** ** Python built-ins used by the validator *)

Definition is_digit (c : ascii) : bool :=
  bool_decide (48 ≤ nat_of_ascii c ≤ 57)%nat.

Definition is_space (c : ascii) : bool :=
  bool_decide (nat_of_ascii c = 32 ∨ 9 ≤ nat_of_ascii c ≤ 13)%nat.

Fixpoint lstrip (s : string) : string :=
  match s with
  | String c r => if is_space c then lstrip r else s
  | EmptyString => EmptyString
  end.

Definition strip (s : string) : string :=
  String.rev (lstrip (String.rev (lstrip s))).

(** The value of a run of decimal digits in which, as since Python 3.6,
    single underscores may separate digits; None for anything else. *)
Fixpoint digits_value (s : string) (acc : Z) : option Z :=
  match s with
  | String c r =>
      if is_digit c then digits_value r (10 * acc + (Z.of_nat (nat_of_ascii c) - 48))
      else if bool_decide (c = "_"%char) then
        match r with
        | String c' _ => if is_digit c' then digits_value r acc else None
        | EmptyString => None
        end
      else None
  | EmptyString => Some acc
  end.

(** A parser of ASCII decimal numerals, the grammar of int() on a byte
    string in Python 3.6 and later: surrounding white space, an optional
    sign, and digits with single underscores between them. It stands in for
    int() in the sample runtime below; the handlers are modelled over
    whatever int() the interpreter has (int_of_text of the Runtime). *)
Definition int_of_ascii (s : string) : option Z :=
  let body := strip s in
  let '(negative, digits) :=
    match body with
    | String c r =>
        if bool_decide (c = "-"%char) then (true, r)
        else if bool_decide (c = "+"%char) then (false, r)
        else (false, body)
    | EmptyString => (false, body)
    end in
  match digits with
  | String c _ =>
      if is_digit c
      then (fun z => if negative : bool then - z else z) <$> digits_value digits 0
      else None
  | EmptyString => None
  end.

(** isinstance(value, python_type); bool is a subclass of int. *)
Definition isinstance (value : jvalue) (t : python_type) : bool :=
  match t, value with
  | Tint, (JInt _ | JBool _) => true
  | Tbool, JBool _ => true
  | Tfloat, JFloat _ => true
  | Ttext, JStr _ => true
  | Tdict, JDict _ => true
  | Tlist, JList _ => true
  | _, _ => false
  end.

(** [value == text] for a text literal: only an equal text compares equal. *)
Definition eq_text (value : jvalue) (text : string) : bool :=
  match value with
  | JStr s => bool_decide (s = text)
  | _ => false
  end.

(** Truth value of a JSON value ([if not value]). *)
Definition truthy (value : jvalue) : bool :=
  match value with
  | JNone => false
  | JBool b => b
  | JInt z => negb (z =? 0)
  | JFloat (FFinite m _) => negb (m =? 0)
  | JFloat _ => true
  | JStr s => negb (bool_decide (s = ""))
  | JList l => negb (bool_decide (l = []))
  | JDict d => negb (bool_decide (d = []))
  end.

(** The elements [for x in value] yields: the elements of a list, the keys
    of a dict, the one-character strings of a text; other values are not
    iterable. *)
Fixpoint chars (s : string) : list jvalue :=
  match s with
  | String c r => JStr (String c "") :: chars r
  | EmptyString => []
  end.

(** Dict operations on the item list. *)
Fixpoint dict_get {A} (d : list (string * A)) (key : string) : option A :=
  match d with
  | [] => None
  | (k, v) :: d' => if bool_decide (k = key) then Some v else dict_get d' key
  end.

Definition dict_del {A} (key : string) (d : list (string * A)) : list (string * A) :=
  filter (fun kv => kv.1 ≠ key) d.

Fixpoint dict_set {A} (d : list (string * A)) (key : string) (v : A) : list (string * A) :=
  match d with
  | [] => [(key, v)]
  | (k, v0) :: d' => if bool_decide (k = key) then (k, v) :: d' else (k, v0) :: dict_set d' key v
  end.

Definition keys {A} (d : list (string * A)) : list string := d.*1.

(** A value all of whose dicts, at any depth, have pairwise distinct keys,
    as every value built by json.loads has. *)
Fixpoint wf_value (v : jvalue) : bool :=
  match v with
  | JList l => forallb wf_value l
  | JDict d => bool_decide (NoDup (keys d)) && forallb (fun kv => wf_value kv.2) d
  | JNone | JBool _ | JInt _ | JFloat _ | JStr _ => true
  end.

(** The same for the dicts of a template. *)
Fixpoint wf_template (t : template) : bool :=
  match t with
  | TDict d => bool_decide (NoDup (keys d)) && forallb (fun kt => wf_template kt.2) d
  | TList l => forallb wf_template l
  | TCallable _ | TRegexp _ => true
  end.

(** A value has the shape of a template: under a dict template a dict has
    exactly the keys of the template and each of its values has the shape
    of the template stored under its key; under a list template the
    elements of a list have the shape of element 0 of the template. *)
Fixpoint conforms (t : template) (v : jvalue) {struct t} : Prop :=
  match t, v with
  | TDict d, JDict items =>
      (∀ k, k ∈ keys items ↔ k ∈ keys d)
      ∧ (fix each (d : list (string * template)) : Prop :=
           match d with
           | [] => True
           | (k, t') :: d' =>
               match dict_get items k with
               | Some v' => conforms t' v'
               | None => True
               end ∧ each d'
           end) d
  | TList (t0 :: _), JList l => Forall (conforms t0) l
  | _, _ => True
  end.

(** How the interpreter divides two ints with [/]: Python 2 floors, Python 3
    (or [from __future__ import division]) gives the quotient as a float. The
    module is written to run under both through six. Numbers are kept as
    exact rationals: a float stands for the rational it approximates. *)
Inductive py_division := ClassicDivision | TrueDivision.

Definition py_div (mode : py_division) (a b : Q) : Q :=
  match mode with
  | ClassicDivision => inject_Z (Qfloor (a / b))
  | TrueDivision => (a / b)%Q
  end.

(** [a > b] on numbers *)
Definition py_gt (a b : Q) : bool := negb (Qle_bool a b).

(** Library functions the handlers call whose code is outside the
    repository, taken as an interface. *)
Class Runtime := {
  (** int(s) of a text or a byte string: its value, None when int raises
      ValueError. Which numerals int takes depends on the interpreter
      (underscores between digits since Python 3.6, and for a text the
      decimal digits of every script), so it is part of the interface. *)
  int_of_text : string → option Z;
  (** six.text_type(value); None when the conversion raises *)
  text_type : jvalue → option string;
  (** bool(re.match(pattern, text)) *)
  re_match : string → string → bool;
  (** json.loads of the utf-8 decoded message; None on ValueError *)
  json_loads : string → option jvalue;
  (** text_type(bytes, 'utf-8'); None on UnicodeDecodeError *)
  decode_utf8 : string → option string;
  (** base64.b64decode; None when it raises *)
  b64decode : string → option string;
  (** globaleaks.utils.security.sha512 *)
  sha512 : string → string;
  (** mimetypes.guess_type(name)[0] *)
  guess_type : string → option string;
  (** the path of the n-th SecureTemporaryFile created under a directory *)
  tmp_filepath : string → nat → string;
  (** os.path.basename *)
  basename : string → string
}.

(** Whether int(value) returns rather than raises. *)
Definition int_returns `{Runtime} (value : jvalue) : bool :=
  match value with
  | JBool _ | JInt _ => true
  | JFloat (FFinite _ _) => true
  | JFloat _ => false
  | JStr s => bool_decide (is_Some (int_of_text s))
  | JNone | JList _ | JDict _ => false
  end.

(** ** Sessions, tenants, requests and the handler object *)

(** globaleaks.sessions.Session as the handlers read it *)
Record Session := {
  session_id : string;
  session_tid : Z;
  user_id : string;
  user_role : string
}.

(** One entry of State.tenant_cache *)
Module TenantCache.
Record t := {
  basic_auth : bool;
  basic_auth_username : string;
  basic_auth_password : string;
  maximum_filesize : Z;
  admin_api_token_digest : string
}.
End TenantCache.

(** Modelled from the spec: globaleaks.utils.securetempfile.SecureTemporaryFile,
    whose code is not among the sources. The object holds the bytes written
    so far; finalize_write seals it and no further write is permitted. *)
Record SecureTemporaryFile := {
  filepath : string;
  content : string;
  finalized : bool
}.

(** self.uploaded_file; body refers to the temporary file registered under
    that flow identifier in State.TempUploadFiles. *)
Record UploadedFile := {
  uf_date : Z;
  uf_name : string;
  uf_type : string;
  uf_size : Z;
  uf_filename : string;
  uf_body : string;
  uf_description : string
}.

(** datetime.timedelta, normalized as Python keeps it:
    0 <= seconds < 86400 and 0 <= microseconds < 1000000. *)
Record timedelta := {
  days : Z;
  seconds : Z;
  microseconds : Z
}.

(** The difference of two datetimes given in microseconds since the epoch. *)
Definition timedelta_of (us : Z) : timedelta :=
  {| days := us / (86400 * 1000000);
     seconds := (us / 1000000) mod 86400;
     microseconds := us mod 1000000 |}.

(** The twisted request: what the client sent, and what the handler has set
    on the response so far. *)
Record Request := {
  tid : Z;
  headers : gmap string string;
  args : gmap string (list string);
  start_time : Z;
  execution_time : option timedelta;
  response_headers : list (string * string);
  response_code : Z
}.

(** globaleaks.state.State as the handlers read and write it *)
Record State := {
  tenant_cache : gmap Z TenantCache.t;
  api_token_session : option Session;
  TempUploadFiles : gmap string SecureTemporaryFile;
  (** number of temporary files created so far *)
  tmp_created : nat;
  (** arguments of the schedule_exception_email calls made so far *)
  exception_emails : list (string * Z * Z)
}.

(** globaleaks.settings.Settings, the fields read here *)
Record SettingsClass := {
  api_token_len : nat;
  file_chunk_size : Z;
  side_channels_guard : Z;
  tmp_path : string
}.

(** A BaseHandler instance: the class attributes a subclass overrides and
    the instance attributes. [current_user_cache] is the [_current_user]
    attribute: None until the property is first read. *)
Record Handler := {
  name : string;
  handler_exec_time_threshold : Z;
  uniform_answer_time : bool;
  bypass_basic_auth : bool;
  state : State;
  request : Request;
  uploaded_file : option UploadedFile;
  current_user_cache : option (option Session)
}.

Definition set_state (f : State → State) (self : Handler) : Handler :=
  {| name := name self;
     handler_exec_time_threshold := handler_exec_time_threshold self;
     uniform_answer_time := uniform_answer_time self;
     bypass_basic_auth := bypass_basic_auth self;
     state := f (state self);
     request := request self;
     uploaded_file := uploaded_file self;
     current_user_cache := current_user_cache self |}.

Definition set_request (f : Request → Request) (self : Handler) : Handler :=
  {| name := name self;
     handler_exec_time_threshold := handler_exec_time_threshold self;
     uniform_answer_time := uniform_answer_time self;
     bypass_basic_auth := bypass_basic_auth self;
     state := state self;
     request := f (request self);
     uploaded_file := uploaded_file self;
     current_user_cache := current_user_cache self |}.

Definition set_uploaded_file (u : option UploadedFile) (self : Handler) : Handler :=
  {| name := name self;
     handler_exec_time_threshold := handler_exec_time_threshold self;
     uniform_answer_time := uniform_answer_time self;
     bypass_basic_auth := bypass_basic_auth self;
     state := state self;
     request := request self;
     uploaded_file := u;
     current_user_cache := current_user_cache self |}.

Definition set_current_user_cache (u : option (option Session)) (self : Handler) : Handler :=
  {| name := name self;
     handler_exec_time_threshold := handler_exec_time_threshold self;
     uniform_answer_time := uniform_answer_time self;
     bypass_basic_auth := bypass_basic_auth self;
     state := state self;
     request := request self;
     uploaded_file := uploaded_file self;
     current_user_cache := u |}.

Definition set_TempUploadFiles (f : gmap string SecureTemporaryFile → gmap string SecureTemporaryFile)
    (st : State) : State :=
  {| tenant_cache := tenant_cache st;
     api_token_session := api_token_session st;
     TempUploadFiles := f (TempUploadFiles st);
     tmp_created := tmp_created st;
     exception_emails := exception_emails st |}.

Definition set_tmp_created (n : nat) (st : State) : State :=
  {| tenant_cache := tenant_cache st;
     api_token_session := api_token_session st;
     TempUploadFiles := TempUploadFiles st;
     tmp_created := n;
     exception_emails := exception_emails st |}.

Definition add_exception_email (e : string * Z * Z) (st : State) : State :=
  {| tenant_cache := tenant_cache st;
     api_token_session := api_token_session st;
     TempUploadFiles := TempUploadFiles st;
     tmp_created := tmp_created st;
     exception_emails := exception_emails st ++ [e] |}.

Definition setHeader (k v : string) (r : Request) : Request :=
  {| tid := tid r;
     headers := headers r;
     args := args r;
     start_time := start_time r;
     execution_time := execution_time r;
     response_headers := dict_set (response_headers r) k v;
     response_code := response_code r |}.

Definition set_execution_time (d : timedelta) (r : Request) : Request :=
  {| tid := tid r;
     headers := headers r;
     args := args r;
     start_time := start_time r;
     execution_time := Some d;
     response_headers := response_headers r;
     response_code := response_code r |}.

(** ** Methods: a computation on the handler object that returns or raises

    A method reads and writes [self] and ends by returning a value or by
    raising; what it wrote before raising stays written. *)
Definition M (A : Type) : Type := Handler → res A * Handler.

#[global] Instance M_ret : MRet M := fun A a self => (Ok a, self).
#[global] Instance M_bind : MBind M := fun A B f m self =>
  match m self with
  | (Ok a, self') => f a self'
  | (Raise e, self') => (Raise e, self')
  end.

Definition raise {A} (e : exn) : M A := fun self => (Raise e, self).
Definition get_self : M Handler := fun self => (Ok self, self).
Definition modify (f : Handler → Handler) : M unit := fun self => (Ok (), f self).
Definition lift {A} (r : res A) : M A := fun self => (r, self).

(** [d[key]] on a dict: KeyError when the key is absent *)
Definition getitem `{Countable K} {A} (d : gmap K A) (key : K) : res A :=
  match d !! key with
  | Some v => Ok v
  | None => Raise KeyError
  end.

(** [l[0]] on a list: IndexError when the list is empty *)
Definition first {A} (l : list A) : res A :=
  match l with
  | x :: _ => Ok x
  | [] => Raise IndexError
  end.

(** bytes.split(): the maximal runs of non white space characters *)
Fixpoint split_whitespace_aux (s : string) (word : string) : list string :=
  match s with
  | String c r =>
      if is_space c
      then (if bool_decide (word = "") then [] else [String.rev word]) ++ split_whitespace_aux r ""
      else split_whitespace_aux r (String c word)
  | EmptyString => if bool_decide (word = "") then [] else [String.rev word]
  end.

Definition split_whitespace (s : string) : list string := split_whitespace_aux s "".

(** text.split(":", 1): the text before and after the first colon, or the
    whole text alone when it has no colon *)
Fixpoint split_colon_once (s : string) : string * option string :=
  match s with
  | String c r =>
      if bool_decide (c = ":"%char) then ("", Some r)
      else let '(a, b) := split_colon_once r in (String c a, b)
  | EmptyString => ("", None)
  end.

Module BaseHandler.
Section Validation.
Context `{Runtime}.

(** validate_python_type (base.py 159-181) *)
Definition validate_python_type (value : jvalue) (python_type : python_type) : bool :=
  match value with
  | JNone => true
  | _ =>
      if bool_decide (python_type = SkipSpecificValidation) then true
      else if bool_decide (python_type = Tint) then int_returns value
      else if bool_decide (python_type = Tbool)
              && (eq_text value "true" || eq_text value "false")
      then true
      else isinstance value python_type
  end.

(** validate_regexp (base.py 183-193) *)
Definition validate_regexp (value : jvalue) (type : string) : bool :=
  match text_type value with
  | None => false
  | Some value => re_match type value
  end.

(** What a call on the template stored under one key does: validate_type
    and validate_jmessage applied to that template, and whether the
    template is a non-empty dict or list (base.py 283-284). *)
Record subtemplate := {
  sub_validate_type : jvalue → res (bool * jvalue);
  sub_validate_jmessage : jvalue → res jvalue;
  sub_nonempty_container : bool
}.

(** [all(validate_type(x, type[0]) for x in l)] over the elements of a
    list; [type0] is None when the template list is empty, so that
    [type[0]] raises IndexError. The elements are validated in order
    until one fails; a validated element is left as validate_type left
    it (a nested dict has had its extra keys deleted). *)
Fixpoint all_validate (type0 : option (jvalue → res (bool * jvalue))) (l : list jvalue)
  : res (bool * list jvalue) :=
  match l with
  | [] => Ok (true, [])
  | x :: l' =>
      match type0 with
      | None => Raise IndexError
      | Some validate =>
          '(retval, x') ← validate x;
          if retval : bool
          then '(retval', l'') ← all_validate type0 l'; Ok (retval', x' :: l'')
          else Ok (false, x' :: l')
      end
  end.

(** The same over [for x in value] for any value: the keys of a dict and
    the characters of a text are texts, which validation cannot change. *)
Definition all_validate_iter (type0 : option (jvalue → res (bool * jvalue))) (value : jvalue)
  : res (bool * jvalue) :=
  match value with
  | JList l => '(retval, l') ← all_validate type0 l; Ok (retval, JList l')
  | JDict d => '(retval, _) ← all_validate type0 (JStr <$> keys d); Ok (retval, value)
  | JStr s => '(retval, _) ← all_validate type0 (chars s); Ok (retval, value)
  | JNone | JBool _ | JInt _ | JFloat _ => Raise TypeError
  end.

(** First loop of validate_jmessage (base.py 249-267) over the items of
    the payload, threading success_check and keys_to_strip. *)
Fixpoint first_loop (message_template : list (string * subtemplate))
    (items : list (string * jvalue)) (success_check : nat) (keys_to_strip : list string)
  : res (nat * list string * list (string * jvalue)) :=
  match items with
  | [] => Ok (success_check, keys_to_strip, [])
  | (key, value) :: items' =>
      match dict_get message_template key with
      | None =>
          '(success_check', keys_to_strip', items'') ←
            first_loop message_template items' success_check (keys_to_strip ++ [key]);
          Ok (success_check', keys_to_strip', (key, value) :: items'')
      | Some type =>
          '(retval, value') ← sub_validate_type type value;
          if retval : bool
          then
            '(success_check', keys_to_strip', items'') ←
              first_loop message_template items' (S success_check) keys_to_strip;
            Ok (success_check', keys_to_strip', (key, value') :: items'')
          else Raise (InputValidationError (KeyTypeValidationFailure key))
      end
  end.

(** [for key in keys_to_strip: del jmessage[key]] (base.py 269-270) *)
Definition strip_keys (keys_to_strip : list string) (jmessage : list (string * jvalue))
  : list (string * jvalue) :=
  foldl (fun jmessage key => dict_del key jmessage) jmessage keys_to_strip.

(** Second loop of validate_jmessage (base.py 272-287) over the items of
    the template. *)
Fixpoint second_loop (template_items : list (string * subtemplate))
    (jmessage : list (string * jvalue)) (success_check : nat)
  : res (nat * list (string * jvalue)) :=
  match template_items with
  | [] => Ok (success_check, jmessage)
  | (key, value) :: template_items' =>
      match dict_get jmessage key with
      | None => Raise (InputValidationError (MissingKey key))
      | Some v =>
          '(retval, v') ← sub_validate_type value v;
          if retval : bool
          then
            v'' ← (if sub_nonempty_container value
                   then sub_validate_jmessage value v'
                   else Ok v');
            second_loop template_items' (dict_set jmessage key v'') (S success_check)
          else Raise (InputValidationError (KeyDoubleValidationFailure key))
      end
  end.

(** The dict branch of validate_jmessage (base.py 246-293). [jmessage.items()]
    exists only on a dict. The returned value is the payload as the call
    leaves it; the call itself returns True. *)
Definition validate_jmessage_dict (message_template : list (string * subtemplate))
    (jmessage : jvalue) : res jvalue :=
  match jmessage with
  | JDict items =>
      '(success_check, keys_to_strip, items') ← first_loop message_template items 0%nat [];
      let jmessage' := strip_keys keys_to_strip items' in
      '(success_check', jmessage'') ← second_loop message_template jmessage' success_check;
      if bool_decide (success_check' ≠ List.length message_template * 2)%nat
      then Raise (InputValidationError SuccessCounterDoubleCheckFailure)
      else Ok (JDict jmessage'')
  | _ => Raise AttributeError
  end.

(** The list branch of validate_jmessage (base.py 295-299) *)
Definition validate_jmessage_list (type0 : option (jvalue → res (bool * jvalue)))
    (jmessage : jvalue) : res jvalue :=
  '(retval, jmessage') ← all_validate_iter type0 jmessage;
  if retval : bool
  then Ok jmessage'
  else Raise (InputValidationError NotEveryElement).

Definition nonempty_container (type : template) : bool :=
  match type with
  | TDict d => negb (bool_decide (d = []))
  | TList l => negb (bool_decide (l = []))
  | TCallable _ | TRegexp _ => false
  end.

(** validate_type (base.py 195-231) and validate_jmessage (base.py
    233-302), by recursion on the template. validate_type returns retval
    together with the value as the call leaves it. Where validate_type
    calls validate_jmessage on the template it was given, the dict branch
    is written out, the template being no smaller; the two agree
    (validate_type_TDict below). *)
Fixpoint validate_type (type : template) (value : jvalue) {struct type} : res (bool * jvalue) :=
  match value with
  | JNone => Ok (false, value)
  | _ =>
      match type with
      | TCallable python_type => Ok (validate_python_type value python_type, value)
      | TDict d =>
          value' ← validate_jmessage_dict
            ((fun kt => (kt.1, {| sub_validate_type := validate_type kt.2;
                                  sub_validate_jmessage := validate_jmessage kt.2;
                                  sub_nonempty_container := nonempty_container kt.2 |})) <$> d)
            value;
          Ok (true, value')
      | TRegexp pattern => Ok (validate_regexp value pattern, value)
      | TList l =>
          if negb (truthy value) then Ok (true, value)
          else all_validate_iter
                 match l with [] => None | type0 :: _ => Some (validate_type type0) end
                 value
      end
  end
with validate_jmessage (message_template : template) (jmessage : jvalue)
    {struct message_template} : res jvalue :=
  match message_template with
  | TDict d =>
      validate_jmessage_dict
        ((fun kt => (kt.1, {| sub_validate_type := validate_type kt.2;
                              sub_validate_jmessage := validate_jmessage kt.2;
                              sub_nonempty_container := nonempty_container kt.2 |})) <$> d)
        jmessage
  | TList l =>
      validate_jmessage_list
        match l with [] => None | type0 :: _ => Some (validate_type type0) end
        jmessage
  | TCallable _ | TRegexp _ => Raise (InputValidationError InvalidJsonMassage)
  end.

(** The template of one key as the two loops use it. *)
Definition subtemplate_of (type : template) : subtemplate :=
  {| sub_validate_type := validate_type type;
     sub_validate_jmessage := validate_jmessage type;
     sub_nonempty_container := nonempty_container type |}.

(** The exception of the success counter double check (base.py 289-291). *)
Definition counter_failure : exn := InputValidationError SuccessCounterDoubleCheckFailure.

(** A call in the place of validate_type that, on a value with distinct
    keys, does not raise the counter failure and returns a value with
    distinct keys; the same for a call in the place of validate_jmessage,
    and for the template stored under a key. *)
Definition sound_type (f : jvalue → res (bool * jvalue)) : Prop :=
  ∀ v, wf_value v = true →
    f v ≠ Raise counter_failure ∧ ∀ b v', f v = Ok (b, v') → wf_value v' = true.

Definition sound_jmessage (g : jvalue → res jvalue) : Prop :=
  ∀ v, wf_value v = true →
    g v ≠ Raise counter_failure ∧ ∀ v', g v = Ok v' → wf_value v' = true.

Definition sound_sub (s : subtemplate) : Prop :=
  sound_type (sub_validate_type s) ∧ sound_jmessage (sub_validate_jmessage s).

(** What validate_type and validate_jmessage establish for one template:
    a value they accept has the shape of the template. *)
Definition shapes (t : template) : Prop :=
  (∀ v v', validate_type t v = Ok (true, v') → conforms t v')
  ∧ (∀ v v', validate_jmessage t v = Ok v' → conforms t v').

(** validate_message (base.py 304-317). validate_jmessage returns True or
    raises, so the raise that ends the source function is never reached. *)
Definition validate_message (message : string) (message_template : template) : res jvalue :=
  match json_loads message with
  | None => Raise (InputValidationError InvalidJSONFormat)
  | Some jmessage => validate_jmessage message_template jmessage
  end.

(** A template that is a primitive class or a regular expression, and a
    dict template all of whose values are. *)
Definition primitive (type : template) : bool :=
  match type with
  | TCallable _ | TRegexp _ => true
  | TDict _ | TList _ => false
  end.

Definition flat (d : list (string * template)) : bool :=
  forallb (fun kt => primitive kt.2) d.

(** Whether validate_type returns True. *)
Definition accepts (type : template) (value : jvalue) : bool :=
  match validate_type type value with
  | Ok (true, _) => true
  | _ => false
  end.

(** An item of the payload whose key the template has and whose value
    validate_type refuses against the template of that key. *)
Definition refused (d : list (string * template)) (kv : string * jvalue) : bool :=
  match dict_get d kv.1 with
  | Some type => negb (accepts type kv.2)
  | None => false
  end.

(** What validation under a flat template is held to do with a payload,
    written from the words of the property and not from the code: the first
    item, in the order of the payload, whose value is refused gives the
    type validation failure naming its key; failing that, the first key of
    the template, in its order, that the payload lacks gives the missing
    key failure; failing that, the payload is returned without the items
    whose key the template lacks. *)
Definition flat_outcome (d : list (string * template)) (items : list (string * jvalue))
  : res jvalue :=
  match List.find (refused d) items with
  | Some kv => Raise (InputValidationError (KeyTypeValidationFailure kv.1))
  | None =>
      match List.find (fun kt => negb (bool_decide (kt.1 ∈ keys items))) d with
      | Some kt => Raise (InputValidationError (MissingKey kt.1))
      | None => Ok (JDict (filter (fun kv => kv.1 ∈ keys d) items))
      end
  end.

End Validation.

Section Methods.
Context `{Runtime}.
(** globaleaks.sessions.Sessions, the process-wide registry keyed by
    session id, and globaleaks.settings.Settings *)
Variable Sessions : gmap string Session.
Variable Settings : SettingsClass.
(** the meaning of [/] under the interpreter that runs the handlers *)
Variable division : py_division.

(** [self.state.tenant_cache[self.request.tid]] *)
Definition tenant : M TenantCache.t :=
  fun self => (getitem (tenant_cache (state self)) (tid (request self)), self).

(** [self.request.args[key][0]] *)
Definition arg0 (key : string) : M string :=
  fun self => (getitem (args (request self)) key ≫= first, self).

(** The header value [Basic realm="globaleaks"]. *)
Definition www_authenticate : string :=
  "Basic realm=" ++ String (ascii_of_nat 34) ("globaleaks" ++ String (ascii_of_nat 34) "").

(** basic_auth (base.py 140-157). Only AssertionError is caught, which
    none of the calls in the try block raises. *)
Definition basic_auth : M unit :=
  self ← get_self;
  msg ← match headers (request self) !! "authorization" with
        | Some value =>
            match split_whitespace value with
            | [auth_type; data] =>
                match b64decode data with
                | None => raise Base64Error
                | Some raw =>
                    match decode_utf8 raw with
                    | None => raise UnicodeDecodeError
                    | Some text =>
                        match split_colon_once text with
                        | (usr, Some pwd) =>
                            if bool_decide (auth_type ≠ "Basic") then mret (Some "Authentication failed")
                            else
                              t ← tenant;
                              if bool_decide (usr ≠ TenantCache.basic_auth_username t)
                                 || bool_decide (pwd ≠ TenantCache.basic_auth_password t)
                              then mret (Some "Authentication failed")
                              else mret None
                        | (_, None) => raise ValueError
                        end
                    end
                end
            | _ => raise ValueError
            end
        | None => mret (Some "Authentication required")
        end;
  match msg with
  | Some _ =>
      modify (set_request (setHeader "WWW-Authenticate" www_authenticate));;
      raise HTTPAuthenticationRequired
  | None => mret ()
  end.

(** get_api_session (base.py 378-395) *)
Definition get_api_session : M (option Session) :=
  self ← get_self;
  token ← match args (request self) !! "api-token" with
          | Some l => lift (first l)
          | None =>
              match headers (request self) !! "x-api-token" with
              | Some v => mret v
              | None => mret ""
              end
          end;
  if bool_decide (tid (request self) ≠ 1)
     || bool_decide (String.length token ≠ api_token_len Settings)
     || bool_decide (api_token_session (state self) = None)
  then mret None
  else
    t ← tenant;
    if bool_decide (TenantCache.admin_api_token_digest t = "") then mret None
    else
      let stored_token_hash := TenantCache.admin_api_token_digest t in
      if bool_decide (sha512 token = stored_token_hash)
      then mret (api_token_session (state self))
      else mret None.

(** get_current_user (base.py 351-369) *)
Definition get_current_user : M (option Session) :=
  api_session ← get_api_session;
  match api_session with
  | Some _ => mret api_session
  | None =>
      self ← get_self;
      match headers (request self) !! "x-session" with
      | None => mret None
      | Some session_id =>
          match decode_utf8 session_id with
          | None => raise UnicodeDecodeError
          | Some session_id =>
              match Sessions !! session_id with
              | Some session =>
                  if bool_decide (session_tid session = tid (request self))
                  then mret (Some session)
                  else mret None
              | None => mret None
              end
          end
      end
  end.

(** The current_user property (base.py 371-376) *)
Definition current_user : M (option Session) :=
  self ← get_self;
  match current_user_cache self with
  | Some u => mret u
  | None =>
      u ← get_current_user;
      modify (set_current_user_cache (Some u));;
      mret u
  end.

(** decorator_authentication (base.py 94-121): the wrapper it returns
    around the handler method [f]. *)
Definition decorator_authentication {A} (f : M A) (roles : list string) : M A :=
  t ← tenant;
  self ← get_self;
  (if TenantCache.basic_auth t && negb (bypass_basic_auth self) then basic_auth else mret ());;
  if bool_decide ("*" ∈ roles) then f
  else if bool_decide ("unauthenticated" ∈ roles) then
    u ← current_user;
    match u with
    | Some _ => raise InvalidAuthentication
    | None => f
    end
  else
    u ← current_user;
    match u with
    | None => raise NotAuthenticated
    | Some u =>
        if bool_decide (user_role u ∈ roles) then f
        else raise InvalidAuthentication
    end.

(** Modelled from the spec: SecureTemporaryFile.write under [open('w')];
    a sealed file permits no further write. *)
Definition write (data : string) (f : SecureTemporaryFile) : res SecureTemporaryFile :=
  if finalized f then Raise IOError
  else Ok {| filepath := filepath f; content := content f ++ data; finalized := false |}.

(** Modelled from the spec: SecureTemporaryFile.finalize_write. *)
Definition finalize_write (f : SecureTemporaryFile) : SecureTemporaryFile :=
  {| filepath := filepath f; content := content f; finalized := true |}.

(** process_file_upload (base.py 397-432); [now] is what datetime_now()
    returns. *)
Definition process_file_upload (now : Z) : M unit :=
  self ← get_self;
  if bool_decide (args (request self) !! "flowFilename" = None) then mret ()
  else
    total ← arg0 "flowTotalSize";
    total_file_size ← match int_of_text total with
                      | Some z => mret z
                      | None => raise ValueError
                      end;
    flow_identifier ← arg0 "flowIdentifier";
    file ← arg0 "file";
    let chunk_size := Z.of_nat (String.length file) in
    t ← tenant;
    if py_gt (py_div division (inject_Z chunk_size) (inject_Z (1024 * 1024)))
             (inject_Z (TenantCache.maximum_filesize t))
       || py_gt (py_div division (inject_Z total_file_size) (inject_Z (1024 * 1024)))
                (inject_Z (TenantCache.maximum_filesize t))
    then raise (FileTooBig (TenantCache.maximum_filesize t))
    else
      (if bool_decide (TempUploadFiles (state self) !! flow_identifier = None)
       then modify (set_state (fun st =>
              set_tmp_created (S (tmp_created st))
                (set_TempUploadFiles
                   <[flow_identifier :=
                       {| filepath := tmp_filepath (tmp_path Settings) (tmp_created st);
                          content := ""; finalized := false |}]> st)))
       else mret ());;
      self ← get_self;
      f ← lift (getitem (TempUploadFiles (state self)) flow_identifier);
      f ← lift (write file f);
      modify (set_state (set_TempUploadFiles <[flow_identifier := f]>));;
      chunk_number ← arg0 "flowChunkNumber";
      total_chunks ← arg0 "flowTotalChunks";
      let f := if bool_decide (chunk_number = total_chunks) then finalize_write f else f in
      modify (set_state (set_TempUploadFiles <[flow_identifier := f]>));;
      filename ← arg0 "flowFilename";
      text ← match decode_utf8 filename with
             | Some text => mret text
             | None => raise UnicodeDecodeError
             end;
      let mime_type := default "application/octet-stream" (guess_type text) in
      name ← arg0 "flowFilename";
      description ← lift (first (default [""] (args (request self) !! "description")));
      modify (set_uploaded_file (Some
        {| uf_date := now;
           uf_name := name;
           uf_type := mime_type;
           uf_size := total_file_size;
           uf_filename := basename (filepath f);
           uf_body := flow_identifier;
           uf_description := description |})).




(** execution_check (base.py 454-468); [now] is what datetime.now()
    returns. The result is the delay of the deferred_sleep the method
    returns, in seconds, or None when it returns nothing. *)
Definition execution_check (now : Z) : M (option Q) :=
  self ← get_self;
  let execution_time := timedelta_of (now - start_time (request self)) in
  modify (set_request (set_execution_time execution_time));;
  (if seconds execution_time >? handler_exec_time_threshold self
   then modify (set_state (add_exception_email
                  (name self, handler_exec_time_threshold self, seconds execution_time)))
   else mret ());;
  if uniform_answer_time self then
    let needed_delay :=
      py_div division
        (inject_Z (side_channels_guard Settings)
         - py_div division (inject_Z (microseconds execution_time)) (inject_Z 1000))
        (inject_Z 1000) in
    if py_gt needed_delay (inject_Z 0) then mret (Some needed_delay)
    else mret None
  else mret None.

(** The first [n] characters of a text and the rest. *)
Fixpoint string_take (n : nat) (s : string) : string :=
  match n, s with
  | S n', String c r => String c (string_take n' r)
  | _, _ => ""
  end.

Fixpoint string_drop (n : nat) (s : string) : string :=
  match n, s with
  | S n', String _ r => string_drop n' r
  | _, _ => s
  end.

(** The loop of write_upload_plaintext_to_disk (base.py 444-449) on the
    unread rest of the temporary file and the bytes written so far; it reads
    a non-empty block as long as the rest is not empty, so [rounds] greater
    than the length of the rest lets it run to its break. *)
Fixpoint copy_blocks (rounds : nat) (encrypted_file plaintext_file : string) : string :=
  match rounds with
  | O => plaintext_file
  | S rounds' =>
      let chunk := string_take 4096 encrypted_file in
      if bool_decide (chunk = "") then plaintext_file
      else copy_blocks rounds' (string_drop 4096 encrypted_file) (plaintext_file ++ chunk)
  end.

(** The files of the permanent storage by path, and the 'path' entry that
    write_upload_plaintext_to_disk adds to self.uploaded_file. *)
Record Storage := {
  files : gmap string string;
  uploaded_path : option string
}.

(** Whether open(destination, 'wb') succeeds. *)
Variable writable : string → bool.

(** write_upload_plaintext_to_disk (base.py 434-452). Without an uploaded
    file the subscript in the try block raises TypeError and so does the one
    in the finally block. The body of the uploaded file is the temporary
    file registered under its flow; for a flow that is no longer registered
    the lookup raises here, a case the source, which holds the object
    itself, does not have and the theorems exclude. Modelled from the spec:
    opening the temporary file for reading gives back the bytes written to
    it. *)
Definition write_upload_plaintext_to_disk (destination : string) (self : Handler)
    (storage : Storage) : res unit * Storage :=
  match uploaded_file self with
  | None => (Raise TypeError, storage)
  | Some uploaded_file =>
      let finally (fs : gmap string string) :=
        {| files := fs; uploaded_path := Some destination |} in
      match TempUploadFiles (state self) !! uf_body uploaded_file with
      | None => (Raise KeyError, finally (files storage))
      | Some body =>
          if writable destination
          then
            let plaintext := copy_blocks (S (String.length (content body))) (content body) "" in
            (Ok (), finally (<[destination := plaintext]> (files storage)))
          else (Raise IOError, finally (files storage))
      end
  end.

End Methods.
End BaseHandler.

(** ** FileProducer (base.py 33-71) *)
Module FileProducer.

(** The twisted request as the producer uses it: whether the connection
    is still there, whether a producer is registered, the blocks written
    so far and whether finish() was called. A call on a request whose
    connection is gone raises, which the producer swallows. *)
Record Channel := {
  connected : bool;
  producer : bool;
  written : list (list Byte.byte);
  finished : bool
}.

(** The producer object: how many times [self.finish.callback] was
    called, whether [self.request] is not None, and the unread rest of
    [self.fd]. *)
Record t := {
  finish : nat;
  request : bool;
  fd : list Byte.byte
}.

Definition registerProducer (c : Channel) : Channel :=
  {| connected := connected c; producer := true; written := written c; finished := finished c |}.

Definition unregisterProducer (c : Channel) : option Channel :=
  if connected c
  then Some {| connected := true; producer := false; written := written c; finished := finished c |}
  else None.

Definition channel_write (data : list Byte.byte) (c : Channel) : option Channel :=
  if connected c
  then Some {| connected := true; producer := producer c; written := written c ++ [data];
               finished := finished c |}
  else None.

Definition channel_finish (c : Channel) : option Channel :=
  if connected c
  then Some {| connected := true; producer := producer c; written := written c; finished := true |}
  else None.

(** [fd.read(size)] on a regular file: the next [size] bytes, fewer at
    the end of the file, all the rest for a negative size. *)
Definition read (size : Z) (fd : list Byte.byte) : list Byte.byte * list Byte.byte :=
  if size <? 0 then (fd, [])
  else (take (Z.to_nat size) fd, drop (Z.to_nat size) fd).

(** __init__ *)
Definition init (fd : list Byte.byte) : t :=
  {| finish := 0%nat; request := true; fd := fd |}.

(** start *)
Definition start (w : t * Channel) : t * Channel :=
  (w.1, registerProducer w.2).

(** stopProducing *)
Definition stopProducing (w : t * Channel) : t * Channel :=
  let '(self, c) := w in
  if request self then
    match unregisterProducer c with
    | None => (self, c)
    | Some c1 =>
        match channel_finish c1 with
        | None => (self, c1)
        | Some c2 =>
            ({| finish := S (finish self); request := false; fd := fd self |}, c2)
        end
    end
  else w.

Section Producing.
Variable Settings : SettingsClass.

    (** resumeProducing *)
Definition resumeProducing (w : t * Channel) : t * Channel :=
  let '(self, c) := w in
  if request self then
    let '(data, rest) := read (file_chunk_size Settings) (fd self) in
    let self := {| finish := finish self; request := request self; fd := rest |} in
    if negb (bool_decide (data = [])) then
      match channel_write data c with
      | Some c' => (self, c')
      | None => (self, c)
      end
    else stopProducing (self, c)
  else w.

    (** The transport pulling from a non-streaming producer: it calls
        resumeProducing again for as long as the producer is registered. *)
Fixpoint drive (calls : nat) (w : t * Channel) : t * Channel :=
    match calls with
    | O => w
    | S calls' => if producer w.2 then drive calls' (resumeProducing w) else w
    end.
(** The calls a transport can make on a registered producer, and a run of
    them. *)
Inductive call := ResumeProducing | StopProducing.

Definition run_call (w : t * Channel) (c : call) : t * Channel :=
  match c with
  | ResumeProducing => resumeProducing w
  | StopProducing => stopProducing w
  end.

Definition run_calls (calls : list call) (w : t * Channel) : t * Channel :=
  foldl run_call w calls.

End Producing.

(** What every call keeps on a live connection: the blocks written followed
    by the unread bytes are the bytes of the file, and the callback of the
    finish Deferred has been called once if the producer has let go of the
    request and not at all otherwise. *)
Definition steady (bytes : list Byte.byte) (w : t * Channel) : Prop :=
  connected w.2 = true
  ∧ (List.concat (written w.2) ++ fd w.1)%list = bytes
  ∧ (if request w.1 then finish w.1 = 0%nat
     else finish w.1 = 1%nat ∧ finished w.2 = true ∧ producer w.2 = false).

(** The number of blocks of [b] bytes needed for [n] bytes: ceil(n / b). *)
Definition blocks (n : nat) (b : Z) : Z := (Z.of_nat n + b - 1) / b.

End FileProducer.

(** ** Downloads (base.py 323-349) *)
Module Download.
Section Download.
Context `{Runtime}.

(** The regular files of the file system by path: os.path.exists and
    os.path.isfile hold of exactly these paths, and open(filepath, 'rb')
    gives their bytes. *)
Variable filesystem : gmap string (list Byte.byte).

(** [s.endswith(suffix)] *)
Definition endswith (s suffix : string) : bool :=
  (String.length suffix <=? String.length s)%nat
  && bool_decide
       (BaseHandler.string_drop (String.length s - String.length suffix) s = suffix).

(** The header value [attachment; filename="%s" % filename]. *)
Definition content_disposition (filename : string) : string :=
  "attachment; filename=" ++ String (ascii_of_nat 34) (filename ++ String (ascii_of_nat 34) "").

(** write_file (base.py 323-337) on the handler and the transport side
    of its request. None stands for errors.ResourceNotFound, raised before
    anything is set; otherwise the handler with the headers set and the
    started producer, whose finish Deferred the method returns. *)
Definition write_file (filename filepath : string) (c : FileProducer.Channel)
    (self : Handler) : option (Handler * (FileProducer.t * FileProducer.Channel)) :=
  match filesystem !! filepath with
  | None => None
  | Some fd =>
      let '(self, filename) :=
        if endswith filename ".gz"
        then (set_request (setHeader "Content-encoding" "gzip") self,
              BaseHandler.string_take (String.length filename - 3) filename)
        else (self, filename) in
      let self :=
        match guess_type filename with
        | Some mime_type =>
            if bool_decide (mime_type = "") then self
            else set_request (setHeader "Content-Type" mime_type) self
        | None => self
        end in
      Some (self, FileProducer.start (FileProducer.init fd, c))
  end.

(** force_file_download (base.py 339-349) *)
Definition force_file_download (filename filepath : string) (c : FileProducer.Channel)
    (self : Handler) : option (Handler * (FileProducer.t * FileProducer.Channel)) :=
  match filesystem !! filepath with
  | None => None
  | Some fd =>
      let self := set_request (setHeader "X-Download-Options" "noopen") self in
      let self := set_request (setHeader "Content-Type" "application/octet-stream") self in
      let self := set_request (setHeader "Content-Disposition" (content_disposition filename))
                    self in
      Some (self, FileProducer.start (FileProducer.init fd, c))
  end.

End Download.
End Download.

(** ** PGPCheckSchedule (pgp_check_sched.py 32-54) *)
Module PGPCheckSchedule.

Record User := {
  pgp_key_public : string;
  pgp_key_expiration : Z;
  pgp_key_status : string
}.

Record Receiver := {
  id : string;
  user : User
}.

Definition set_pgp_key_status (status : string) (rcvr : Receiver) : Receiver :=
  {| id := id rcvr;
     user := {| pgp_key_public := pgp_key_public (user rcvr);
                pgp_key_expiration := pgp_key_expiration (user rcvr);
                pgp_key_status := status |} |}.

(** timedelta(days=15), in microseconds *)
Definition days15 : Z := 15 * 86400 * 1000000.

(** What the job reads from outside this file: the serialized receiver and
    admin_serialize_receiver, defined elsewhere in the repository;
    datetime_now() at its n-th call of the run and datetime_null(), in
    microseconds since the epoch; two fields of GLSettings.memory_copy. *)
Class Job (desc : Type) := {
  admin_serialize_receiver : Receiver → string → desc;
  datetime_now : nat → Z;
  datetime_null : Z;
  default_language : string;
  allow_unencrypted : bool
}.

Section Check.
Context {desc : Type} `{Job desc}.

(** The body of the loop over the receivers, on the list collected so far
    and the number of clock readings made so far. *)
Definition check_receiver (rcvr : Receiver) (expired_or_expiring : list desc) (calls : nat)
  : Receiver * list desc * nat :=
  if negb (bool_decide (pgp_key_public (user rcvr) = ""))
     && bool_decide (pgp_key_expiration (user rcvr) ≠ datetime_null)
  then
    if pgp_key_expiration (user rcvr) <? datetime_now calls then
      let expired_or_expiring :=
        (expired_or_expiring ++ [admin_serialize_receiver rcvr default_language])%list in
      if allow_unencrypted
      then (set_pgp_key_status "disabled" rcvr, expired_or_expiring, S calls)
      else (rcvr, expired_or_expiring, S calls)
    else if pgp_key_expiration (user rcvr) <? datetime_now (S calls) - days15 then
      (rcvr, (expired_or_expiring ++ [admin_serialize_receiver rcvr default_language])%list,
       S (S calls))
    else (rcvr, expired_or_expiring, S (S calls))
  else (rcvr, expired_or_expiring, calls).

Fixpoint check_receivers (rcvrs : list Receiver) (expired_or_expiring : list desc)
    (calls : nat) : list Receiver * list desc * nat :=
  match rcvrs with
  | [] => ([], expired_or_expiring, calls)
  | rcvr :: rcvrs' =>
      let '(rcvr', expired_or_expiring', calls') :=
        check_receiver rcvr expired_or_expiring calls in
      let '(rcvrs'', expired_or_expiring'', calls'') :=
        check_receivers rcvrs' expired_or_expiring' calls' in
      (rcvr' :: rcvrs'', expired_or_expiring'', calls'')
  end.

(** pgp_validation_check: the returned list and the store as the
    transaction leaves it. *)
Definition pgp_validation_check (store : list Receiver) : list desc * list Receiver :=
  let '(rcvrs, expired_or_expiring, _) := check_receivers store [] 0%nat in
  (expired_or_expiring, rcvrs).

(** A receiver the check looks at: it has a public key and an expiration
    date other than the null date. *)
Definition has_dated_key (rcvr : Receiver) : bool :=
  negb (bool_decide (pgp_key_public (user rcvr) = ""))
  && bool_decide (pgp_key_expiration (user rcvr) ≠ datetime_null).

(** Two successive readings of the clock are at most 15 days apart. *)
Definition clock_steady : Prop := ∀ n, datetime_now (S n) - days15 ≤ datetime_now n.

(** What the check is held to return, written from the words of the
    property and not from the code: the serializations, in the order of the
    store, of the receivers with a public key and a non-null expiration
    that is strictly earlier than the current time. The current time of a
    receiver is the reading of the clock taken when its turn comes: [calls]
    readings were taken before, one for each dated key found expired and
    two for each dated key found valid. *)
Fixpoint expired_in_turn (rcvrs : list Receiver) (calls : nat) : list desc :=
  match rcvrs with
  | [] => []
  | rcvr :: rcvrs' =>
      if has_dated_key rcvr then
        if pgp_key_expiration (user rcvr) <? datetime_now calls
        then admin_serialize_receiver rcvr default_language :: expired_in_turn rcvrs' (S calls)
        else expired_in_turn rcvrs' (S (S calls))
      else expired_in_turn rcvrs' calls
  end.

(** What the check may do to one receiver: nothing, or set the status of
    its key to disabled, the latter only on a node that accepts
    unencrypted mail and for a key with an expiration earlier than a
    reading of the clock. *)
Definition downgraded (rcvr rcvr' : Receiver) : Prop :=
  rcvr' = rcvr
  ∨ (rcvr' = set_pgp_key_status "disabled" rcvr
     ∧ allow_unencrypted = true
     ∧ has_dated_key rcvr = true
     ∧ ∃ n, pgp_key_expiration (user rcvr) < datetime_now n).

(** A receiver whose dated key has an expiration earlier than [now]. *)
Definition expired (now : Z) (rcvr : Receiver) : bool :=
  has_dated_key rcvr && (pgp_key_expiration (user rcvr) <? now).

End Check.
(** A mail handed to sendmail: the address, the type of the event the
    templates were formatted with, the language of the templates, and what
    the event carried (receiver_info, and expired_or_expiring in
    subevent_info). *)
Record Mail (desc : Type) := {
  to_address : string;
  event_type : string;
  language : string;
  receiver_info : option desc;
  expired_or_expiring_info : list desc
}.
Arguments to_address {desc} _.
Arguments event_type {desc} _.
Arguments language {desc} _.
Arguments receiver_info {desc} _.
Arguments expired_or_expiring_info {desc} _.

(** What the mails are built from: the admin users get_admin_users()
    returns, the 'mail_address' and 'language' entries of an admin and of a
    serialized receiver, and two fields of GLSettings.memory_copy. *)
Class Notification (desc admin : Type) := {
  get_admin_users : list admin;
  admin_mail_address : admin → string;
  admin_language : admin → string;
  receiver_mail_address : desc → string;
  receiver_language : desc → string;
  disable_admin_notification_emails : bool;
  disable_receiver_notification_emails : bool
}.

Section Operation.
Context {desc admin : Type} `{Job desc} `{Notification desc admin}.

(** send_admin_pgp_alerts (pgp_check_sched.py 56-92): the mails it sends,
    in order. *)
Definition send_admin_pgp_alerts (admin_desc : admin) (expired_or_expiring : list desc)
  : list (Mail desc) :=
  (fun u => {| to_address := admin_mail_address u;
               event_type := "admin_pgp_expiration_alert";
               language := admin_language admin_desc;
               receiver_info := None;
               expired_or_expiring_info := expired_or_expiring |}) <$> get_admin_users.

(** send_pgp_alerts (pgp_check_sched.py 94-129) *)
Definition send_pgp_alerts (receiver_desc : desc) : list (Mail desc) :=
  [ {| to_address := receiver_mail_address receiver_desc;
       event_type := "pgp_expiration_alert";
       language := receiver_language receiver_desc;
       receiver_info := Some receiver_desc;
       expired_or_expiring_info := [] |} ].

(** operation (pgp_check_sched.py 131-143): the mails sent, in order, and
    the store as pgp_validation_check leaves it. *)
Definition operation (store : list Receiver) : list (Mail desc) * list Receiver :=
  let '(expired_or_expiring, store') := pgp_validation_check store in
  if bool_decide (expired_or_expiring = [])
  then ([], store')
  else
    ((if disable_admin_notification_emails then []
      else admin_desc ← get_admin_users;
           send_admin_pgp_alerts admin_desc expired_or_expiring)
     ++ (if disable_receiver_notification_emails then []
         else receiver_desc ← expired_or_expiring;
              send_pgp_alerts receiver_desc),
     store')%list.

End Operation.

End PGPCheckSchedule.

(** ** Sample inputs *)
Module Samples.

(** Stand-ins for the library functions: int parses ASCII numerals,
    text_type converts a text to itself, re_match tests for a literal
    prefix, the codecs are the identity. *)
Definition runtime : Runtime :=
  {| int_of_text := int_of_ascii;
     text_type := fun v => match v with JStr s => Some s | _ => None end;
     re_match := String.prefix;
     json_loads := fun _ => None;
     decode_utf8 := Some;
     b64decode := Some;
     sha512 := fun token => token;
     guess_type := fun _ => None;
     tmp_filepath := fun dir n => dir;
     basename := fun path => path |}.

Definition settings : SettingsClass :=
  {| api_token_len := 32; file_chunk_size := 4; side_channels_guard := 150; tmp_path := "/tmp" |}.

Definition tenant_config (with_basic_auth : bool) (max_mb : Z) : TenantCache.t :=
  {| TenantCache.basic_auth := with_basic_auth;
     TenantCache.basic_auth_username := "user";
     TenantCache.basic_auth_password := "pass";
     TenantCache.maximum_filesize := max_mb;
     TenantCache.admin_api_token_digest := "" |}.

Definition receiver_session : Session :=
  {| session_id := "s-receiver"; session_tid := 2; user_id := "u1"; user_role := "receiver" |}.

Definition sessions : gmap string Session := {[ "s-receiver" := receiver_session ]}.

(** A handler of tenant [t] whose request carries the given headers and
    arguments and started at time 0. *)
Definition handler (t : Z) (cfg : TenantCache.t) (hdrs : gmap string string)
    (arguments : gmap string (list string)) : Handler :=
  {| name := "Handler";
     handler_exec_time_threshold := 120;
     uniform_answer_time := true;
     bypass_basic_auth := false;
     state := {| tenant_cache := {[ t := cfg ]};
                 api_token_session := None;
                 TempUploadFiles := ∅;
                 tmp_created := 0;
                 exception_emails := [] |};
     request := {| tid := t; headers := hdrs; args := arguments; start_time := 0;
                   execution_time := None; response_headers := []; response_code := 200 |};
     uploaded_file := None;
     current_user_cache := None |}.



(** The arguments of the chunk [number] of 3 of an upload declared as 1 MiB. *)
Definition upload_args (file number : string) : gmap string (list string) :=
  {[ "flowFilename" := ["report.bin"];
     "flowTotalSize" := ["1048576"];
     "flowIdentifier" := ["flow-1"];
     "file" := [file];
     "flowChunkNumber" := [number];
     "flowTotalChunks" := ["3"] ]}.

(** The handler of a request with those arguments on the process state
    [st], for tenant 1. *)
Definition upload (st : State) (file number : string) : Handler :=
  {| name := "Upload";
     handler_exec_time_threshold := 120;
     uniform_answer_time := false;
     bypass_basic_auth := false;
     state := st;
     request := {| tid := 1; headers := ∅; args := upload_args file number; start_time := 0;
                   execution_time := None; response_headers := []; response_code := 200 |};
     uploaded_file := None;
     current_user_cache := None |}.

(** The state of a process whose tenant 1 accepts uploads of [max_mb] MB
    and which holds no upload yet. *)
Definition fresh_state (max_mb : Z) : State :=
  {| tenant_cache := {[ 1 := tenant_config false max_mb ]};
     api_token_session := None;
     TempUploadFiles := ∅;
     tmp_created := 0;
     exception_emails := [] |}.


(** A job context whose clock stands still at [now]. *)
Definition job (now : Z) : PGPCheckSchedule.Job string :=
  {| PGPCheckSchedule.admin_serialize_receiver := fun rcvr _ => PGPCheckSchedule.id rcvr;
     PGPCheckSchedule.datetime_now := fun _ => now;
     PGPCheckSchedule.datetime_null := 0;
     PGPCheckSchedule.default_language := "en";
     PGPCheckSchedule.allow_unencrypted := true |}.

(** A job context whose clock advances by one microsecond from one
    reading to the next, starting at [now]. *)
Definition ticking_job (now : Z) : PGPCheckSchedule.Job string :=
  {| PGPCheckSchedule.admin_serialize_receiver := fun rcvr _ => PGPCheckSchedule.id rcvr;
     PGPCheckSchedule.datetime_now := fun n => now + Z.of_nat n;
     PGPCheckSchedule.datetime_null := 0;
     PGPCheckSchedule.default_language := "en";
     PGPCheckSchedule.allow_unencrypted := true |}.

Definition receiver (name key : string) (expiration : Z) : PGPCheckSchedule.Receiver :=
  {| PGPCheckSchedule.id := name;
     PGPCheckSchedule.user :=
       {| PGPCheckSchedule.pgp_key_public := key;
          PGPCheckSchedule.pgp_key_expiration := expiration;
          PGPCheckSchedule.pgp_key_status := "enabled" |} |}.

(** Two admin users, given by their addresses, who read English; a
    serialized receiver is the id of the receiver, also taken for its
    address. *)
Definition notification : PGPCheckSchedule.Notification string string :=
  {| PGPCheckSchedule.get_admin_users := ["admin1@node"; "admin2@node"];
     PGPCheckSchedule.admin_mail_address := fun u => u;
     PGPCheckSchedule.admin_language := fun _ => "en";
     PGPCheckSchedule.receiver_mail_address := fun d => d;
     PGPCheckSchedule.receiver_language := fun _ => "en";
     PGPCheckSchedule.disable_admin_notification_emails := false;
     PGPCheckSchedule.disable_receiver_notification_emails := false |}.

(** A token of the configured length; a node with an API session whose
    tenant 1 has the digest of that token; the handler of a request of
    tenant 1 that carries the token in its x-api-token header. *)
Definition api_token : string := "0123456789abcdef0123456789abcdef".

Definition api_session : Session :=
  {| session_id := "s-api"; session_tid := 1; user_id := "admin"; user_role := "admin" |}.

Definition api_tenant_config : TenantCache.t :=
  {| TenantCache.basic_auth := false;
     TenantCache.basic_auth_username := "user";
     TenantCache.basic_auth_password := "pass";
     TenantCache.maximum_filesize := 5;
     TenantCache.admin_api_token_digest := api_token |}.

Definition api_handler : Handler :=
  {| name := "Handler";
     handler_exec_time_threshold := 120;
     uniform_answer_time := true;
     bypass_basic_auth := false;
     state := {| tenant_cache := {[ 1 := api_tenant_config ]};
                 api_token_session := Some api_session;
                 TempUploadFiles := ∅;
                 tmp_created := 0;
                 exception_emails := [] |};
     request := {| tid := 1; headers := {[ "x-api-token" := api_token ]}; args := ∅;
                   start_time := 0; execution_time := None; response_headers := [];
                   response_code := 200 |};
     uploaded_file := None;
     current_user_cache := None |}.

(** The library functions above with a json.loads that parses the one
    text [[1, 2]]. *)
Definition json_runtime : Runtime :=
  {| int_of_text := int_of_ascii;
     text_type := fun v => match v with JStr s => Some s | _ => None end;
     re_match := String.prefix;
     json_loads := fun message =>
       if String.eqb message "[1, 2]" then Some (JList [JInt 1; JInt 2]) else None;
     decode_utf8 := Some;
     b64decode := Some;
     sha512 := fun token => token;
     guess_type := fun _ => None;
     tmp_filepath := fun dir n => dir;
     basename := fun path => path |}.

(** The handler after the only chunk of an upload of three bytes, and an
    empty permanent storage. *)
Definition uploaded : Handler :=
  (BaseHandler.process_file_upload (H:=runtime) settings TrueDivision 0
     (upload (fresh_state 5) "abc" "3")).2.

Definition storage : BaseHandler.Storage :=
  {| BaseHandler.files := ∅; BaseHandler.uploaded_path := None |}.

(** A file system with one gzipped report of 10 bytes. *)
Definition filesystem : gmap string (list Byte.byte) :=
  {[ "/files/report.txt.gz" := replicate 10 Byte.x41 ]}.

End Samples.

(** * Properties *)

(** Stepping through a call: unfold the operations of the two monads. *)
Ltac unfold_res := unfold mbind, res_bind, mret, res_ret in *; cbn beta iota in *.
Ltac unfold_M :=
  unfold mbind, M_bind, mret, M_ret, raise, get_self, modify, lift in *; cbn beta iota in *.

(** ** Properties of dict operations *)
Section DictFacts.
Context {A : Type}.
Implicit Types (d : list (string * A)) (k : string).

Lemma dict_get_None d k : dict_get d k = None ↔ k ∉ keys d.
Proof.
  unfold keys. induction d as [|[k' v] d IH]; cbn.
  - split; [intros _; apply not_elem_of_nil|done].
  - case_bool_decide as Hk; subst.
    + split; [done|]. intros Hn. exfalso. apply Hn. apply elem_of_cons. by left.
    + rewrite IH. rewrite not_elem_of_cons. split; [by intros; split|by intros [_ ?]].
Qed.

Lemma dict_get_is_Some d k : is_Some (dict_get d k) ↔ k ∈ keys d.
Proof.
  destruct (dict_get d k) eqn:E.
  - split; [|eauto]. intros _. destruct (decide (k ∈ keys d)) as [|Hn]; [done|].
    apply dict_get_None in Hn. congruence.
  - split; [by intros [? ?]|]. intros Hin. by apply dict_get_None in E.
Qed.

Lemma dict_set_keys d k v v' : dict_get d k = Some v → keys (dict_set d k v') = keys d.
Proof.
  unfold keys. induction d as [|[k0 v0] d IH]; cbn; [done|].
  case_bool_decide; cbn; [done|]. intros Hg. by rewrite IH.
Qed.

Lemma dict_get_set d k k' v : dict_get (dict_set d k v) k' = if bool_decide (k = k') then Some v else dict_get d k'.
Proof.
  induction d as [|[k0 v0] d IH]; cbn; [done|].
  destruct (decide (k0 = k)) as [->|Hne].
  - rewrite bool_decide_eq_true_2 by done. cbn. by case_bool_decide.
  - rewrite (bool_decide_eq_false_2 (k0 = k)) by done. cbn. rewrite IH.
    repeat case_bool_decide; congruence.
Qed.

Lemma dict_get_elem d k v : dict_get d k = Some v → (k, v) ∈ d.
Proof.
  induction d as [|[k0 v0] d IH]; cbn; [done|].
  case_bool_decide; intros; simplify_eq; [apply elem_of_cons; by left|].
  apply elem_of_cons; right; auto.
Qed.

Lemma dict_set_elem d k v kv : kv ∈ dict_set d k v → kv ∈ d ∨ kv = (k, v).
Proof.
  induction d as [|[k0 v0] d IH]; cbn.
  - intros Hin. apply list_elem_of_singleton in Hin. by right.
  - case_bool_decide; subst.
    + intros Hin. apply elem_of_cons in Hin as [->|Hin]; [by right|]. left. apply elem_of_cons; by right.
    + intros Hin. apply elem_of_cons in Hin as [->|Hin]; [left; apply elem_of_cons; by left|].
      destruct (IH Hin); [left; apply elem_of_cons; by right|by right].
Qed.

End DictFacts.

Lemma keys_fmap {A B} (f : A → B) (d : list (string * A)) :
  keys ((λ kv, (kv.1, f kv.2)) <$> d) = keys d.
Proof. unfold keys. rewrite <- list_fmap_compose. done. Qed.

(** ** The two loops of validate_jmessage *)
Section LoopFacts.
Import BaseHandler.
Implicit Types (tmpl : list (string * subtemplate)) (items : list (string * jvalue)).

Lemma filter_ext_in {A} (P Q : A → Prop) `{∀ x, Decision (P x)} `{∀ x, Decision (Q x)}
    (l : list A) :
  (∀ x, x ∈ l → (P x ↔ Q x)) → filter P l = filter Q l.
Proof.
  induction l as [|x l IH]; intros Hext; [done|].
  assert (Hx : P x ↔ Q x) by (apply Hext, elem_of_cons; by left).
  assert (Hl : filter P l = filter Q l).
  { apply IH. intros y Hy. apply Hext, elem_of_cons. by right. }
  destruct (decide (P x)) as [Hp|Hp].
  - rewrite (filter_cons_True P) by done. rewrite (filter_cons_True Q) by tauto. by rewrite Hl.
  - rewrite (filter_cons_False P) by done. rewrite (filter_cons_False Q) by tauto. done.
Qed.

Lemma keys_filter items (P : string → Prop)
    (HP : ∀ kv : string * jvalue, Decision (P kv.1)) (HQ : ∀ k, Decision (P k)) :
  keys (@filter _ _ _ (λ kv, P kv.1) HP items) = @filter _ _ _ P HQ (keys items).
Proof.
  unfold keys. induction items as [|[k v] items IH]; [done|].
  rewrite fmap_cons. cbn [fst].
  destruct (decide (P k)) as [Hp|Hp].
  - rewrite (filter_cons_True P) by done.
    rewrite (filter_cons_True (λ kv : string * jvalue, P kv.1)) by done.
    rewrite fmap_cons. by rewrite IH.
  - rewrite (filter_cons_False P) by done.
    rewrite (filter_cons_False (λ kv : string * jvalue, P kv.1)) by done. done.
Qed.

Lemma strip_keys_filter ks items :
  strip_keys ks items = filter (λ kv, kv.1 ∉ ks) items.
Proof.
  unfold strip_keys. revert items. induction ks as [|k ks IH]; intros items; cbn.
  - induction items as [|kv items IHi]; [done|].
    rewrite filter_cons_True by apply not_elem_of_nil. by rewrite <- IHi.
  - rewrite IH. unfold dict_del. rewrite list_filter_filter.
    apply list_filter_iff. intros kv. rewrite not_elem_of_cons. tauto.
Qed.

(** The first loop keeps the keys of the payload, lists those the template
    lacks and counts the others. *)
Lemma first_loop_ok tmpl items c ks c' ks' items' :
  first_loop tmpl items c ks = Ok (c', ks', items') →
  keys items' = keys items
  ∧ ks' = (ks ++ filter (λ k, k ∉ keys tmpl) (keys items))%list
  ∧ c' = (c + List.length (filter (λ k, k ∈ keys tmpl) (keys items)))%nat.
Proof.
  revert c ks c' ks' items'.
  induction items as [|[k v] items IH]; intros c ks c' ks' items'.
  - cbn. intros [= <- <- <-]. rewrite app_nil_r. split; [done|split; [done|lia]].
  - cbn [first_loop]. unfold keys in *. rewrite fmap_cons. cbn [fst].
    destruct (dict_get tmpl k) as [type|] eqn:Eg.
    + assert (Hin : k ∈ tmpl.*1) by (apply dict_get_is_Some; eauto).
      rewrite (filter_cons_False (λ k, k ∉ tmpl.*1)) by (intros Hn; by apply Hn).
      rewrite (filter_cons_True (λ k, k ∈ tmpl.*1)) by done.
      unfold_res. destruct (sub_validate_type type v) as [[[] v']|e]; [|done|done].
      destruct (first_loop tmpl items (S c) ks) as [[[c1 ks1] items1]|e] eqn:E; [|done].
      intros [= <- <- <-]. destruct (IH _ _ _ _ _ E) as (Hk & -> & ->).
      rewrite fmap_cons, Hk. cbn [fst List.length]. split; [done|split; [done|lia]].
    + assert (Hnin : k ∉ tmpl.*1) by (by apply dict_get_None).
      rewrite (filter_cons_True (λ k, k ∉ tmpl.*1)) by done.
      rewrite (filter_cons_False (λ k, k ∈ tmpl.*1)) by done.
      unfold_res.
      destruct (first_loop tmpl items c (ks ++ [k])) as [[[c1 ks1] items1]|e] eqn:E; [|done].
      intros [= <- <- <-]. destruct (IH _ _ _ _ _ E) as (Hk & -> & ->).
      rewrite fmap_cons, Hk. cbn [fst]. rewrite <- app_assoc. done.
Qed.

(** The second loop keeps the keys of the payload, requires every key of
    the template and counts the keys of the template. *)
Lemma second_loop_ok tmpl jm c c' jm' :
  second_loop tmpl jm c = Ok (c', jm') →
  keys jm' = keys jm
  ∧ c' = (c + List.length tmpl)%nat
  ∧ ∀ k, k ∈ keys tmpl → k ∈ keys jm.
Proof.
  revert jm c. induction tmpl as [|[k type] tmpl IH]; intros jm c; cbn.
  - intros [= <- <-]. split; [done|split; [lia|]]. intros k Hk. by apply elem_of_nil in Hk.
  - destruct (dict_get jm k) as [v|] eqn:Eg; [|done]. unfold_res.
    destruct (sub_validate_type type v) as [[[] v']|e]; [|done|done].
    destruct (if sub_nonempty_container type then sub_validate_jmessage type v' else Ok v')
      as [v''|e]; [|done].
    intros E. destruct (IH _ _ E) as (Hk & -> & Hall).
    rewrite (dict_set_keys _ _ v) in Hk, Hall by done.
    split; [done|split; [lia|]].
    intros k0 Hk0. unfold keys in Hk0. cbn in Hk0. apply elem_of_cons in Hk0 as [->|Hk0].
    + apply dict_get_is_Some. eauto.
    + by apply Hall.
Qed.

(** A payload the dict branch accepts: it is a dict, it comes back as a
    dict, and the keys that come back are those keys of the payload that
    the template has, which are all the keys of the template. *)
Lemma validate_jmessage_dict_ok tmpl v v' :
  validate_jmessage_dict tmpl v = Ok v' →
  ∃ items items', v = JDict items ∧ v' = JDict items'
    ∧ keys items' = filter (λ k, k ∈ keys tmpl) (keys items)
    ∧ ∀ k, k ∈ keys tmpl → k ∈ keys items'.
Proof.
  destruct v as [| | | | | |items]; try done. cbn. unfold_res.
  destruct (first_loop tmpl items 0 []) as [[[c1 ks] items1]|e] eqn:E1; [|done].
  destruct (second_loop tmpl (strip_keys ks items1) c1) as [[c2 jm]|e] eqn:E2; [|done].
  case_bool_decide; [done|]. intros [= <-].
  destruct (first_loop_ok _ _ _ _ _ _ _ E1) as (Hk1 & Hks & _).
  destruct (second_loop_ok _ _ _ _ _ E2) as (Hk2 & _ & Hall).
  rewrite strip_keys_filter in Hk2, Hall.
  assert (Hkf : keys (filter (λ kv : string * jvalue, kv.1 ∉ ks) items1)
                = filter (λ k, k ∉ ks) (keys items1))
    by apply (keys_filter items1 (λ k, k ∉ ks)).
  rewrite Hkf, Hk1 in Hk2, Hall.
  assert (Hf : filter (λ k, k ∉ ks) (keys items) = filter (λ k, k ∈ keys tmpl) (keys items)).
  { apply filter_ext_in. intros k Hk. rewrite Hks. cbn. rewrite list_elem_of_filter.
    destruct (decide (k ∈ keys tmpl)); tauto. }
  rewrite Hf in Hk2, Hall. exists items, jm. rewrite Hk2. done.
Qed.

End LoopFacts.

Section Soundness.
Context `{Runtime}.
Import BaseHandler.
Implicit Types (tmpl : list (string * subtemplate)) (items : list (string * jvalue)).

Lemma wf_value_dict items :
  wf_value (JDict items) = true
  ↔ NoDup (keys items) ∧ Forall (λ kv, wf_value kv.2 = true) items.
Proof.
  cbn. rewrite andb_true_iff, bool_decide_eq_true, forallb_forall, Forall_forall.
  split; intros [? Hall]; (split; [done|]); intros x Hx; apply Hall;
    by apply list_elem_of_In.
Qed.

Lemma wf_value_list (l : list jvalue) :
  wf_value (JList l) = true ↔ Forall (λ v, wf_value v = true) l.
Proof.
  cbn. rewrite forallb_forall, Forall_forall.
  split; intros Hall x Hx; apply Hall; by apply list_elem_of_In.
Qed.

Lemma wf_template_dict (d : list (string * template)) :
  wf_template (TDict d) = true
  ↔ NoDup (keys d) ∧ Forall (λ kt, wf_template kt.2 = true) d.
Proof.
  cbn. rewrite andb_true_iff, bool_decide_eq_true, forallb_forall, Forall_forall.
  split; intros [? Hall]; (split; [done|]); intros x Hx; apply Hall;
    by apply list_elem_of_In.
Qed.

Lemma wf_template_list (l : list template) :
  wf_template (TList l) = true ↔ Forall (λ t, wf_template t = true) l.
Proof.
  cbn. rewrite forallb_forall, Forall_forall.
  split; intros Hall x Hx; apply Hall; by apply list_elem_of_In.
Qed.

(** After the first loop and the deletions the payload has those of its
    keys that the template has. *)
Lemma stripped_keys tmpl items c ks items1 :
  first_loop tmpl items 0 [] = Ok (c, ks, items1) →
  keys (strip_keys ks items1) = filter (λ k, k ∈ keys tmpl) (keys items).
Proof.
  intros E1. destruct (first_loop_ok _ _ _ _ _ _ _ E1) as (Hk1 & Hks & _).
  rewrite strip_keys_filter.
  assert (Hkf : keys (filter (λ kv : string * jvalue, kv.1 ∉ ks) items1)
                = filter (λ k, k ∉ ks) (keys items1))
    by apply (keys_filter items1 (λ k, k ∉ ks)).
  rewrite Hkf, Hk1. apply filter_ext_in. intros k Hk. rewrite Hks. cbn.
  rewrite list_elem_of_filter. destruct (decide (k ∈ keys tmpl)); tauto.
Qed.

(** The count of the two loops on dicts with distinct keys. *)
Lemma success_counts tmpl items c1 ks items1 c2 jm :
  NoDup (keys tmpl) → NoDup (keys items) →
  first_loop tmpl items 0 [] = Ok (c1, ks, items1) →
  second_loop tmpl (strip_keys ks items1) c1 = Ok (c2, jm) →
  c2 = (List.length tmpl * 2)%nat.
Proof.
  intros Ht Hi E1 E2.
  pose proof (stripped_keys _ _ _ _ _ E1) as Hs.
  destruct (first_loop_ok _ _ _ _ _ _ _ E1) as (_ & _ & ->).
  destruct (second_loop_ok _ _ _ _ _ E2) as (_ & -> & Hall).
  rewrite Hs in Hall.
  assert (Hp : filter (λ k, k ∈ keys tmpl) (keys items) ≡ₚ keys tmpl).
  { apply NoDup_Permutation; [by apply NoDup_filter|done|].
    intros k. rewrite list_elem_of_filter. split; [tauto|]. intros Hk.
    split; [done|]. specialize (Hall k Hk). apply list_elem_of_filter in Hall. tauto. }
  apply Permutation_length in Hp. rewrite Hp. unfold keys. rewrite length_fmap. lia.
Qed.

Lemma sound_lookup tmpl k type :
  Forall (λ kt, sound_sub kt.2) tmpl → dict_get tmpl k = Some type → sound_sub type.
Proof.
  intros Hall Hg. apply dict_get_elem in Hg.
  rewrite Forall_forall in Hall. apply (Hall _ Hg).
Qed.

Lemma first_loop_sound tmpl items c ks :
  Forall (λ kt, sound_sub kt.2) tmpl →
  Forall (λ kv, wf_value kv.2 = true) items →
  first_loop tmpl items c ks ≠ Raise counter_failure
  ∧ ∀ c' ks' items', first_loop tmpl items c ks = Ok (c', ks', items') →
      Forall (λ kv, wf_value kv.2 = true) items'.
Proof.
  intros Ht. revert c ks. induction items as [|[k v] items IH]; intros c ks Hi.
  - cbn. split; [done|]. by intros ? ? ? [= <- <- <-].
  - apply Forall_cons in Hi as [Hv Hi]. cbn in Hv. cbn [first_loop].
    destruct (dict_get tmpl k) as [type|] eqn:Eg.
    + destruct (sound_lookup _ _ _ Ht Eg) as [Hty _]. destruct (Hty v Hv) as [Hne Hwf].
      unfold_res. destruct (sub_validate_type type v) as [[[] v']|e] eqn:Ev.
      * destruct (IH (S c) ks Hi) as [IHne IHwf].
        destruct (first_loop tmpl items (S c) ks) as [[[c1 ks1] items1]|e] eqn:E.
        -- split; [done|]. intros ? ? ? [= <- <- <-]. apply Forall_cons. split; [|eauto].
           cbn. eauto.
        -- split; [done|]. done.
      * split; done.
      * split; [|done]. intros [= ->]. by apply Hne.
    + unfold_res. destruct (IH c (ks ++ [k])%list Hi) as [IHne IHwf].
      destruct (first_loop tmpl items c (ks ++ [k])) as [[[c1 ks1] items1]|e] eqn:E.
      * split; [done|]. intros ? ? ? [= <- <- <-]. apply Forall_cons. split; [done|eauto].
      * split; [done|]. done.
Qed.

Lemma dict_set_wf items k v :
  Forall (λ kv, wf_value kv.2 = true) items → wf_value v = true →
  Forall (λ kv, wf_value kv.2 = true) (dict_set items k v).
Proof.
  rewrite !Forall_forall. intros Hall Hv kv Hin.
  apply dict_set_elem in Hin as [Hin| ->]; [by apply Hall|done].
Qed.

Lemma second_loop_sound tmpl jm c :
  Forall (λ kt, sound_sub kt.2) tmpl →
  Forall (λ kv, wf_value kv.2 = true) jm →
  second_loop tmpl jm c ≠ Raise counter_failure
  ∧ ∀ c' jm', second_loop tmpl jm c = Ok (c', jm') →
      Forall (λ kv, wf_value kv.2 = true) jm'.
Proof.
  revert jm c. induction tmpl as [|[k type] tmpl IH]; intros jm c Ht Hj.
  - cbn. split; [done|]. by intros ? ? [= <- <-].
  - apply Forall_cons in Ht as [[Hty Hjm] Ht]. cbn in Hty, Hjm. cbn [second_loop].
    destruct (dict_get jm k) as [v|] eqn:Eg; [|split; done].
    assert (Hv : wf_value v = true).
    { apply dict_get_elem in Eg. rewrite Forall_forall in Hj. apply (Hj _ Eg). }
    destruct (Hty v Hv) as [Hne Hwf]. unfold_res.
    destruct (sub_validate_type type v) as [[[] v']|e] eqn:Ev.
    + specialize (Hwf _ _ eq_refl).
      assert (Hstep : (if sub_nonempty_container type then sub_validate_jmessage type v' else Ok v')
                      ≠ Raise counter_failure
                      ∧ ∀ v'', (if sub_nonempty_container type
                                then sub_validate_jmessage type v' else Ok v') = Ok v'' →
                               wf_value v'' = true).
      { destruct (sub_nonempty_container type).
        - apply (Hjm v' Hwf).
        - split; [done|]. by intros ? [= <-]. }
      destruct Hstep as [Hne2 Hwf2].
      destruct (if sub_nonempty_container type then sub_validate_jmessage type v' else Ok v')
        as [v''|e]; [|split; [congruence|done]].
      apply IH; [done|]. apply dict_set_wf; [done|]. by apply Hwf2.
    + split; done.
    + split; [congruence|done].
Qed.

(** The dict branch on a template with distinct keys whose entries are
    sound. *)
Lemma validate_jmessage_dict_sound tmpl :
  NoDup (keys tmpl) →
  Forall (λ kt, sound_sub kt.2) tmpl →
  sound_jmessage (validate_jmessage_dict tmpl).
Proof.
  intros Hnd Ht v Hv. destruct v as [| | | | | |items]; try (split; done).
  apply wf_value_dict in Hv as [Hndi Hi]. cbn [validate_jmessage_dict]. unfold_res.
  destruct (first_loop_sound tmpl items 0 [] Ht Hi) as [Hne1 Hwf1].
  destruct (first_loop tmpl items 0 []) as [[[c1 ks] items1]|e] eqn:E1;
    [|split; [congruence|done]].
  specialize (Hwf1 _ _ _ eq_refl).
  assert (Hs : Forall (λ kv, wf_value kv.2 = true) (strip_keys ks items1)).
  { rewrite strip_keys_filter. rewrite Forall_forall in Hwf1. apply Forall_forall.
    intros kv Hkv. apply list_elem_of_filter in Hkv as [_ Hkv]. by apply Hwf1. }
  destruct (second_loop_sound tmpl _ c1 Ht Hs) as [Hne2 Hwf2].
  destruct (second_loop tmpl (strip_keys ks items1) c1) as [[c2 jm]|e] eqn:E2;
    [|split; [congruence|done]].
  rewrite bool_decide_eq_false_2.
  - split; [done|]. intros v' [= <-]. apply wf_value_dict. split; [|by eapply Hwf2].
    destruct (second_loop_ok _ _ _ _ _ E2) as (-> & _ & _).
    rewrite (stripped_keys _ _ _ _ _ E1). by apply NoDup_filter.
  - intros Hc. apply Hc. by eapply success_counts.
Qed.

Lemma all_validate_sound (type0 : option (jvalue → res (bool * jvalue))) (l : list jvalue) :
  (∀ f, type0 = Some f → sound_type f) →
  Forall (λ v, wf_value v = true) l →
  all_validate type0 l ≠ Raise counter_failure
  ∧ ∀ b l', all_validate type0 l = Ok (b, l') → Forall (λ v, wf_value v = true) l'.
Proof.
  intros Hty. induction l as [|x l IH]; intros Hl.
  - cbn. split; [done|]. by intros ? ? [= <- <-].
  - apply Forall_cons in Hl as [Hx Hl]. cbn [all_validate].
    destruct type0 as [f|]; [|split; done].
    destruct (Hty f eq_refl x Hx) as [Hne Hwf]. unfold_res.
    destruct (f x) as [[[] x']|e] eqn:Ex.
    + destruct (IH Hl) as [IHne IHwf].
      destruct (all_validate (Some f) l) as [[b l']|e] eqn:El; [|split; [congruence|done]].
      split; [done|]. intros ? ? [= <- <-]. apply Forall_cons. eauto.
    + split; [done|]. intros ? ? [= <- <-]. apply Forall_cons. eauto.
    + split; [congruence|done].
Qed.

Lemma chars_wf (s : string) : Forall (λ v, wf_value v = true) (chars s).
Proof. induction s; cbn; constructor; done. Qed.

Lemma all_validate_iter_sound (type0 : option (jvalue → res (bool * jvalue))) :
  (∀ f, type0 = Some f → sound_type f) →
  sound_type (all_validate_iter type0).
Proof.
  intros Hty v Hv. destruct v as [| | | | s | l | d]; try (split; done); cbn [all_validate_iter].
  - destruct (all_validate_sound type0 (chars s) Hty (chars_wf s)) as [Hne Hwf]. unfold_res.
    destruct (all_validate type0 (chars s)) as [[b l']|e]; [|split; [congruence|done]].
    split; [done|]. by intros ? ? [= <- <-].
  - apply wf_value_list in Hv.
    destruct (all_validate_sound type0 l Hty Hv) as [Hne Hwf]. unfold_res.
    destruct (all_validate type0 l) as [[b l']|e]; [|split; [congruence|done]].
    split; [done|]. intros ? ? [= <- <-]. apply wf_value_list. eauto.
  - assert (Hk : Forall (λ v, wf_value v = true) (JStr <$> keys d)).
    { apply Forall_fmap. by apply Forall_true. }
    destruct (all_validate_sound type0 _ Hty Hk) as [Hne Hwf]. unfold_res.
    destruct (all_validate type0 (JStr <$> keys d)) as [[b l']|e]; [|split; [congruence|done]].
    split; [done|]. by intros ? ? [= <- <-].
Qed.

End Soundness.

Section ValidatorTheorems.
Context `{Runtime}.
Import BaseHandler.

(** Induction on a template that reaches the templates stored in a dict or
    list template. *)
Lemma template_nested_ind (P : template → Prop) :
  (∀ p, P (TCallable p)) →
  (∀ p, P (TRegexp p)) →
  (∀ d, Forall (λ kt, P kt.2) d → P (TDict d)) →
  (∀ l, Forall P l → P (TList l)) →
  ∀ t, P t.
Proof.
  intros Hc Hr Hd Hl. fix IH 1. intros [p|p|d|l].
  - apply Hc.
  - apply Hr.
  - apply Hd. induction d as [|[k t] d IHd]; constructor; [apply IH|apply IHd].
  - apply Hl. induction l as [|t l IHl]; constructor; [apply IH|apply IHl].
Qed.

(** The dict branch as validate_jmessage calls it. *)
Lemma validate_jmessage_TDict (d : list (string * template)) (jmessage : jvalue) :
  validate_jmessage (TDict d) jmessage
  = validate_jmessage_dict ((λ kt, (kt.1, subtemplate_of kt.2)) <$> d) jmessage.
Proof. reflexivity. Qed.

(** validate_type on a dict template is the call of validate_jmessage of
    the source (base.py 209-210). *)
Lemma validate_type_TDict (d : list (string * template)) (value : jvalue) :
  validate_type (TDict d) value
  = match value with
    | JNone => Ok (false, value)
    | _ => value' ← validate_jmessage (TDict d) value; Ok (true, value')
    end.
Proof. by destruct value. Qed.

Lemma head_sound (l : list template) :
  Forall (λ t, wf_template t = true → sound_sub (subtemplate_of t)) l →
  wf_template (TList l) = true →
  ∀ f, match l with [] => None | type0 :: _ => Some (validate_type type0) end = Some f →
       sound_type f.
Proof.
  intros IH Hwf f Hf. destruct l as [|t0 l]; [done|]. injection Hf as <-.
  apply wf_template_list in Hwf. apply Forall_cons in Hwf as [Hw0 _].
  apply Forall_cons in IH as [IH0 _]. by apply IH0.
Qed.

(** On values with distinct keys, validate_type and validate_jmessage
    return values with distinct keys and never raise the counter failure. *)
Lemma validate_sound (t : template) :
  wf_template t = true → sound_sub (subtemplate_of t).
Proof.
  induction t as [p|p|d IH|l IH] using template_nested_ind; intros Hwf.
  - split.
    + intros v Hv. destruct v; cbn; (split; [done|]); by intros ? ? [= <- <-].
    + intros v Hv. split; done.
  - split.
    + intros v Hv. destruct v; cbn; (split; [done|]); by intros ? ? [= <- <-].
    + intros v Hv. split; done.
  - apply wf_template_dict in Hwf as [Hnd Hall].
    assert (Hd : sound_jmessage (validate_jmessage (TDict d))).
    { intros v. rewrite validate_jmessage_TDict. revert v.
      apply validate_jmessage_dict_sound.
      - by rewrite (keys_fmap subtemplate_of d).
      - apply Forall_fmap. rewrite Forall_forall in IH, Hall. apply Forall_forall.
        intros kt Hkt. cbn. apply (IH _ Hkt), (Hall _ Hkt). }
    split; [|done].
    intros v Hv. destruct (Hd v Hv) as [Hne Hwf'].
    cbn [sub_validate_type subtemplate_of]. rewrite validate_type_TDict. unfold_res.
    destruct v; try (split; [done|]; by intros ? ? [= <- <-]);
      (destruct (validate_jmessage (TDict d) _) as [v'|e] eqn:E;
       [split; [done|]; intros ? ? [= <- <-]; by apply Hwf'
       |split; [congruence|done]]).
  - pose proof (all_validate_iter_sound _ (head_sound l IH Hwf)) as Hit.
    split.
    + intros v Hv. destruct (Hit v Hv) as [Hne Hwf'].
      cbn [sub_validate_type subtemplate_of].
      destruct v; cbn [validate_type]; try (split; [done|]; by intros ? ? [= <- <-]);
        (destruct (negb (truthy _)); [split; [done|]; by intros ? ? [= <- <-]|done]).
    + intros v Hv. destruct (Hit v Hv) as [Hne Hwf'].
      cbn [sub_validate_jmessage subtemplate_of validate_jmessage].
      unfold validate_jmessage_list. unfold_res.
      destruct (all_validate_iter _ v) as [[[] v']|e].
      * split; [done|]. intros ? [= <-]. by eapply Hwf'.
      * split; done.
      * split; [congruence|done].
Qed.

(** C8: on dicts with distinct keys, whenever both loops of the dict branch
    run to their end the success counter is twice the number of template
    keys, and no call of validate_jmessage, at any depth, raises the success
    counter double check failure. *)
Theorem success_counter_check_unreachable :
  (∀ (message_template : list (string * subtemplate)) (items items' jmessage : list (string * jvalue))
     (success_check success_check' : nat) (keys_to_strip : list string),
     NoDup (keys message_template) → NoDup (keys items) →
     first_loop message_template items 0 [] = Ok (success_check, keys_to_strip, items') →
     second_loop message_template (strip_keys keys_to_strip items') success_check
     = Ok (success_check', jmessage) →
     success_check' = (List.length message_template * 2)%nat)
  ∧ (∀ (message_template : template) (jmessage : jvalue),
       wf_template message_template = true → wf_value jmessage = true →
       validate_jmessage message_template jmessage
       ≠ Raise (InputValidationError SuccessCounterDoubleCheckFailure)).
Proof.
  split.
  - intros. by eapply success_counts.
  - intros t v Ht Hv. destruct (validate_sound t Ht) as [_ Hj]. by apply (Hj v Hv).
Qed.

(** A payload that validate_jmessage accepts against a dict template comes
    back as a dict whose keys are exactly the keys of the template. *)
Lemma validate_jmessage_key_set (d : list (string * template)) (jmessage jmessage' : jvalue) :
  validate_jmessage (TDict d) jmessage = Ok jmessage' →
  ∃ items', jmessage' = JDict items' ∧ ∀ k, k ∈ keys items' ↔ k ∈ keys d.
Proof.
  rewrite validate_jmessage_TDict. intros E.
  apply validate_jmessage_dict_ok in E as (items & items' & -> & -> & Hk & Hall).
  rewrite (keys_fmap subtemplate_of d) in Hk, Hall.
  exists items'. split; [done|]. intros k. split; [|apply Hall].
  rewrite Hk. intros Hin. apply list_elem_of_filter in Hin. tauto.
Qed.

(** C1 (the code at the failing input): a payload whose value under a key
    with a dict template is not a dict does not raise an
    InputValidationError; the call of [jmessage.items()] on the value raises
    AttributeError. *)
Theorem validate_jmessage_nested_non_dict :
  validate_jmessage (TDict [("a", TDict [("b", TCallable Tint)])]) (JDict [("a", JInt 5)])
  = Raise AttributeError.
Proof. reflexivity. Qed.

End ValidatorTheorems.

(** ** The shape of an accepted payload *)
Section Conformance.
Context `{Runtime}.
Import BaseHandler.

Lemma conforms_TDict (d : list (string * template)) (items : list (string * jvalue)) :
  conforms (TDict d) (JDict items)
  ↔ (∀ k, k ∈ keys items ↔ k ∈ keys d)
    ∧ Forall (λ kt, match dict_get items kt.1 with
                    | Some v' => conforms kt.2 v'
                    | None => True
                    end) d.
Proof.
  cbn [conforms]. apply and_iff_compat_l.
  induction d as [|[k t] d IH]; [split; [by constructor|done]|].
  rewrite Forall_cons. cbn [fst snd]. by rewrite IH.
Qed.

Lemma all_validate_shapes (f : jvalue → res (bool * jvalue)) (Q : jvalue → Prop)
    (l l' : list jvalue) :
  (∀ x x', f x = Ok (true, x') → Q x') →
  all_validate (Some f) l = Ok (true, l') → Forall Q l'.
Proof.
  intros Hf. revert l'. induction l as [|x l IH]; intros l'; cbn [all_validate].
  - intros [= <-]. constructor.
  - unfold_res. destruct (f x) as [[[] x']|e] eqn:Ex; [|done|done].
    destruct (all_validate (Some f) l) as [[b l'']|e]; [|done].
    intros [= -> <-]. constructor; eauto.
Qed.

Lemma second_loop_shapes (d : list (string * template)) (jm jm' : list (string * jvalue))
    (c c' : nat) :
  NoDup (keys d) →
  Forall (λ kt, shapes kt.2) d →
  second_loop ((λ kt, (kt.1, subtemplate_of kt.2)) <$> d) jm c = Ok (c', jm') →
  (∀ k t, (k, t) ∈ d → ∃ v, dict_get jm' k = Some v ∧ conforms t v)
  ∧ (∀ k, k ∉ keys d → dict_get jm' k = dict_get jm k).
Proof.
  revert jm c. induction d as [|[k t] d IH]; intros jm c Hnd Hall.
  - cbn. intros [= <- <-]. split; [|done]. intros k t Hin. by apply elem_of_nil in Hin.
  - unfold keys in Hnd. rewrite fmap_cons in Hnd. apply NoDup_cons in Hnd as [Hk Hnd].
    apply Forall_cons in Hall as [[Hty Hjm] Hall]. cbn [fst snd] in *.
    rewrite fmap_cons. cbn [second_loop fst snd].
    destruct (dict_get jm k) as [v|] eqn:Eg; [|done]. unfold_res.
    cbn [sub_validate_type sub_validate_jmessage sub_nonempty_container subtemplate_of].
    destruct (validate_type t v) as [[[] v1]|e] eqn:E1; [|done|done].
    assert (Hstep : ∀ v2, (if nonempty_container t then validate_jmessage t v1 else Ok v1) = Ok v2 →
                          conforms t v2).
    { intros v2. destruct (nonempty_container t); [apply Hjm|].
      intros [= <-]. by eapply Hty. }
    destruct (if nonempty_container t then validate_jmessage t v1 else Ok v1)
      as [v2|e]; [|done].
    specialize (Hstep v2 eq_refl). intros E.
    destruct (IH _ _ Hnd Hall E) as [Hin Hout]. split.
    + intros k' t' Hkt. apply elem_of_cons in Hkt as [[= -> ->]|Hkt]; [|by apply Hin].
      exists v2. split; [|done]. rewrite (Hout k Hk), dict_get_set.
      by rewrite bool_decide_eq_true_2.
    + intros k' Hk'. unfold keys in Hk'. rewrite fmap_cons in Hk'. cbn [fst] in Hk'.
      apply not_elem_of_cons in Hk' as [Hne Hk']. rewrite (Hout k' Hk'), dict_get_set.
      by rewrite bool_decide_eq_false_2.
Qed.

(** A payload that validate_jmessage accepts has the shape of the template
    at every depth: under every dict template it has exactly the keys of
    that template. *)
Lemma validate_shapes (t : template) : wf_template t = true → shapes t.
Proof.
  induction t as [p|p|d IH|l IH] using template_nested_ind; intros Hwf.
  - split; intros; exact I.
  - split; intros; exact I.
  - apply wf_template_dict in Hwf as [Hnd Hall].
    assert (Hd : ∀ v v', validate_jmessage (TDict d) v = Ok v' → conforms (TDict d) v').
    { intros v v' E.
      destruct (validate_jmessage_key_set d v v' E) as (items' & -> & Hkeys).
      apply conforms_TDict. split; [done|].
      rewrite validate_jmessage_TDict in E.
      destruct v as [| | | | | |items]; try done. cbn [validate_jmessage_dict] in E. unfold_res.
      destruct (first_loop _ items 0 []) as [[[c1 ks] items1]|e]; [|done].
      destruct (second_loop _ (strip_keys ks items1) c1) as [[c2 jm]|e] eqn:E2; [|done].
      case_bool_decide; [done|]. injection E as <-.
      assert (Hs : Forall (λ kt, shapes kt.2) d).
      { rewrite Forall_forall in IH, Hall. apply Forall_forall. intros kt Hkt.
        apply (IH _ Hkt), (Hall _ Hkt). }
      destruct (second_loop_shapes d _ _ _ _ Hnd Hs E2) as [Hin _].
      apply Forall_forall. intros [k t] Hkt. cbn [fst snd].
      destruct (Hin k t Hkt) as (v & -> & Hv). done. }
    split; [|done].
    intros v v'.
    rewrite validate_type_TDict. unfold_res.
    destruct v; try done;
      (destruct (validate_jmessage (TDict d) _) as [v1|e] eqn:E; [|done]);
      intros [= <-]; by eapply Hd.
  - assert (Hit : ∀ v v', all_validate_iter
                     match l with [] => None | type0 :: _ => Some (validate_type type0) end v
                   = Ok (true, v') → conforms (TList l) v').
    { intros v v'. destruct l as [|t0 l]; [by destruct v'|].
      apply Forall_cons in IH as [IH0 _].
      apply wf_template_list in Hwf. apply Forall_cons in Hwf as [Hw0 _].
      destruct (IH0 Hw0) as [Hty _].
      destruct v as [| | | | s | l0 | d0]; cbn [all_validate_iter]; try done; unfold_res.
      - destruct (all_validate _ (chars s)) as [[b l']|e]; [|done]. by intros [= -> <-].
      - destruct (all_validate _ l0) as [[b l']|e] eqn:E; [|done]. intros [= -> <-].
        cbn [conforms]. by eapply all_validate_shapes.
      - destruct (all_validate _ (JStr <$> keys d0)) as [[b l']|e]; [|done]. by intros [= -> <-]. }
    split.
    + intros v v'. destruct v as [| | | | s | l0 | d0]; cbn [validate_type]; try done;
        (destruct (negb (truthy _)) eqn:Et; [|by apply Hit]); intros [= <-];
        try (by destruct l).
      destruct l0; [|done]. destruct l; [done|]. constructor.
    + intros v v'. cbn [validate_jmessage]. unfold validate_jmessage_list. unfold_res.
      destruct (all_validate_iter _ v) as [[[] v1]|e] eqn:E; [|done|done].
      intros [= <-]. by eapply Hit.
Qed.

(** A payload that validate_message returns has the shape of the template
    at every depth. *)
Lemma validate_message_conforms (message : string) (message_template : template)
    (jmessage : jvalue) :
  wf_template message_template = true →
  validate_message message message_template = Ok jmessage →
  conforms message_template jmessage.
Proof.
  intros Hwf. unfold validate_message. destruct (json_loads message) as [v|]; [|done].
  apply (validate_shapes message_template Hwf).
Qed.

End Conformance.

(** ** Properties of the type checks *)
Section ValidationFacts.
Context `{Runtime}.
Import BaseHandler.

(** C4 (amended): against bool, validate_python_type accepts exactly None,
    the literal strings "true" and "false" and the boolean values True and
    False; every other value fails the check. *)
Theorem validate_python_type_bool_exactly (value : jvalue) :
  validate_python_type value Tbool = true
  ↔ value = JNone ∨ value = JStr "true" ∨ value = JStr "false" ∨ ∃ b, value = JBool b.
Proof.
  split.
  - destruct value as [| b | z | f | s | l | d]; cbn; try discriminate; eauto.
    destruct (bool_decide (s = "true")) eqn:Et; cbn.
    { apply bool_decide_eq_true in Et. subst. eauto. }
    destruct (bool_decide (s = "false")) eqn:Ef; cbn; [|discriminate].
    apply bool_decide_eq_true in Ef. subst. eauto.
  - intros [-> | [-> | [-> | [b ->]]]]; reflexivity.
Qed.

(** validate_python_type accepts None against every primitive type. *)
Lemma validate_python_type_None (python_type : python_type) :
  validate_python_type JNone python_type = true.
Proof. reflexivity. Qed.

(** validate_type leaves retval False for None, whatever the template. *)
Lemma validate_type_None (type : template) :
  validate_type type JNone = Ok (false, JNone).
Proof. destruct type; reflexivity. Qed.

Lemma dict_get_subtemplate (d : list (string * template)) (key : string) :
  dict_get ((λ kt, (kt.1, subtemplate_of kt.2)) <$> d) key = subtemplate_of <$> dict_get d key.
Proof.
  induction d as [|[k t] d IH]; [done|]. cbn. by case_bool_decide.
Qed.

(** The first loop does not get past an item that holds None under a key
    of the template. *)
Lemma first_loop_None (d : list (string * template)) (items : list (string * jvalue))
    (key : string) (type : template) (success_check : nat) (keys_to_strip : list string) :
  dict_get d key = Some type →
  (key, JNone) ∈ items →
  ∃ e, first_loop ((λ kt, (kt.1, subtemplate_of kt.2)) <$> d) items success_check keys_to_strip
       = Raise e.
Proof.
  intros Hd. revert success_check keys_to_strip.
  induction items as [|[k v] items IH]; intros c ks Hin; [by apply elem_of_nil in Hin|].
  cbn [first_loop]. rewrite dict_get_subtemplate.
  apply elem_of_cons in Hin as [[= <- <-]|Hin].
  - rewrite Hd. cbn. unfold_res. rewrite validate_type_None. by eexists.
  - destruct (dict_get d k) as [t|]; cbn; unfold_res.
    + destruct (validate_type t v) as [[[] v']|e]; [|by eexists|by eexists].
      destruct (IH (S c) ks Hin) as [e ->]. by eexists.
    + destruct (IH c (ks ++ [k])%list Hin) as [e ->]. by eexists.
Qed.

(** When the items before it pass, the first loop stops at the None. *)
Lemma first_loop_stops_at_None (d : list (string * template))
    (before after : list (string * jvalue)) (key : string) (type : template)
    (success_check : nat) (keys_to_strip : list string) :
  dict_get d key = Some type →
  Forall (λ kv, ∀ t, dict_get d kv.1 = Some t → ∃ v', validate_type t kv.2 = Ok (true, v'))
    before →
  first_loop ((λ kt, (kt.1, subtemplate_of kt.2)) <$> d) (before ++ (key, JNone) :: after)
    success_check keys_to_strip
  = Raise (InputValidationError (KeyTypeValidationFailure key)).
Proof.
  intros Hd Hpass. revert success_check keys_to_strip.
  induction Hpass as [|[k v] before Hkv _ IH]; intros c ks; cbn [app first_loop];
    rewrite dict_get_subtemplate.
  - rewrite Hd. cbn. unfold_res. by rewrite validate_type_None.
  - cbn in Hkv. destruct (dict_get d k) as [t|]; cbn; unfold_res.
    + destruct (Hkv t eq_refl) as [v' ->]. by rewrite IH.
    + by rewrite IH.
Qed.

(** C5 (amended): validate_python_type accepts None against every primitive
    type, but validate_type returns False for None against every template
    kind. A payload that holds None under a key of the template is
    therefore never accepted by validate_jmessage: the call raises, and
    when every item before that one in the payload passes its own check,
    what it raises is the type validation failure naming that key. *)
Theorem None_accepted_by_validate_python_type_only :
  (∀ python_type, validate_python_type JNone python_type = true)
  ∧ (∀ type, validate_type type JNone = Ok (false, JNone))
  ∧ (∀ message_template items key type,
       dict_get message_template key = Some type →
       (key, JNone) ∈ items →
       ∃ e, validate_jmessage (TDict message_template) (JDict items) = Raise e)
  ∧ (∀ message_template before after key type,
       dict_get message_template key = Some type →
       Forall (λ kv, ∀ t, dict_get message_template kv.1 = Some t →
                          ∃ v', validate_type t kv.2 = Ok (true, v')) before →
       validate_jmessage (TDict message_template) (JDict (before ++ (key, JNone) :: after))
       = Raise (InputValidationError (KeyTypeValidationFailure key))).
Proof.
  split; [reflexivity|]. split; [apply validate_type_None|]. split.
  - intros d items key type Hd Hin. rewrite validate_jmessage_TDict.
    cbn [validate_jmessage_dict]. unfold_res.
    destruct (first_loop_None d items key type 0%nat [] Hd Hin) as [e ->]. by eexists.
  - intros d before after key type Hd Hpass. rewrite validate_jmessage_TDict.
    cbn [validate_jmessage_dict]. unfold_res.
    by rewrite (first_loop_stops_at_None d before after key type 0%nat [] Hd Hpass).
Qed.

End ValidationFacts.

(** ** Properties of the identity resolver and the authentication decorator *)
Section AccessFacts.
Context `{Runtime}.
Variable Sessions : gmap string Session.
Variable Settings : SettingsClass.
Import BaseHandler.

(** get_api_session only reads the handler. *)
Lemma get_api_session_reads (self : Handler) :
  (get_api_session Settings self).2 = self.
Proof.
  unfold get_api_session, tenant. unfold_M.
  destruct (args (request self) !! "api-token") as [l|].
  - destruct (first l); cbn; [|reflexivity].
    repeat (case_match; cbn; try reflexivity).
  - destruct (headers (request self) !! "x-api-token");
    repeat (case_match; cbn; try reflexivity).
Qed.

(** basic_auth writes to the request only when it raises. *)
Lemma basic_auth_returns_unchanged (self self' : Handler) (u : unit) :
  basic_auth self = (Ok u, self') → self' = self.
Proof.
  unfold basic_auth, tenant. unfold_M.
  repeat (case_match; cbn in *; simplify_eq; try congruence).
Qed.

(** C2: when the registry holds, under the id carried by the x-session
    header, a session of another tenant than the request's, and the API
    token channel yields no session, get_current_user returns None. *)
Theorem get_current_user_other_tenant (self : Handler) (header session_id : string) (s : Session) :
  headers (request self) !! "x-session" = Some header →
  decode_utf8 header = Some session_id →
  Sessions !! session_id = Some s →
  session_tid s ≠ tid (request self) →
  (get_api_session Settings self).1 = Ok None →
  get_current_user Sessions Settings self = (Ok None, self).
Proof.
  intros Hh Hd Hs Ht Hapi.
  pose proof (get_api_session_reads self) as Hself.
  unfold get_current_user. unfold_M.
  destruct (get_api_session Settings self) as [r self'] eqn:E. cbn in *. subst.
  rewrite Hh, Hd, Hs. rewrite bool_decide_eq_false_2 by done. reflexivity.
Qed.

(** The first step of the wrapper, the basic-auth challenge, when it lets
    the request through: the handler object is as before. *)
Lemma basic_auth_gate_passes (self : Handler) (t : TenantCache.t) :
  (TenantCache.basic_auth t && negb (bypass_basic_auth self) = true → (basic_auth self).1 = Ok ()) →
  (if TenantCache.basic_auth t && negb (bypass_basic_auth self) then basic_auth else mret ()) self
  = (Ok (), self).
Proof.
  intros Hgate. destruct (TenantCache.basic_auth t && negb (bypass_basic_auth self)); [|reflexivity].
  specialize (Hgate eq_refl). destruct (basic_auth self) as [r self'] eqn:E. cbn in Hgate. subst r.
  by rewrite (basic_auth_returns_unchanged _ _ _ E).
Qed.

(** C6 (amended): provided the tenant's basic-auth challenge is disabled,
    bypassed or passed, a wrapper whose allow-list contains '*' runs the
    handler body whatever the identity, and the wrapper for ['admin'] raises
    InvalidAuthentication for a resolved identity whose role is not admin
    and NotAuthenticated when no identity is resolved. *)
Theorem decorator_authentication_role_gate {A} (f : M A) (self : Handler) (t : TenantCache.t) :
  tenant_cache (state self) !! tid (request self) = Some t →
  (TenantCache.basic_auth t && negb (bypass_basic_auth self) = true → (basic_auth self).1 = Ok ()) →
  (∀ roles, "*" ∈ roles → decorator_authentication Sessions Settings f roles self = f self)
  ∧ (∀ u, (current_user Sessions Settings self).1 = Ok (Some u) → user_role u ≠ "admin" →
       (decorator_authentication Sessions Settings f ["admin"] self).1 = Raise InvalidAuthentication)
  ∧ ((current_user Sessions Settings self).1 = Ok None →
       (decorator_authentication Sessions Settings f ["admin"] self).1 = Raise NotAuthenticated).
Proof.
  intros Ht Hgate. apply basic_auth_gate_passes in Hgate.
  assert (Hpre : ∀ roles, decorator_authentication Sessions Settings f roles self
     = (if bool_decide ("*" ∈ roles) then f
        else if bool_decide ("unauthenticated" ∈ roles) then
          u ← current_user Sessions Settings;
          match u with Some _ => raise InvalidAuthentication | None => f end
        else
          u ← current_user Sessions Settings;
          match u with
          | None => raise NotAuthenticated
          | Some u => if bool_decide (user_role u ∈ roles) then f else raise InvalidAuthentication
          end) self).
  { intros roles. unfold decorator_authentication at 1, tenant, getitem.
    unfold mbind at 1 2 3, M_bind, get_self. cbn beta iota. rewrite Ht. cbn beta iota.
    rewrite Hgate. reflexivity. }
  split; [|split].
  - intros roles Hin. rewrite Hpre. by rewrite bool_decide_eq_true_2.
  - intros u Hu Hrole. rewrite Hpre.
    rewrite bool_decide_eq_false_2 by (intros Hin; apply list_elem_of_singleton in Hin; discriminate).
    rewrite bool_decide_eq_false_2 by (intros Hin; apply list_elem_of_singleton in Hin; discriminate).
    unfold mbind, M_bind. destruct (current_user Sessions Settings self) as [r self'].
    cbn in Hu. subst r. rewrite bool_decide_eq_false_2; [reflexivity|].
    intros Hin. by apply list_elem_of_singleton in Hin.
  - intros Hu. rewrite Hpre.
    rewrite bool_decide_eq_false_2 by (intros Hin; apply list_elem_of_singleton in Hin; discriminate).
    rewrite bool_decide_eq_false_2 by (intros Hin; apply list_elem_of_singleton in Hin; discriminate).
    unfold mbind, M_bind. destruct (current_user Sessions Settings self) as [r self'].
    cbn in Hu. subst r. reflexivity.
Qed.

End AccessFacts.

(** ** The upload assembler *)
Section UploadFacts.
Context `{Runtime}.
Variable Settings : SettingsClass.
Variable division : py_division.
Import BaseHandler.






End UploadFacts.

(** ** The size checks of the upload assembler on a run of requests *)
Section UploadRuns.
Import BaseHandler.
#[local] Existing Instance Samples.runtime.









End UploadRuns.

(** ** The execution governor *)
Section GovernorFacts.
Import BaseHandler.

(** C7 (the code at the failing inputs): with a guard of 150 ms, a request
    that took 2.1 s is still delayed by 0.05 s under true division, because
    only the microseconds field of the elapsed time is read; under Python 2
    integer division a request that took 10 ms is not delayed at all. *)
Theorem execution_check_reads_microseconds_field :
  let self := Samples.handler 1 (Samples.tenant_config false 5) ∅ ∅ in
  (∃ d, (execution_check Samples.settings TrueDivision 2100000 self).1 = Ok (Some d)
        ∧ (d == 1 # 20)%Q)
  ∧ (execution_check Samples.settings ClassicDivision 10000 self).1 = Ok None.
Proof.
  split.
  - eexists. split; [vm_compute; reflexivity|]. reflexivity.
  - vm_compute. reflexivity.
Qed.

End GovernorFacts.

(** ** The streaming file producer *)
Section ProducerFacts.
Import FileProducer.
Variable Settings : SettingsClass.

Lemma blocks_nil (b : Z) : 0 < b → blocks 0 b = 0.
Proof. intros Hb. unfold blocks. apply Z.div_small. lia. Qed.

Lemma blocks_step (n : nat) (b : Z) :
  0 < b → (0 < n)%nat → blocks n b = blocks (n - Z.to_nat b) b + 1.
Proof.
  intros Hb Hn. unfold blocks.
  destruct (decide (Z.of_nat n ≤ b)) as [Hle|Hgt].
  - replace (n - Z.to_nat b)%nat with 0%nat by lia.
    rewrite (Z.div_small (Z.of_nat 0 + b - 1)) by lia.
    symmetry. apply Z.div_unique with (r := Z.of_nat n - 1); lia.
  - rewrite Nat2Z.inj_sub by lia. rewrite Z2Nat.id by lia.
    replace (Z.of_nat n + b - 1) with (Z.of_nat n - b + b - 1 + 1 * b) by lia.
    rewrite Z.div_add by lia. reflexivity.
Qed.

(** Once the producer is unregistered the transport stops calling. *)
Lemma drive_unregistered (calls : nat) (w : t * Channel) :
  producer w.2 = false → drive Settings calls w = w.
Proof. intros Hp. destruct calls; cbn; [done|by rewrite Hp]. Qed.

(** The run of the transport from a registered producer on a live
    connection, by induction on the number of calls it may make. *)
Lemma drive_to_exhaustion (calls : nat) :
  0 < file_chunk_size Settings →
  ∀ (self : t) (c : Channel),
    request self = true → producer c = true → connected c = true →
    blocks (List.length (fd self)) (file_chunk_size Settings) + 1 ≤ Z.of_nat calls →
    let w := drive Settings calls (self, c) in
    Z.of_nat (List.length (written w.2))
    = Z.of_nat (List.length (written c)) + blocks (List.length (fd self)) (file_chunk_size Settings)
    ∧ List.concat (written w.2) = (List.concat (written c) ++ fd self)%list
    ∧ finish w.1 = S (finish self)
    ∧ request w.1 = false
    ∧ producer w.2 = false
    ∧ finished w.2 = true.
Proof.
  intros Hb. set (b := file_chunk_size Settings) in *.
  induction calls as [|calls IH]; intros self c Hreq Hprod Hconn Hcalls.
  { pose proof (Z.div_pos (Z.of_nat (List.length (fd self)) + b - 1) b) as Hpos.
    unfold blocks in Hcalls. lia. }
  cbn [drive]. cbn [snd]. rewrite Hprod.
  unfold resumeProducing. rewrite Hreq. fold b.
  unfold read. destruct (b <? 0) eqn:Hneg; [lia|].
  destruct (fd self) as [|x rest] eqn:Hfd.
  - rewrite take_nil, drop_nil. cbn [negb bool_decide decide_rel].
    rewrite bool_decide_eq_true_2 by done. cbn [negb].
    unfold stopProducing. cbn [request].
    unfold unregisterProducer, channel_finish. rewrite Hconn. cbn.
    rewrite drive_unregistered by done. cbn.
    rewrite blocks_nil by done. rewrite app_nil_r. repeat split; lia.
  - assert (Htake : take (Z.to_nat b) (x :: rest) ≠ []).
    { destruct (Z.to_nat b) eqn:Eb; [lia|]. done. }
    rewrite bool_decide_eq_false_2 by done. cbn [negb].
    unfold channel_write. rewrite Hconn.
    match goal with |- context [drive _ _ (?s, ?c')] =>
      specialize (IH s c') end.
    cbn [request fd producer connected written] in IH.
    rewrite (blocks_step (List.length (x :: rest)) b) in Hcalls by (cbn; lia).
    rewrite <- length_drop in Hcalls.
    specialize (IH eq_refl Hprod eq_refl ltac:(lia)).
    destruct IH as (Hw & Hc & Hf & Hr & Hp & Hfin).
    repeat split; try done.
    + rewrite Hw. rewrite length_app.
      rewrite (blocks_step (List.length (x :: rest)) b) by (cbn; lia).
      rewrite <- length_drop. cbn [List.length]. lia.
    + rewrite Hc. rewrite concat_app. cbn [List.concat]. rewrite app_nil_r.
      rewrite <- app_assoc. by rewrite take_drop.
Qed.

(** C9: for a file of n > 0 bytes and a block size b > 0 on a live
    connection, a transport that keeps pulling until the producer
    unregisters makes exactly ceil(n/b) writes on the request, which carry
    the bytes of the file in order, and the callback of the finish Deferred
    is called exactly once. *)
Theorem file_producer_writes_and_finishes_once (data : list Byte.byte) (c : Channel) (calls : nat) :
  0 < file_chunk_size Settings →
  (0 < List.length data)%nat →
  connected c = true →
  written c = [] →
  blocks (List.length data) (file_chunk_size Settings) + 1 ≤ Z.of_nat calls →
  let w := drive Settings calls (start (init data, c)) in
  Z.of_nat (List.length (written w.2)) = blocks (List.length data) (file_chunk_size Settings)
  ∧ List.concat (written w.2) = data
  ∧ finish w.1 = 1%nat
  ∧ request w.1 = false
  ∧ producer w.2 = false
  ∧ finished w.2 = true.
Proof.
  intros Hb Hn Hconn Hw Hcalls.
  pose proof (drive_to_exhaustion calls Hb (init data) (registerProducer c)
                eq_refl eq_refl Hconn Hcalls) as Hrun.
  cbn [init fd finish registerProducer written] in Hrun. rewrite Hw in Hrun.
  cbn [List.length List.concat app] in Hrun. unfold start. cbn [fst snd].
  destruct Hrun as (H1 & H2 & H3 & H4 & H5 & H6). repeat split; done.
Qed.

End ProducerFacts.

(** ** The periodic PGP check *)
Section PGPFacts.
Import PGPCheckSchedule.
Context {desc : Type} `{Job desc}.

Lemma check_receiver_appends (rcvr : Receiver) (acc : list desc) (calls : nat) :
  clock_steady →
  (check_receiver rcvr acc calls).1.2
  = (acc ++ (if has_dated_key rcvr && (pgp_key_expiration (user rcvr) <? datetime_now calls)
            then [admin_serialize_receiver rcvr default_language] else []))%list.
Proof.
  intros Hclock. unfold check_receiver, has_dated_key.
  destruct (negb _ && bool_decide _); cbn; [|by rewrite app_nil_r].
  destruct (pgp_key_expiration (user rcvr) <? datetime_now calls) eqn:E1.
  - by destruct allow_unencrypted.
  - destruct (pgp_key_expiration (user rcvr) <? datetime_now (S calls) - days15) eqn:E2.
    + specialize (Hclock calls). lia.
    + cbn. by rewrite app_nil_r.
Qed.

Lemma check_receivers_elem (rcvrs : list Receiver) (acc : list desc) (calls : nat) (d : desc) :
  clock_steady →
  d ∈ (check_receivers rcvrs acc calls).1.2 →
  d ∈ acc ∨ ∃ rcvr n, rcvr ∈ rcvrs ∧ d = admin_serialize_receiver rcvr default_language
                     ∧ has_dated_key rcvr = true
                     ∧ pgp_key_expiration (user rcvr) < datetime_now n.
Proof.
  intros Hclock. revert acc calls.
  induction rcvrs as [|rcvr rcvrs IH]; intros acc calls; cbn; [by left|].
  pose proof (check_receiver_appends rcvr acc calls Hclock) as Hstep.
  destruct (check_receiver rcvr acc calls) as [[rcvr' acc'] calls'] eqn:E. cbn in Hstep.
  specialize (IH acc' calls').
  destruct (check_receivers rcvrs acc' calls') as [[rcvrs'' acc''] calls''] eqn:E'. cbn in *.
  intros Hd. destruct (IH Hd) as [Hin | (r & n & Hr & ? & ? & ?)].
  - subst acc'. apply elem_of_app in Hin as [Hin | Hin]; [by left|]. right.
    destruct (has_dated_key rcvr && _) eqn:Hb; [|by apply elem_of_nil in Hin].
    apply list_elem_of_singleton in Hin. apply andb_true_iff in Hb as [Hk Hlt].
    exists rcvr, calls. repeat split; [apply elem_of_cons; by left|done|done|lia].
  - right. exists r, n. repeat split; [apply elem_of_cons; by right|done|done|done].
Qed.

(** Without any assumption on the clock, what the loop body appends is the
    serialization of a receiver whose dated key is earlier than a reading
    of the clock: the second test is against a time 15 days before one. *)
Lemma check_receiver_elem_any (rcvr : Receiver) (acc : list desc) (calls : nat) (d : desc) :
  d ∈ (check_receiver rcvr acc calls).1.2 →
  d ∈ acc ∨ (d = admin_serialize_receiver rcvr default_language
             ∧ has_dated_key rcvr = true
             ∧ ∃ n, pgp_key_expiration (user rcvr) < datetime_now n).
Proof.
  unfold check_receiver, has_dated_key.
  destruct (negb _ && bool_decide _); cbn; [|by left].
  destruct (pgp_key_expiration (user rcvr) <? datetime_now calls) eqn:E1.
  - assert (Hin : d ∈ (acc ++ [admin_serialize_receiver rcvr default_language])%list →
            d ∈ acc ∨ (d = admin_serialize_receiver rcvr default_language ∧ true = true
                       ∧ ∃ n, pgp_key_expiration (user rcvr) < datetime_now n)).
    { intros [?|Hs%list_elem_of_singleton]%elem_of_app; [by left|right].
      split; [done|]. split; [done|]. exists calls. lia. }
    by destruct allow_unencrypted.
  - destruct (pgp_key_expiration (user rcvr) <? datetime_now (S calls) - days15) eqn:E2;
      cbn; [|by left].
    intros [?|Hs%list_elem_of_singleton]%elem_of_app; [by left|right].
    split; [done|]. split; [done|]. exists (S calls). unfold days15 in E2. lia.
Qed.

Lemma check_receivers_elem_any (rcvrs : list Receiver) (acc : list desc) (calls : nat)
    (d : desc) :
  d ∈ (check_receivers rcvrs acc calls).1.2 →
  d ∈ acc ∨ ∃ rcvr n, rcvr ∈ rcvrs ∧ d = admin_serialize_receiver rcvr default_language
                     ∧ has_dated_key rcvr = true
                     ∧ pgp_key_expiration (user rcvr) < datetime_now n.
Proof.
  revert acc calls.
  induction rcvrs as [|rcvr rcvrs IH]; intros acc calls; cbn; [by left|].
  pose proof (check_receiver_elem_any rcvr acc calls d) as Hstep.
  destruct (check_receiver rcvr acc calls) as [[rcvr' acc'] calls'] eqn:E. cbn in Hstep.
  specialize (IH acc' calls').
  destruct (check_receivers rcvrs acc' calls') as [[rcvrs'' acc''] calls''] eqn:E'. cbn in *.
  intros Hd. destruct (IH Hd) as [Hin | (r & n & Hr & ? & ? & ?)].
  - destruct (Hstep Hin) as [?|(-> & ? & n & ?)]; [by left|right].
    exists rcvr, n. repeat split; [apply elem_of_cons; by left|done|done].
  - right. exists r, n. repeat split; [apply elem_of_cons; by right|done|done|done].
Qed.

(** Under a steady clock the loop body appends and reads the clock as the
    claim has it. *)
Lemma check_receiver_in_turn (rcvr : Receiver) (acc : list desc) (calls : nat) :
  clock_steady →
  (check_receiver rcvr acc calls).1.2 = (acc ++ expired_in_turn [rcvr] calls)%list
  ∧ (check_receiver rcvr acc calls).2
    = (if has_dated_key rcvr
       then if pgp_key_expiration (user rcvr) <? datetime_now calls
            then S calls else S (S calls)
       else calls).
Proof.
  intros Hclock. unfold check_receiver, has_dated_key. cbn [expired_in_turn].
  unfold has_dated_key.
  destruct (negb _ && bool_decide _); cbn; [|by rewrite app_nil_r].
  destruct (pgp_key_expiration (user rcvr) <? datetime_now calls) eqn:E1.
  - by destruct allow_unencrypted.
  - destruct (pgp_key_expiration (user rcvr) <? datetime_now (S calls) - days15) eqn:E2.
    + specialize (Hclock calls). lia.
    + cbn. by rewrite app_nil_r.
Qed.

Lemma check_receivers_in_turn (rcvrs : list Receiver) (acc : list desc) (calls : nat) :
  clock_steady →
  (check_receivers rcvrs acc calls).1.2 = (acc ++ expired_in_turn rcvrs calls)%list.
Proof.
  intros Hclock. revert acc calls.
  induction rcvrs as [|rcvr rcvrs IH]; intros acc calls; cbn [check_receivers];
    [by rewrite app_nil_r|].
  destruct (check_receiver_in_turn rcvr acc calls Hclock) as [Hacc Hcalls].
  destruct (check_receiver rcvr acc calls) as [[rcvr' acc'] calls']. cbn in Hacc, Hcalls.
  specialize (IH acc' calls').
  destruct (check_receivers rcvrs acc' calls') as [[rcvrs'' acc''] calls'']. cbn in IH |- *.
  rewrite IH, Hacc, Hcalls. cbn [expired_in_turn].
  destruct (has_dated_key rcvr); [|by rewrite app_nil_r].
  destruct (pgp_key_expiration (user rcvr) <? datetime_now calls);
    [by rewrite <- app_assoc|by rewrite app_nil_r].
Qed.

(** C10: whatever the clock, every element of the list pgp_validation_check
    returns is the serialization of a receiver of the store with a public
    key and a non-null expiration that is strictly earlier than a reading
    of the clock, so that the list never holds a receiver whose key has not
    expired. When successive clock readings are at most 15 days apart, as
    the readings of one run are: the loop body appends a receiver with a
    public key and a non-null expiration exactly when the expiration is
    strictly earlier than the current time; the test of the second branch
    is false whenever it is reached; and the list returned is exactly the
    list of the receivers so selected, in the order of the store. *)
Theorem pgp_validation_check_only_expired :
  (∀ store d,
     d ∈ (pgp_validation_check store).1 →
     ∃ rcvr n, rcvr ∈ store ∧ d = admin_serialize_receiver rcvr default_language
               ∧ has_dated_key rcvr = true
               ∧ pgp_key_expiration (user rcvr) < datetime_now n)
  ∧ (clock_steady →
     (∀ rcvr acc calls,
        has_dated_key rcvr = true →
        (check_receiver rcvr acc calls).1.2
        = (acc ++ (if pgp_key_expiration (user rcvr) <? datetime_now calls
                  then [admin_serialize_receiver rcvr default_language] else []))%list)
     ∧ (∀ rcvr calls,
          (pgp_key_expiration (user rcvr) <? datetime_now calls) = false →
          (pgp_key_expiration (user rcvr) <? datetime_now (S calls) - days15) = false)
     ∧ (∀ store, (pgp_validation_check store).1 = expired_in_turn store 0)).
Proof.
  split.
  - intros store d. unfold pgp_validation_check.
    pose proof (check_receivers_elem_any store [] 0%nat d) as Hel.
    destruct (check_receivers store [] 0%nat) as [[rcvrs acc] calls]. cbn in *.
    intros Hd. destruct (Hel Hd) as [Hin | Hex]; [by apply elem_of_nil in Hin|done].
  - intros Hclock. split; [|split].
    + intros rcvr acc calls Hk. rewrite check_receiver_appends by done. by rewrite Hk.
    + intros rcvr calls Hlt. specialize (Hclock calls). lia.
    + intros store. unfold pgp_validation_check.
      pose proof (check_receivers_in_turn store [] 0%nat Hclock) as Hall.
      by destruct (check_receivers store [] 0%nat) as [[rcvrs acc] calls].
Qed.

End PGPFacts.

(** ** The statements above on sample inputs *)
Section Instances.
Import BaseHandler.
#[local] Existing Instance Samples.runtime.

(** C4 (counterexample): the boolean value True is not one of the two
    literal strings, and validate_python_type accepts it against bool. *)
Lemma validate_python_type_bool_accepts_True :
  JBool true ≠ JStr "true" ∧ JBool true ≠ JStr "false"
  ∧ validate_python_type (JBool true) Tbool = true.
Proof. repeat split; discriminate. Qed.

(** C5 (counterexample): validate_type rejects None against the int
    template. *)
Lemma validate_type_rejects_None_for_int :
  validate_type (TCallable Tint) JNone = Ok (false, JNone).
Proof. reflexivity. Qed.

(** C5 (amended) on the template {a: int, b: int} and the payload
    {a: 1, b: None}: the item before the None passes and the failure names
    b. *)
Lemma None_accepted_by_validate_python_type_only_sample :
  validate_jmessage (TDict [("a", TCallable Tint); ("b", TCallable Tint)])
    (JDict [("a", JInt 1); ("b", JNone)])
  = Raise (InputValidationError (KeyTypeValidationFailure "b")).
Proof.
  apply (proj2 (proj2 (proj2 None_accepted_by_validate_python_type_only))
           [("a", TCallable Tint); ("b", TCallable Tint)] [("a", JInt 1)] [] "b"
           (TCallable Tint)).
  - reflexivity.
  - apply List.Forall_cons; [|apply List.Forall_nil].
    intros t Ht. injection Ht as <-. exists (JInt 1). reflexivity.
Defined.

(** C2 on a request of tenant 1 that carries the id of a session of
    tenant 2. *)
Lemma get_current_user_other_tenant_sample :
  get_current_user Samples.sessions Samples.settings
    (Samples.handler 1 (Samples.tenant_config false 5) {[ "x-session" := "s-receiver" ]} ∅)
  = (Ok None,
     Samples.handler 1 (Samples.tenant_config false 5) {[ "x-session" := "s-receiver" ]} ∅).
Proof.
  apply (get_current_user_other_tenant Samples.sessions Samples.settings _
           "s-receiver" "s-receiver" Samples.receiver_session).
  - reflexivity.
  - reflexivity.
  - reflexivity.
  - cbn. lia.
  - reflexivity.
Defined.

(** C6 (counterexample): for a tenant with basic auth enabled and a request
    without an authorization header, the wrapper with allow-list ['*']
    raises and the handler body does not run. *)
Lemma decorator_authentication_star_challenged :
  (decorator_authentication Samples.sessions Samples.settings (mret ()) ["*"]
     (Samples.handler 1 (Samples.tenant_config true 5) ∅ ∅)).1
  = Raise HTTPAuthenticationRequired.
Proof. reflexivity. Qed.

(** C6 (amended) on a tenant without basic auth: an anonymous request and
    a request with the session of a receiver. *)
Lemma decorator_authentication_role_gate_sample :
  let anonymous := Samples.handler 2 (Samples.tenant_config false 5) ∅ ∅ in
  let receiver :=
    Samples.handler 2 (Samples.tenant_config false 5) {[ "x-session" := "s-receiver" ]} ∅ in
  decorator_authentication Samples.sessions Samples.settings (mret ()) ["*"] anonymous
  = (Ok (), anonymous)
  ∧ (decorator_authentication Samples.sessions Samples.settings (mret ()) ["admin"] receiver).1
    = Raise InvalidAuthentication
  ∧ (decorator_authentication Samples.sessions Samples.settings (mret ()) ["admin"] anonymous).1
    = Raise NotAuthenticated.
Proof.
  intros anonymous receiver.
  assert (Hgate : ∀ self : Handler,
            TenantCache.basic_auth (Samples.tenant_config false 5) && negb (bypass_basic_auth self)
            = true → (basic_auth self).1 = Ok ()) by (intros self Hf; discriminate Hf).
  split; [|split].
  - change (Ok (), anonymous) with ((mret () : M unit) anonymous).
    apply (proj1 (decorator_authentication_role_gate Samples.sessions Samples.settings
                    (mret ()) anonymous (Samples.tenant_config false 5) eq_refl (Hgate _))).
    apply list_elem_of_singleton. reflexivity.
  - apply (proj1 (proj2 (decorator_authentication_role_gate Samples.sessions Samples.settings
                    (mret ()) receiver (Samples.tenant_config false 5) eq_refl (Hgate _)))
             Samples.receiver_session).
    + reflexivity.
    + discriminate.
  - apply (proj2 (proj2 (decorator_authentication_role_gate Samples.sessions Samples.settings
                    (mret ()) anonymous (Samples.tenant_config false 5) eq_refl (Hgate _)))).
    reflexivity.
Defined.


(** C8 on the template {"a": int} and the payload {"a": 1, "x": 2}. *)
Lemma success_counter_check_unreachable_sample :
  (2 = 1 * 2)%nat
  ∧ validate_jmessage (TDict [("a", TCallable Tint)]) (JDict [("a", JInt 1); ("x", JInt 2)])
    ≠ Raise (InputValidationError SuccessCounterDoubleCheckFailure).
Proof.
  split.
  - apply (proj1 success_counter_check_unreachable
             [("a", subtemplate_of (TCallable Tint))]
             [("a", JInt 1); ("x", JInt 2)] [("a", JInt 1); ("x", JInt 2)] [("a", JInt 1)]
             1%nat 2%nat ["x"]).
    + apply (bool_decide_unpack _). reflexivity.
    + apply (bool_decide_unpack _). reflexivity.
    + reflexivity.
    + reflexivity.
  - apply (proj2 success_counter_check_unreachable).
    + reflexivity.
    + reflexivity.
Defined.

(** C9 on a file of 10 bytes read in blocks of 4 bytes. *)
Lemma file_producer_writes_and_finishes_once_sample :
  let data := replicate 10 Byte.x41 in
  let c := {| FileProducer.connected := true; FileProducer.producer := false;
              FileProducer.written := []; FileProducer.finished := false |} in
  let w := FileProducer.drive Samples.settings 4
             (FileProducer.start (FileProducer.init data, c)) in
  Z.of_nat (List.length (FileProducer.written w.2)) = 3
  ∧ List.concat (FileProducer.written w.2) = data
  ∧ FileProducer.finish w.1 = 1%nat
  ∧ FileProducer.request w.1 = false
  ∧ FileProducer.producer w.2 = false
  ∧ FileProducer.finished w.2 = true.
Proof.
  intros data c.
  apply (file_producer_writes_and_finishes_once Samples.settings data c 4).
  - reflexivity.
  - unfold data. cbn. apply Nat.lt_0_succ.
  - reflexivity.
  - reflexivity.
  - vm_compute. discriminate.
Defined.

(** C10 on a clock that reads 1000, 1001, 1002, ... and three receivers in
    this order: one whose key expires at 2000, one whose key expired at 500
    and one without a key. The first takes two readings, the second is
    tested against the third reading and is the only one returned. *)
Lemma pgp_validation_check_only_expired_sample :
  let valid := Samples.receiver "r2" "KEY" 2000 in
  let expired := Samples.receiver "r1" "KEY" 500 in
  let keyless := Samples.receiver "r3" "" 0 in
  (PGPCheckSchedule.pgp_validation_check (H:=Samples.ticking_job 1000)
     [valid; expired; keyless]).1 = ["r1"]
  ∧ (PGPCheckSchedule.check_receiver (H:=Samples.ticking_job 1000) expired [] 2).1.2 = ["r1"]
  ∧ (2000 <? 1001 - PGPCheckSchedule.days15) = false
  ∧ ∃ (rcvr : PGPCheckSchedule.Receiver) (n : nat),
      rcvr ∈ [valid; expired; keyless] ∧ "r1" = PGPCheckSchedule.id rcvr
      ∧ PGPCheckSchedule.has_dated_key (H:=Samples.ticking_job 1000) rcvr = true
      ∧ PGPCheckSchedule.pgp_key_expiration (PGPCheckSchedule.user rcvr)
        < 1000 + Z.of_nat n.
Proof.
  intros valid expired keyless.
  assert (Hclock : PGPCheckSchedule.clock_steady (H:=Samples.ticking_job 1000)).
  { intros n. cbn. unfold PGPCheckSchedule.days15. lia. }
  pose proof (pgp_validation_check_only_expired (H:=Samples.ticking_job 1000))
    as [Hsound Hsteady].
  destruct (Hsteady Hclock) as (Hbody & Hdead & Hlist).
  split; [|split; [|split]].
  - apply (Hlist [valid; expired; keyless]).
  - apply (Hbody expired [] 2%nat). reflexivity.
  - apply (Hdead valid 0%nat). reflexivity.
  - apply (Hsound [valid; expired; keyless] "r1").
    rewrite (Hlist [valid; expired; keyless]). apply list_elem_of_singleton. reflexivity.
Defined.

End Instances.

(** * Further properties *)

(** ** The identity resolver *)
Section ResolverFacts.
Context `{Runtime}.
Variable Sessions : gmap string Session.
Variable Settings : SettingsClass.
Import BaseHandler.

(** What get_api_session does once it has read the token. *)
Lemma get_api_session_with_token (self self' : Handler) (token : string) (s : Session) :
  (if bool_decide (tid (request self) ≠ 1)
      || bool_decide (String.length token ≠ api_token_len Settings)
      || bool_decide (api_token_session (state self) = None)
   then mret None
   else
     t ← tenant;
     if bool_decide (TenantCache.admin_api_token_digest t = "") then mret None
     else if bool_decide (sha512 token = TenantCache.admin_api_token_digest t)
          then mret (api_token_session (state self))
          else mret None) self = (Ok (Some s), self') →
  self' = self
  ∧ tid (request self) = 1
  ∧ api_token_session (state self) = Some s
  ∧ ∃ t, tenant_cache (state self) !! 1 = Some t
      ∧ TenantCache.admin_api_token_digest t ≠ ""
      ∧ String.length token = api_token_len Settings
      ∧ sha512 token = TenantCache.admin_api_token_digest t.
Proof.
  destruct (bool_decide (tid (request self) ≠ 1)) eqn:E1; [done|].
  destruct (bool_decide (String.length token ≠ api_token_len Settings)) eqn:E2; [done|].
  destruct (bool_decide (api_token_session (state self) = None)) eqn:E3; [done|].
  apply bool_decide_eq_false in E1, E2, E3.
  assert (Ht : tid (request self) = 1) by (by destruct (decide (tid (request self) = 1))).
  assert (Hl : String.length token = api_token_len Settings)
    by (by destruct (decide (String.length token = api_token_len Settings))).
  cbn [orb]. unfold tenant, getitem. unfold_M. rewrite Ht.
  destruct (tenant_cache (state self) !! 1) as [t|] eqn:Et; [|done].
  destruct (bool_decide (TenantCache.admin_api_token_digest t = "")) eqn:E4; [done|].
  destruct (bool_decide (sha512 token = TenantCache.admin_api_token_digest t)) eqn:E5; [|done].
  apply bool_decide_eq_false in E4. apply bool_decide_eq_true in E5.
  intros [= Hs <-]. repeat split; try done. by exists t.
Qed.

Lemma get_api_session_Some (self self' : Handler) (s : Session) :
  get_api_session Settings self = (Ok (Some s), self') →
  self' = self
  ∧ tid (request self) = 1
  ∧ api_token_session (state self) = Some s
  ∧ ∃ t token, tenant_cache (state self) !! 1 = Some t
      ∧ TenantCache.admin_api_token_digest t ≠ ""
      ∧ String.length token = api_token_len Settings
      ∧ sha512 token = TenantCache.admin_api_token_digest t
      ∧ match args (request self) !! "api-token" with
        | Some l => head l = Some token
        | None => token = default "" (headers (request self) !! "x-api-token")
        end.
Proof.
  unfold get_api_session. unfold mbind at 1 2, M_bind, get_self. cbn beta iota.
  destruct (args (request self) !! "api-token") as [l|] eqn:Ea.
  - unfold lift. destruct l as [|token l]; cbn [first]; [done|].
    intros E. apply get_api_session_with_token in E as (? & ? & ? & t & ? & ? & ? & ?).
    repeat split; try done. by exists t, token.
  - destruct (headers (request self) !! "x-api-token") as [token|] eqn:Eh.
    + unfold mret at 1, M_ret. intros E.
      apply get_api_session_with_token in E as (? & ? & ? & t & ? & ? & ? & ?).
      repeat split; try done. by exists t, token.
    + unfold mret at 1, M_ret. intros E.
      apply get_api_session_with_token in E as (? & ? & ? & t & ? & ? & ? & ?).
      repeat split; try done. by exists t, "".
Qed.

(** X1: an API session is returned only to tenant 1, only when the node has an
    API session and tenant 1 a token digest, and only for a token of the
    configured length whose sha512 is that digest; the token is the first
    api-token argument when the request has that argument, else the
    x-api-token header, else the empty text. The handler is left as it
    was. *)
Theorem get_api_session_sound (self self' : Handler) (s : Session) :
  get_api_session Settings self = (Ok (Some s), self') →
  self' = self
  ∧ tid (request self) = 1
  ∧ api_token_session (state self) = Some s
  ∧ ∃ t token, tenant_cache (state self) !! 1 = Some t
      ∧ TenantCache.admin_api_token_digest t ≠ ""
      ∧ String.length token = api_token_len Settings
      ∧ sha512 token = TenantCache.admin_api_token_digest t
      ∧ match args (request self) !! "api-token" with
        | Some l => head l = Some token
        | None => token = default "" (headers (request self) !! "x-api-token")
        end.
Proof. apply get_api_session_Some. Qed.

(** X2: every identity get_current_user returns is the node's API session,
    returned to tenant 1, or the session registered under the id the
    x-session header carries, and that session is of the request's tenant.
    The handler is left as it was. *)
Theorem get_current_user_sound (self self' : Handler) (s : Session) :
  get_current_user Sessions Settings self = (Ok (Some s), self') →
  self' = self
  ∧ ((tid (request self) = 1 ∧ api_token_session (state self) = Some s)
     ∨ (session_tid s = tid (request self)
        ∧ ∃ header session_id,
            headers (request self) !! "x-session" = Some header
            ∧ decode_utf8 header = Some session_id
            ∧ Sessions !! session_id = Some s)).
Proof.
  unfold get_current_user. unfold mbind at 1, M_bind.
  pose proof (get_api_session_reads Settings self) as Hreads.
  destruct (get_api_session Settings self) as [[[s0|]|e] self0] eqn:Ea; cbn in Hreads; subst self0.
  - unfold mret, M_ret. intros [= -> <-].
    apply get_api_session_Some in Ea as (_ & ? & ? & _). split; [done|]. by left.
  - unfold_M. destruct (headers (request self) !! "x-session") as [header|] eqn:Eh; [|done].
    destruct (decode_utf8 header) as [session_id|] eqn:Ed; [|done].
    destruct (Sessions !! session_id) as [s1|] eqn:Es; [|done].
    case_bool_decide as Ht; [|done]. intros [= -> <-]. split; [done|]. right.
    split; [done|]. by exists header, session_id.
  - done.
Qed.

(** X3: once the current_user property has been read, reading it again gives
    the same identity and does not resolve it anew, even if the registry of
    sessions has changed in between. *)
Theorem current_user_cached (Sessions' : gmap string Session) (self self' : Handler)
    (u : option Session) :
  current_user Sessions Settings self = (Ok u, self') →
  current_user Sessions' Settings self' = (Ok u, self').
Proof.
  unfold current_user. unfold_M.
  destruct (current_user_cache self) as [u0|] eqn:Ec.
  - intros [= <- <-]. by rewrite Ec.
  - destruct (get_current_user Sessions Settings self) as [[u1|e] self1]; [|done].
    intros [= <- <-]. reflexivity.
Qed.

(** What basic_auth does on a request with an authorization header whose
    value splits into two words. *)
Lemma basic_auth_two_words (self : Handler) (value auth_type data : string) :
  headers (request self) !! "authorization" = Some value →
  split_whitespace value = [auth_type; data] →
  basic_auth self
  = match b64decode data with
    | None => (Raise Base64Error, self)
    | Some raw =>
        match decode_utf8 raw with
        | None => (Raise UnicodeDecodeError, self)
        | Some text =>
            match split_colon_once text with
            | (usr, Some pwd) =>
                if bool_decide (auth_type = "Basic") then
                  match tenant_cache (state self) !! tid (request self) with
                  | None => (Raise KeyError, self)
                  | Some t =>
                      if bool_decide (usr = TenantCache.basic_auth_username t)
                         && bool_decide (pwd = TenantCache.basic_auth_password t)
                      then (Ok (), self)
                      else (Raise HTTPAuthenticationRequired,
                            set_request (setHeader "WWW-Authenticate" www_authenticate) self)
                  end
                else (Raise HTTPAuthenticationRequired,
                      set_request (setHeader "WWW-Authenticate" www_authenticate) self)
            | (_, None) => (Raise ValueError, self)
            end
        end
    end.
Proof.
  intros Hh Hs. unfold basic_auth, tenant, getitem. unfold_M. rewrite Hh, Hs.
  destruct (b64decode data) as [raw|]; [|done].
  destruct (decode_utf8 raw) as [text|]; [|done].
  destruct (split_colon_once text) as [usr [pwd|]]; [|done].
  destruct (decide (auth_type = "Basic")) as [->|Hne].
  - rewrite bool_decide_eq_false_2 by (by intros ?). rewrite bool_decide_eq_true_2 by done.
    destruct (tenant_cache (state self) !! tid (request self)) as [t|]; [|done].
    destruct (decide (usr = TenantCache.basic_auth_username t)) as [->|Hu].
    + rewrite (bool_decide_eq_false_2 (_ ≠ _)) by (by intros ?).
      rewrite (bool_decide_eq_true_2 (TenantCache.basic_auth_username t = _)) by done.
      destruct (decide (pwd = TenantCache.basic_auth_password t)) as [->|Hp].
      * rewrite (bool_decide_eq_false_2 (_ ≠ _)) by (by intros ?).
        by rewrite bool_decide_eq_true_2.
      * rewrite (bool_decide_eq_true_2 (pwd ≠ _)) by done.
        by rewrite (bool_decide_eq_false_2 (pwd = _)).
    + rewrite (bool_decide_eq_true_2 (usr ≠ _)) by done.
      by rewrite (bool_decide_eq_false_2 (usr = _)).
  - rewrite bool_decide_eq_true_2 by done. by rewrite bool_decide_eq_false_2.
Qed.

(** X4: basic_auth returns exactly when the authorization header splits into
    the word Basic and a word whose base64 and utf-8 decoding is, up to its
    first colon, the tenant's user name and, after it, the tenant's
    password; the handler is then left as it was. *)
Theorem basic_auth_passes_iff (self self' : Handler) :
  basic_auth self = (Ok (), self')
  ↔ self' = self
    ∧ ∃ value data raw text t,
        headers (request self) !! "authorization" = Some value
        ∧ split_whitespace value = ["Basic"; data]
        ∧ b64decode data = Some raw
        ∧ decode_utf8 raw = Some text
        ∧ tenant_cache (state self) !! tid (request self) = Some t
        ∧ split_colon_once text
          = (TenantCache.basic_auth_username t, Some (TenantCache.basic_auth_password t)).
Proof.
  split.
  - destruct (headers (request self) !! "authorization") as [value|] eqn:Hh.
    + destruct (split_whitespace value) as [|auth_type [|data [|]]] eqn:Hs;
        try (unfold basic_auth; unfold_M; rewrite Hh, Hs; done).
      rewrite (basic_auth_two_words self value auth_type data Hh Hs).
      destruct (b64decode data) as [raw|] eqn:Hb; [|done].
      destruct (decode_utf8 raw) as [text|] eqn:Hd; [|done].
      destruct (split_colon_once text) as [usr [pwd|]] eqn:Hc; [|done].
      case_bool_decide as Ha; [|done]. subst auth_type.
      destruct (tenant_cache (state self) !! tid (request self)) as [t|] eqn:Ht; [|done].
      destruct (bool_decide (usr = _) && bool_decide (pwd = _)) eqn:Hup; [|done].
      apply andb_true_iff in Hup as [Hu Hp].
      apply bool_decide_eq_true in Hu, Hp. subst usr pwd.
      intros [= <-]. split; [done|]. by exists value, data, raw, text, t.
    + unfold basic_auth. unfold_M. by rewrite Hh.
  - intros (-> & value & data & raw & text & t & Hh & Hs & Hb & Hd & Ht & Hc).
    rewrite (basic_auth_two_words self value "Basic" data Hh Hs), Hb, Hd, Hc, Ht.
    by rewrite !bool_decide_eq_true_2.
Qed.

(** X5: whenever basic_auth raises the authentication challenge, the
    response carries the WWW-Authenticate header and nothing else of the
    handler has changed; whenever it raises anything else, the handler is as
    it was. *)
Theorem basic_auth_challenge (self self' : Handler) (e : exn) :
  basic_auth self = (Raise e, self') →
  match e with
  | HTTPAuthenticationRequired =>
      self' = set_request (setHeader "WWW-Authenticate" www_authenticate) self
      ∧ dict_get (response_headers (request self')) "WWW-Authenticate" = Some www_authenticate
  | _ => self' = self
  end.
Proof.
  assert (Hset : ∀ h : Handler,
            dict_get (response_headers (request
              (set_request (setHeader "WWW-Authenticate" www_authenticate) h)))
              "WWW-Authenticate" = Some www_authenticate).
  { intros h. cbn. rewrite dict_get_set. by rewrite bool_decide_eq_true_2. }
  destruct (headers (request self) !! "authorization") as [value|] eqn:Hh.
  - destruct (split_whitespace value) as [|auth_type [|data [|]]] eqn:Hs;
      try (unfold basic_auth; unfold_M; rewrite Hh, Hs; by intros [= <- <-]).
    rewrite (basic_auth_two_words self value auth_type data Hh Hs).
    destruct (b64decode data) as [raw|]; [|by intros [= <- <-]].
    destruct (decode_utf8 raw) as [text|]; [|by intros [= <- <-]].
    destruct (split_colon_once text) as [usr [pwd|]]; [|by intros [= <- <-]].
    destruct (bool_decide (auth_type = "Basic")); [|by intros [= <- <-]].
    destruct (tenant_cache (state self) !! tid (request self)) as [t|];
      [|by intros [= <- <-]].
    destruct (bool_decide (usr = _) && bool_decide (pwd = _)); [done|].
    by intros [= <- <-].
  - unfold basic_auth. unfold_M. rewrite Hh. intros [= <- <-]. by split.
Qed.

(** X6: an authorization header that does not split into exactly two words
    makes basic_auth raise ValueError, which its try block does not catch,
    instead of the authentication challenge; no header is set. *)
Theorem basic_auth_malformed_header (self : Handler) (value : string) :
  headers (request self) !! "authorization" = Some value →
  List.length (split_whitespace value) ≠ 2%nat →
  basic_auth self = (Raise ValueError, self).
Proof.
  intros Hh Hl. unfold basic_auth. unfold_M. rewrite Hh.
  by destruct (split_whitespace value) as [|auth_type [|data [|]]].
Qed.

(** ** The authentication decorator *)

(** The wrapper once the basic-auth challenge has let the request through. *)
Lemma decorator_authentication_after_gate {A} (f : M A) (roles : list string)
    (self : Handler) (t : TenantCache.t) :
  tenant_cache (state self) !! tid (request self) = Some t →
  (TenantCache.basic_auth t && negb (bypass_basic_auth self) = true → (basic_auth self).1 = Ok ()) →
  decorator_authentication Sessions Settings f roles self
  = (if bool_decide ("*" ∈ roles) then f
     else if bool_decide ("unauthenticated" ∈ roles) then
       u ← current_user Sessions Settings;
       match u with Some _ => raise InvalidAuthentication | None => f end
     else
       u ← current_user Sessions Settings;
       match u with
       | None => raise NotAuthenticated
       | Some u => if bool_decide (user_role u ∈ roles) then f else raise InvalidAuthentication
       end) self.
Proof.
  intros Ht Hgate. apply basic_auth_gate_passes in Hgate.
  unfold decorator_authentication at 1, tenant, getitem.
  unfold mbind at 1 2 3, M_bind, get_self. cbn beta iota. rewrite Ht. cbn beta iota.
  rewrite Hgate. reflexivity.
Qed.

(** X7: when the basic-auth challenge applies and raises, the wrapper raises
    the same exception whatever the allow-list, even with '*', and the
    handler body does not run. *)
Theorem decorator_authentication_challenge_first {A} (f : M A) (roles : list string)
    (self self' : Handler) (t : TenantCache.t) (e : exn) :
  tenant_cache (state self) !! tid (request self) = Some t →
  TenantCache.basic_auth t = true →
  bypass_basic_auth self = false →
  basic_auth self = (Raise e, self') →
  decorator_authentication Sessions Settings f roles self = (Raise e, self').
Proof.
  intros Ht Hb Hby He. unfold decorator_authentication, tenant, getitem.
  unfold mbind at 1 2 3, M_bind, get_self. cbn beta iota. rewrite Ht. cbn beta iota.
  rewrite Hb, Hby. cbn [andb negb]. by rewrite He.
Qed.

(** X8: a wrapper whose allow-list has 'unauthenticated' and not '*' runs the
    handler body only for a request without identity and raises
    InvalidAuthentication for every resolved identity, whatever its role and
    whatever else the list holds. *)
Theorem decorator_authentication_unauthenticated {A} (f : M A) (roles : list string)
    (self self' : Handler) (t : TenantCache.t) (u : option Session) :
  tenant_cache (state self) !! tid (request self) = Some t →
  (TenantCache.basic_auth t && negb (bypass_basic_auth self) = true → (basic_auth self).1 = Ok ()) →
  "*" ∉ roles →
  "unauthenticated" ∈ roles →
  current_user Sessions Settings self = (Ok u, self') →
  decorator_authentication Sessions Settings f roles self
  = match u with
    | Some _ => (Raise InvalidAuthentication, self')
    | None => f self'
    end.
Proof.
  intros Ht Hgate Hstar Hun Hu.
  rewrite (decorator_authentication_after_gate f roles self t Ht Hgate).
  rewrite bool_decide_eq_false_2 by done. rewrite bool_decide_eq_true_2 by done.
  unfold mbind, M_bind. rewrite Hu. by destruct u.
Qed.

(** X9: a wrapper whose allow-list has neither '*' nor 'unauthenticated'
    runs the handler body for a resolved identity exactly when its role is
    in the list, on the handler that has the identity cached, and raises
    InvalidAuthentication otherwise. *)
Theorem decorator_authentication_role_in_list {A} (f : M A) (roles : list string)
    (self self' : Handler) (t : TenantCache.t) (u : Session) :
  tenant_cache (state self) !! tid (request self) = Some t →
  (TenantCache.basic_auth t && negb (bypass_basic_auth self) = true → (basic_auth self).1 = Ok ()) →
  "*" ∉ roles →
  "unauthenticated" ∉ roles →
  current_user Sessions Settings self = (Ok (Some u), self') →
  decorator_authentication Sessions Settings f roles self
  = if bool_decide (user_role u ∈ roles) then f self' else (Raise InvalidAuthentication, self').
Proof.
  intros Ht Hgate Hstar Hun Hu.
  rewrite (decorator_authentication_after_gate f roles self t Ht Hgate).
  rewrite !bool_decide_eq_false_2 by done.
  unfold mbind, M_bind. rewrite Hu. by case_bool_decide.
Qed.

End ResolverFacts.

(** ** The upload assembler, further *)
Section UploadFurther.
Context `{Runtime}.
Variable Settings : SettingsClass.
Variable division : py_division.
Import BaseHandler.

Lemma first_head {A} (l : list A) (a : A) : first l = Ok a → head l = Some a.
Proof. destruct l; [done|]. by intros [= ->]. Qed.

(** X10: process_file_upload touches no temporary file but the one of the
    flow the request names. *)
Theorem process_file_upload_other_flows (now : Z) (self : Handler) (flow : string) :
  (∀ l, args (request self) !! "flowIdentifier" ≠ Some (flow :: l)) →
  TempUploadFiles (state (process_file_upload Settings division now self).2) !! flow
  = TempUploadFiles (state self) !! flow.
Proof.
  intros Hflow.
  unfold process_file_upload, arg0, tenant, getitem, write. unfold_M.
  repeat (first [case_bool_decide | case_match]; cbn in *; simplify_eq; try done);
    repeat match goal with
    | Ha : args (request _) !! "flowIdentifier" = Some ?l, Hf : first ?l = Ok ?a |- _ =>
        destruct l as [|? ?]; cbn in Hf; simplify_eq;
        assert (a ≠ flow) by (intros ->; by eapply Hflow); clear Ha
    end;
    cbn; rewrite ?lookup_insert_ne by done; done.
Qed.


(** X12: a request without a flowFilename argument is left alone; when the
    call on a request with one returns, self.uploaded_file describes the
    upload: its size is the total the client declared, not the number of
    bytes stored, its body is the temporary file of the flow, its name the
    flowFilename argument and its type the type guessed from that name or
    application/octet-stream. *)
Theorem process_file_upload_descriptor (now : Z) (self self' : Handler) :
  process_file_upload Settings division now self = (Ok (), self') →
  match args (request self) !! "flowFilename" with
  | None => self' = self
  | Some names =>
      ∃ u total text,
        uploaded_file self' = Some u
        ∧ uf_date u = now
        ∧ head names = Some (uf_name u)
        ∧ (arg0 "flowTotalSize" self).1 = Ok total
        ∧ int_of_text total = Some (uf_size u)
        ∧ (arg0 "flowIdentifier" self).1 = Ok (uf_body u)
        ∧ decode_utf8 (uf_name u) = Some text
        ∧ uf_type u = default "application/octet-stream" (guess_type text)
        ∧ head (default [""] (args (request self) !! "description")) = Some (uf_description u)
  end.
Proof.
  unfold process_file_upload, arg0, tenant, getitem, write. unfold_M.
  destruct (args (request self) !! "flowFilename") as [names|] eqn:En; cbn.
  - repeat (first [case_bool_decide | case_match]; cbn in *; simplify_eq; try done);
      intros [= <-]; cbn;
      repeat match goal with
      | Hf : first ?l = Ok _ |- _ => is_var l; destruct l as [|? ?]; cbn in *; simplify_eq
      end;
      eexists _, _, _; cbn; repeat split; first [done | by apply first_head].
  - by intros [= <-].
Qed.

End UploadFurther.

(** ** Saving an upload to permanent storage *)
Section DiskFacts.
Import BaseHandler.
Variable writable : string → bool.

Lemma string_app_cons (x : ascii) (a b : string) : String x a ++ b = String x (a ++ b).
Proof. reflexivity. Qed.

Lemma string_app_assoc (a b c : string) : (a ++ b) ++ c = a ++ (b ++ c).
Proof. induction a as [|x a IH]; [done|]. rewrite !string_app_cons. by rewrite IH. Qed.

Lemma string_app_empty (a : string) : a ++ "" = a.
Proof. induction a as [|x a IH]; [done|]. rewrite string_app_cons. by rewrite IH. Qed.

Lemma string_take_drop (n : nat) (s : string) : string_take n s ++ string_drop n s = s.
Proof.
  revert s. induction n as [|n IH]; intros [|c r]; try done.
  cbn [string_take string_drop]. rewrite string_app_cons. by rewrite IH.
Qed.

Lemma string_drop_length (n : nat) (s : string) :
  (String.length (string_drop n s) ≤ String.length s)%nat.
Proof.
  revert s. induction n as [|n IH]; intros [|c r]; simpl; try lia.
  specialize (IH r). lia.
Qed.

Lemma string_take_S (n : nat) (c : ascii) (r : string) :
  string_take (S n) (String c r) = String c (string_take n r).
Proof. reflexivity. Qed.

Lemma string_drop_S (n : nat) (c : ascii) (r : string) :
  string_drop (S n) (String c r) = string_drop n r.
Proof. reflexivity. Qed.

(** The loop copies the whole of the temporary file, in order, behind what
    was written before. *)
Lemma copy_blocks_all (rounds : nat) (encrypted_file plaintext_file : string) :
  (String.length encrypted_file < rounds)%nat →
  copy_blocks rounds encrypted_file plaintext_file = plaintext_file ++ encrypted_file.
Proof.
  revert encrypted_file plaintext_file.
  induction rounds as [|rounds IH]; intros rest out Hlen; [lia|].
  cbn [copy_blocks]. destruct rest as [|c r].
  - rewrite bool_decide_eq_true_2 by done. by rewrite string_app_empty.
  - change 4096%nat with (S 4095). generalize 4095%nat. intros n.
    rewrite string_take_S, string_drop_S.
    rewrite bool_decide_eq_false_2 by done.
    rewrite IH.
    + rewrite string_app_assoc. f_equal.
      rewrite string_app_cons. by rewrite string_take_drop.
    + pose proof (string_drop_length n r). cbn [String.length] in Hlen. lia.
Qed.

(** X13: when the handler has an uploaded file whose temporary file is
    registered, the destination is recorded as the path of the upload
    whether or not it can be opened; if it can, the file written there holds
    exactly the bytes stored in the temporary file, of any length, and the
    other files are untouched; if it cannot, IOError is raised and no file
    is written. *)
Theorem write_upload_plaintext_to_disk_copies (destination : string) (self : Handler)
    (storage : Storage) (u : UploadedFile) (body : SecureTemporaryFile) :
  uploaded_file self = Some u →
  TempUploadFiles (state self) !! uf_body u = Some body →
  write_upload_plaintext_to_disk writable destination self storage
  = if writable destination
    then (Ok (), {| files := <[destination := content body]> (files storage);
                    uploaded_path := Some destination |})
    else (Raise IOError, {| files := files storage; uploaded_path := Some destination |}).
Proof.
  intros Hu Hb. unfold write_upload_plaintext_to_disk. rewrite Hu, Hb.
  destruct (writable destination); [|done].
  by rewrite copy_blocks_all by lia.
Qed.

End DiskFacts.

(** ** The delay of the execution governor *)
Section GovernorFurther.
Import BaseHandler.
Context `{Runtime}.
Variable Settings : SettingsClass.

Lemma execution_check_result (division : py_division) (now : Z) (self : Handler) :
  (execution_check Settings division now self).1
  = if uniform_answer_time self then
      let needed_delay :=
        py_div division
          (inject_Z (side_channels_guard Settings)
           - py_div division (inject_Z ((now - start_time (request self)) mod 1000000))
                    (inject_Z 1000))
          (inject_Z 1000) in
      if py_gt needed_delay (inject_Z 0) then Ok (Some needed_delay) else Ok None
    else Ok None.
Proof.
  unfold execution_check. unfold_M. cbn.
  destruct (_ >? _); cbn; destruct (uniform_answer_time self); cbn; try done;
    destruct (py_gt _ _); done.
Qed.

Lemma py_gt_spec (a b : Q) : py_gt a b = true ↔ (b < a)%Q.
Proof.
  unfold py_gt. rewrite negb_true_iff, <- not_true_iff_false, Qle_bool_iff.
  split; [apply Qnot_le_lt|apply Qlt_not_le].
Qed.

Lemma Qdiv_thousand (n : Z) : (inject_Z n / inject_Z 1000 == n # 1000)%Q.
Proof. unfold Qeq, Qdiv, Qmult, Qinv, inject_Z. cbn. lia. Qed.

Lemma Qfloor_thousand (q : Q) (n : Z) :
  (q == inject_Z n)%Q → Qfloor (q / inject_Z 1000) = n / 1000.
Proof.
  intros Hq. rewrite (Qfloor_comp _ (n # 1000)); [done|].
  rewrite Hq. apply Qdiv_thousand.
Qed.

Lemma classic_delay (g us : Z) :
  py_div ClassicDivision
    (inject_Z g - py_div ClassicDivision (inject_Z us) (inject_Z 1000)) (inject_Z 1000)
  = inject_Z ((g - us / 1000) / 1000).
Proof.
  unfold py_div. f_equal. rewrite (Qfloor_thousand (inject_Z us) us) by reflexivity.
  apply Qfloor_thousand. unfold Qminus. by rewrite <- inject_Z_opp, <- inject_Z_plus.
Qed.

Lemma true_delay (g us : Z) :
  (py_div TrueDivision
     (inject_Z g - py_div TrueDivision (inject_Z us) (inject_Z 1000)) (inject_Z 1000)
   == (1000 * g - us) # 1000000)%Q.
Proof.
  unfold py_div, Qeq, Qdiv, Qminus, Qplus, Qopp, Qmult, Qinv, inject_Z. cbn. lia.
Qed.

(** X14: execution_check returns a delay exactly when the handler asks for a
    uniform answer time and, under true division, the microseconds field of
    the elapsed time is below the guard taken in milliseconds; under the
    integer division of Python 2, when the guard exceeds the milliseconds
    of that field by a whole second or more. *)
Theorem execution_check_delays_iff (division : py_division) (now : Z) (self : Handler) :
  let us := (now - start_time (request self)) mod 1000000 in
  (∃ d, (execution_check Settings division now self).1 = Ok (Some d))
  ↔ uniform_answer_time self = true
    ∧ match division with
      | TrueDivision => us < 1000 * side_channels_guard Settings
      | ClassicDivision => 1000 ≤ side_channels_guard Settings - us / 1000
      end.
Proof.
  intros us. rewrite execution_check_result. fold us.
  destruct (uniform_answer_time self); [|split; [by intros [? ?]|by intros [? _]]].
  cbn zeta. destruct (py_gt _ _) eqn:Hgt.
  - split; [intros _; split; [done|]|by eexists].
    apply py_gt_spec in Hgt. destruct division.
    + rewrite classic_delay in Hgt. rewrite <- Zlt_Qlt in Hgt.
      pose proof (Z.div_lt_upper_bound
                    (side_channels_guard Settings - us / 1000) 1000 1 eq_refl).
      lia.
    + rewrite true_delay in Hgt. unfold Qlt, inject_Z in Hgt. cbn in Hgt. lia.
  - split; [by intros [? ?]|]. intros [_ Hd]. exfalso.
    apply not_true_iff_false in Hgt. apply Hgt, py_gt_spec. destruct division.
    + rewrite classic_delay. rewrite <- Zlt_Qlt. apply Z.div_str_pos. lia.
    + rewrite true_delay. unfold Qlt, inject_Z. cbn. lia.
Qed.

(** X15: execution_check never raises; a delay it returns is positive and at
    most the guard taken in seconds, and none is returned by a handler that
    does not ask for a uniform answer time. *)
Theorem execution_check_delay_bounded (division : py_division) (now : Z) (self : Handler) :
  match (execution_check Settings division now self).1 with
  | Ok (Some d) =>
      uniform_answer_time self = true
      ∧ (0 < d)%Q ∧ (d <= side_channels_guard Settings # 1000)%Q
  | Ok None => True
  | Raise _ => False
  end.
Proof.
  rewrite execution_check_result.
  destruct (uniform_answer_time self); [|done]. cbn zeta.
  destruct (py_gt _ _) eqn:Hgt; [|done].
  apply py_gt_spec in Hgt. split; [done|]. split; [done|].
  pose proof (Z.mod_pos_bound (now - start_time (request self)) 1000000 eq_refl) as Hus.
  destruct division.
  - rewrite classic_delay. unfold Qle, inject_Z. cbn.
    pose proof (Z.mul_div_le (side_channels_guard Settings
                  - (now - start_time (request self)) mod 1000000 / 1000) 1000 eq_refl).
    pose proof (Z.div_pos ((now - start_time (request self)) mod 1000000) 1000).
    lia.
  - rewrite true_delay. unfold Qle. cbn. lia.
Qed.

End GovernorFurther.

(** ** The streaming file producer under any run of calls *)
Section ProducerFurther.
Import FileProducer.
Variable Settings : SettingsClass.

Lemma read_split (size : Z) (fd : list Byte.byte) :
  ((read size fd).1 ++ (read size fd).2)%list = fd.
Proof.
  unfold read. destruct (size <? 0); cbn; [by rewrite app_nil_r|by rewrite take_drop].
Qed.

Lemma stopProducing_steady (bytes : list Byte.byte) (w : t * Channel) :
  steady bytes w → steady bytes (stopProducing w).
Proof.
  destruct w as [self c]. intros (Hc & Hb & Hf). cbn in *.
  unfold stopProducing. destruct (request self) eqn:Hr.
  - unfold unregisterProducer, channel_finish. rewrite Hc. unfold steady. cbn.
    repeat split; [done|by rewrite Hf].
  - unfold steady. cbn. by rewrite Hr.
Qed.

Lemma resumeProducing_steady (bytes : list Byte.byte) (w : t * Channel) :
  steady bytes w → steady bytes (resumeProducing Settings w).
Proof.
  destruct w as [self c]. intros (Hc & Hb & Hf). cbn in *.
  unfold resumeProducing. destruct (request self) eqn:Hr;
    [|unfold steady; cbn; by rewrite Hr].
  pose proof (read_split (file_chunk_size Settings) (fd self)) as Hs.
  destruct (read (file_chunk_size Settings) (fd self)) as [data rest]. cbn in Hs.
  case_bool_decide as Hd; cbn [negb].
  - subst data. cbn in Hs. subst rest.
    unfold stopProducing, unregisterProducer, channel_finish, steady in *.
    cbn. rewrite ?Hr, ?Hc. cbn. repeat split; [done|by rewrite Hf].
  - unfold channel_write. rewrite Hc. unfold steady. cbn.
    split; [done|]. split; [|done].
    rewrite concat_app. cbn. rewrite app_nil_r, <- app_assoc. by rewrite Hs.
Qed.

Lemma run_calls_steady (bytes : list Byte.byte) (calls : list call) (w : t * Channel) :
  steady bytes w → steady bytes (run_calls Settings calls w).
Proof.
  unfold run_calls. revert w. induction calls as [|call calls IH]; intros w Hw; [done|].
  cbn [foldl]. apply IH. destruct call; cbn;
    [by apply resumeProducing_steady|by apply stopProducing_steady].
Qed.

(** X16: on a live connection, whatever calls of resumeProducing and
    stopProducing the transport makes and in whatever order, the blocks
    written so far followed by the unread bytes are the bytes of the file,
    so that no byte is lost, repeated or reordered; the callback of the
    finish Deferred has been called once if the producer has let go of the
    request, in which case the request is finished and the producer
    unregistered, and not at all otherwise. *)
Theorem file_producer_any_calls (data : list Byte.byte) (c : Channel) (calls : list call) :
  connected c = true →
  written c = [] →
  let w := run_calls Settings calls (start (init data, c)) in
  (List.concat (written w.2) ++ fd w.1)%list = data
  ∧ (if request w.1 then finish w.1 = 0%nat
     else finish w.1 = 1%nat ∧ finished w.2 = true ∧ producer w.2 = false).
Proof.
  intros Hc Hw.
  assert (Hs : steady data (start (init data, c))).
  { repeat split; cbn; [done|by rewrite Hw]. }
  apply (run_calls_steady data calls) in Hs. destruct Hs as (_ & ? & ?). by split.
Qed.

(** X17: on a request whose connection is gone, so that every call on it
    raises, no run of resumeProducing and stopProducing calls writes a
    block, finishes the request or calls the callback of the finish
    Deferred: the producer swallows every exception and keeps the request. *)
Theorem file_producer_connection_gone (data : list Byte.byte) (c : Channel)
    (calls : list call) :
  connected c = false →
  let w := run_calls Settings calls (start (init data, c)) in
  written w.2 = written c
  ∧ finished w.2 = finished c
  ∧ finish w.1 = 0%nat
  ∧ request w.1 = true.
Proof.
  intros Hc. cbn zeta.
  assert (Hgen : ∀ w : t * Channel,
            connected w.2 = false → finish w.1 = 0%nat → request w.1 = true →
            let w' := run_calls Settings calls w in
            written w'.2 = written w.2 ∧ finished w'.2 = finished w.2
            ∧ finish w'.1 = 0%nat ∧ request w'.1 = true).
  { unfold run_calls. induction calls as [|call calls IH]; intros [self ch] H1 H2 H3; [done|].
    cbn in H1, H2, H3. cbn [foldl].
    assert (Hstop : ∀ s : t, request s = true → stopProducing (s, ch) = (s, ch)).
    { intros s Hs. unfold stopProducing. rewrite Hs. unfold unregisterProducer. by rewrite H1. }
    destruct call; cbn [run_call].
    - unfold resumeProducing. rewrite H3.
      destruct (read (file_chunk_size Settings) (fd self)) as [d rest].
      case_bool_decide; cbn [negb].
      + rewrite Hstop by done.
        match goal with |- context [foldl _ (?s, ch) calls] =>
          exact (IH (s, ch) H1 H2 eq_refl) end.
      + unfold channel_write. rewrite H1.
        match goal with |- context [foldl _ (?s, ch) calls] =>
          exact (IH (s, ch) H1 H2 eq_refl) end.
    - rewrite Hstop by done. exact (IH (self, ch) H1 H2 H3). }
  apply (Hgen (start (init data, c))); done.
Qed.

End ProducerFurther.

(** ** What the periodic PGP check does to the store and which mails follow *)
Section PGPFurther.
Import PGPCheckSchedule.
Context {desc admin : Type} `{Job desc} `{Notification desc admin}.

Lemma check_receiver_downgraded (rcvr : Receiver) (acc : list desc) (calls : nat) :
  downgraded rcvr (check_receiver rcvr acc calls).1.1.
Proof.
  unfold check_receiver, downgraded, has_dated_key.
  destruct (negb _ && bool_decide _); cbn; [|by left].
  destruct (pgp_key_expiration (user rcvr) <? datetime_now calls) eqn:E1.
  - destruct allow_unencrypted; cbn; [|by left].
    right. split; [done|]. split; [done|]. split; [done|]. exists calls. lia.
  - destruct (_ <? _ - _); left; reflexivity.
Qed.

Lemma check_receivers_downgraded (rcvrs : list Receiver) (acc : list desc) (calls : nat) :
  Forall2 downgraded rcvrs (check_receivers rcvrs acc calls).1.1.
Proof.
  revert acc calls. induction rcvrs as [|rcvr rcvrs IH]; intros acc calls; cbn; [constructor|].
  pose proof (check_receiver_downgraded rcvr acc calls) as Hstep.
  destruct (check_receiver rcvr acc calls) as [[rcvr' acc'] calls'].
  specialize (IH acc' calls').
  destruct (check_receivers rcvrs acc' calls') as [[rcvrs'' acc''] calls'']. cbn in *.
  by constructor.
Qed.

(** X18: pgp_validation_check keeps the receivers of the store and their
    order; to each one it does nothing or sets the status of its key to
    disabled, and the latter only on a node that accepts unencrypted mail
    and for a receiver with a public key whose expiration is not the null
    date and is earlier than a reading of the clock. *)
Theorem pgp_validation_check_store (store : list Receiver) :
  Forall2 downgraded store (pgp_validation_check store).2.
Proof.
  unfold pgp_validation_check.
  pose proof (check_receivers_downgraded store [] 0%nat) as Hall.
  by destruct (check_receivers store [] 0%nat) as [[rcvrs acc] calls].
Qed.

Lemma check_receiver_settled (now : Z) (rcvr : Receiver) (acc : list desc) (calls : nat) :
  (has_dated_key rcvr = true →
   ∀ n, (pgp_key_expiration (user rcvr) <? datetime_now n)
        = (pgp_key_expiration (user rcvr) <? now)) →
  (check_receiver rcvr acc calls).1
  = (if allow_unencrypted && expired now rcvr then set_pgp_key_status "disabled" rcvr else rcvr,
     (acc ++ (if expired now rcvr then [admin_serialize_receiver rcvr default_language]
              else []))%list).
Proof.
  intros Hnow. unfold check_receiver, expired, has_dated_key in *.
  destruct (negb _ && bool_decide _); cbn;
    [|by rewrite andb_false_r, app_nil_r].
  specialize (Hnow eq_refl). rewrite (Hnow calls).
  destruct (pgp_key_expiration (user rcvr) <? now) eqn:E1.
  - by destruct allow_unencrypted.
  - rewrite andb_false_r.
    assert ((pgp_key_expiration (user rcvr) <? datetime_now (S calls) - days15) = false)
      as ->.
    { pose proof (Hnow (S calls)) as Hs. rewrite ?E1 in Hs. unfold days15. lia. }
    cbn. by rewrite app_nil_r.
Qed.

Lemma check_receivers_settled (now : Z) (rcvrs : list Receiver) (acc : list desc)
    (calls : nat) :
  (∀ rcvr n, rcvr ∈ rcvrs → has_dated_key rcvr = true →
     (pgp_key_expiration (user rcvr) <? datetime_now n)
     = (pgp_key_expiration (user rcvr) <? now)) →
  (check_receivers rcvrs acc calls).1
  = ((λ rcvr, if allow_unencrypted && expired now rcvr
              then set_pgp_key_status "disabled" rcvr else rcvr) <$> rcvrs,
     (acc ++ ((λ rcvr, admin_serialize_receiver rcvr default_language)
              <$> filter (λ rcvr, expired now rcvr = true) rcvrs))%list).
Proof.
  revert acc calls. induction rcvrs as [|rcvr rcvrs IH]; intros acc calls Hnow; cbn;
    [by rewrite app_nil_r|].
  pose proof (check_receiver_settled now rcvr acc calls
                (λ Hk n, Hnow rcvr n (list_elem_of_here _ _) Hk)) as Hstep.
  destruct (check_receiver rcvr acc calls) as [[rcvr' acc'] calls']. cbn in Hstep.
  specialize (IH acc' calls' (λ r n Hr, Hnow r n (list_elem_of_further _ _ _ Hr))).
  destruct (check_receivers rcvrs acc' calls') as [[rcvrs'' acc''] calls'']. cbn in IH |- *.
  simplify_eq. f_equal.
  destruct (expired now rcvr) eqn:E.
  - rewrite decide_True by done. cbn. by rewrite <- app_assoc.
  - rewrite decide_False by done. by rewrite app_nil_r.
Qed.

Lemma pgp_validation_check_settled (now : Z) (store : list Receiver) :
  (∀ rcvr n, rcvr ∈ store → has_dated_key rcvr = true →
     (pgp_key_expiration (user rcvr) <? datetime_now n)
     = (pgp_key_expiration (user rcvr) <? now)) →
  pgp_validation_check store
  = ((λ rcvr, admin_serialize_receiver rcvr default_language)
     <$> filter (λ rcvr, expired now rcvr = true) store,
     (λ rcvr, if allow_unencrypted && expired now rcvr
              then set_pgp_key_status "disabled" rcvr else rcvr) <$> store).
Proof.
  intros Hnow. unfold pgp_validation_check.
  pose proof (check_receivers_settled now store [] 0%nat Hnow) as Hall.
  destruct (check_receivers store [] 0%nat) as [[rcvrs acc] calls]. cbn in Hall.
  by simplify_eq.
Qed.

(** X19: in a run during which no key goes from not expired to expired, so
    that every reading of the clock compares with the expiration of each
    dated key as the time [now] does, pgp_validation_check returns the
    serializations of exactly the receivers with a public key whose
    expiration is not the null date and is earlier than [now], in the order
    of the store, and the keys of exactly these receivers are set to
    disabled if the node accepts unencrypted mail. *)
Theorem pgp_validation_check_exactly_expired (now : Z) (store : list Receiver) :
  (∀ rcvr n, rcvr ∈ store → has_dated_key rcvr = true →
     (pgp_key_expiration (user rcvr) <? datetime_now n)
     = (pgp_key_expiration (user rcvr) <? now)) →
  pgp_validation_check store
  = ((λ rcvr, admin_serialize_receiver rcvr default_language)
     <$> filter (λ rcvr, expired now rcvr = true) store,
     (λ rcvr, if allow_unencrypted && expired now rcvr
              then set_pgp_key_status "disabled" rcvr else rcvr) <$> store).
Proof.
  apply pgp_validation_check_settled.
Qed.

Lemma length_bind_const {A B} (f : A → list B) (l : list A) (n : nat) :
  (∀ x, List.length (f x) = n) → List.length (l ≫= f) = (List.length l * n)%nat.
Proof.
  intros Hf. induction l as [|x l IH]; [done|].
  cbn. rewrite length_app, Hf, IH. done.
Qed.

(** X20: operation sends no mail when pgp_validation_check returns no
    receiver; otherwise, unless admin mails are disabled, it sends one
    admin alert for each pair of admin users, since send_admin_pgp_alerts
    writes to every admin and is called once for each admin, and, unless
    receiver mails are disabled, one alert for each receiver returned. *)
Theorem operation_mail_count (store : list Receiver) :
  let expired_or_expiring := (pgp_validation_check store).1 in
  List.length (operation store).1
  = if bool_decide (expired_or_expiring = []) then 0%nat
    else ((if disable_admin_notification_emails then 0
           else List.length get_admin_users * List.length get_admin_users)
          + (if disable_receiver_notification_emails then 0
             else List.length expired_or_expiring))%nat.
Proof.
  unfold operation. destruct (pgp_validation_check store) as [exp store']. cbn.
  case_bool_decide; [done|]. cbn. rewrite length_app. f_equal.
  - destruct disable_admin_notification_emails; [done|].
    apply length_bind_const. intros u. unfold send_admin_pgp_alerts. by rewrite length_fmap.
  - destruct disable_receiver_notification_emails; [done|].
    rewrite (length_bind_const _ _ 1%nat); [lia|done].
Qed.

Lemma operation_mail_elem (store : list Receiver) (m : Mail desc) :
  m ∈ (operation store).1 →
  (∃ u, u ∈ get_admin_users ∧ to_address m = admin_mail_address u
        ∧ receiver_info m = None
        ∧ expired_or_expiring_info m = (pgp_validation_check store).1)
  ∨ (∃ d, d ∈ (pgp_validation_check store).1 ∧ receiver_info m = Some d
          ∧ to_address m = receiver_mail_address d ∧ language m = receiver_language d).
Proof.
  unfold operation. destruct (pgp_validation_check store) as [exp store']. cbn.
  case_bool_decide; cbn; [by intros ?%elem_of_nil|].
  intros [Hm|Hm]%elem_of_app.
  - left. destruct disable_admin_notification_emails; [by apply elem_of_nil in Hm|].
    apply list_elem_of_bind in Hm as (a & Hm & _). unfold send_admin_pgp_alerts in Hm.
    apply list_elem_of_fmap in Hm as (u & -> & Hu). by exists u.
  - right. destruct disable_receiver_notification_emails; [by apply elem_of_nil in Hm|].
    apply list_elem_of_bind in Hm as (d & Hm & Hd). unfold send_pgp_alerts in Hm.
    apply list_elem_of_singleton in Hm as ->. by exists d.
Qed.

(** X21: when successive clock readings are at most 15 days apart, every
    mail operation sends is either an admin alert, addressed to an admin
    user and carrying the whole list pgp_validation_check returned, or an
    alert addressed to a receiver of the store whose key has expired, in
    the language of that receiver: no receiver whose key is still valid is
    alerted. *)
Theorem operation_alerts_only_expired (store : list Receiver) (m : Mail desc) :
  clock_steady →
  m ∈ (operation store).1 →
  (∃ u, u ∈ get_admin_users ∧ to_address m = admin_mail_address u
        ∧ receiver_info m = None
        ∧ expired_or_expiring_info m = (pgp_validation_check store).1)
  ∨ (∃ rcvr n, rcvr ∈ store
       ∧ has_dated_key rcvr = true
       ∧ pgp_key_expiration (user rcvr) < datetime_now n
       ∧ receiver_info m = Some (admin_serialize_receiver rcvr default_language)
       ∧ to_address m
         = receiver_mail_address (admin_serialize_receiver rcvr default_language)
       ∧ language m = receiver_language (admin_serialize_receiver rcvr default_language)).
Proof.
  intros Hclock [Hm|(d & Hd & ? & ? & ?)]%operation_mail_elem; [by left|right].
  unfold pgp_validation_check in Hd.
  pose proof (check_receivers_elem store [] 0%nat d Hclock) as Hel.
  destruct (check_receivers store [] 0%nat) as [[rcvrs acc] calls]. cbn in *.
  destruct (Hel Hd) as [Hin | (rcvr & n & ? & -> & ? & ?)]; [by apply elem_of_nil in Hin|].
  by exists rcvr, n.
Qed.

(** X22: when no receiver of the store has a public key with an expiration
    other than the null date that is earlier than a reading of the clock,
    operation sends no mail and leaves the store as it is, whatever the
    notification settings. *)
Theorem operation_quiet (store : list Receiver) :
  (∀ rcvr n, rcvr ∈ store → has_dated_key rcvr = true →
     datetime_now n ≤ pgp_key_expiration (user rcvr)) →
  operation store = ([], store).
Proof.
  intros Hvalid. unfold operation.
  rewrite (pgp_validation_check_settled (datetime_now 0)).
  - assert (Hnone : ∀ rcvr, rcvr ∈ store → expired (datetime_now 0) rcvr = false).
    { intros rcvr Hr. unfold expired. destruct (has_dated_key rcvr) eqn:Hk; [|done].
      cbn. specialize (Hvalid rcvr 0%nat Hr Hk). lia. }
    assert (Hf : filter (λ rcvr, expired (datetime_now 0) rcvr = true) store = []).
    { apply elem_of_nil_inv. intros rcvr [Hp Hr]%list_elem_of_filter.
      by rewrite Hnone in Hp. }
    rewrite Hf. cbn. f_equal. rewrite <- (list_fmap_id store) at 2.
    apply Forall_fmap_ext, Forall_forall. intros rcvr Hr. rewrite Hnone by done.
    by rewrite andb_false_r.
  - intros rcvr n Hr Hk.
    pose proof (Hvalid rcvr n Hr Hk). pose proof (Hvalid rcvr 0%nat Hr Hk). lia.
Qed.

End PGPFurther.

(** ** Payloads under a template of primitive types *)
Section FlatTemplates.
Context `{Runtime}.
Import BaseHandler.
Implicit Types (tmpl : list (string * subtemplate)) (items : list (string * jvalue)).

Lemma primitive_verdict (t : template) (v : jvalue) :
  primitive t = true →
  nonempty_container t = false ∧ validate_type t v = Ok (accepts t v, v).
Proof.
  unfold accepts. destruct t as [p|p|d|l]; try done; intros _; (split; [done|]);
    destruct v; cbn; try done; by destruct (_ : bool).
Qed.

Lemma flat_lookup (d : list (string * template)) (k : string) (t : template) :
  flat d = true → dict_get d k = Some t → primitive t = true.
Proof.
  intros Hflat Hg. unfold flat in Hflat. rewrite forallb_forall in Hflat.
  apply (Hflat (k, t)). apply list_elem_of_In. by apply dict_get_elem.
Qed.

Lemma dict_set_same {A} (d : list (string * A)) (k : string) (v : A) :
  dict_get d k = Some v → dict_set d k v = d.
Proof.
  induction d as [|[k0 v0] d IH]; [done|]. cbn. case_bool_decide.
  - by intros [= ->]; subst.
  - intros Hg. by rewrite IH.
Qed.

Lemma elem_dict_get {A} (d : list (string * A)) (k : string) (v : A) :
  NoDup (keys d) → (k, v) ∈ d → dict_get d k = Some v.
Proof.
  induction d as [|[k0 v0] d IH]; [by intros _ ?%elem_of_nil|].
  unfold keys. cbn. intros [Hk0 Hnd]%NoDup_cons [Heq|Hin]%elem_of_cons.
  - simplify_eq. by rewrite bool_decide_true.
  - rewrite bool_decide_false; [by apply IH|].
    intros ->. apply Hk0. apply list_elem_of_fmap. by exists (k, v).
Qed.

Lemma find_ext_in {A} (f g : A → bool) (l : list A) :
  (∀ x, x ∈ l → f x = g x) → List.find f l = List.find g l.
Proof.
  induction l as [|x l IH]; [done|]. intros Hfg. cbn.
  rewrite (Hfg x) by (apply elem_of_cons; by left).
  destruct (g x); [done|]. apply IH. intros y Hy. apply Hfg, elem_of_cons. by right.
Qed.

Lemma find_none_all {A} (f : A → bool) (l : list A) (x : A) :
  List.find f l = None → x ∈ l → f x = false.
Proof.
  induction l as [|y l IH]; [by intros _ ?%elem_of_nil|]. cbn.
  destruct (f y) eqn:Ey; [done|]. intros Hn [->|Hin]%elem_of_cons; [done|by apply IH].
Qed.

(** Under a flat template the first loop stops at the first refused item
    and otherwise leaves the items as they are. *)
Lemma first_loop_flat (d : list (string * template)) (items : list (string * jvalue))
    (c : nat) (ks : list string) :
  flat d = true →
  match List.find (refused d) items with
  | Some kv =>
      first_loop ((λ kt, (kt.1, subtemplate_of kt.2)) <$> d) items c ks
      = Raise (InputValidationError (KeyTypeValidationFailure kv.1))
  | None =>
      ∃ c' ks', first_loop ((λ kt, (kt.1, subtemplate_of kt.2)) <$> d) items c ks
                = Ok (c', ks', items)
  end.
Proof.
  intros Hflat. revert c ks. induction items as [|[k v] items IH]; intros c ks.
  - cbn. by eexists _, _.
  - cbn [List.find first_loop]. unfold refused at 1. cbn [fst snd].
    rewrite dict_get_subtemplate. destruct (dict_get d k) as [t|] eqn:Eg; cbn; unfold_res.
    + destruct (primitive_verdict t v (flat_lookup d k t Hflat Eg)) as [_ ->].
      destruct (accepts t v); cbn; [|done].
      specialize (IH (S c) ks). destruct (List.find (refused d) items) as [kv|].
      * by rewrite IH.
      * destruct IH as (c' & ks' & ->). by eexists _, _.
    + specialize (IH c (ks ++ [k])%list). destruct (List.find (refused d) items) as [kv|].
      * by rewrite IH.
      * destruct IH as (c' & ks' & ->). by eexists _, _.
Qed.

(** Under a flat template, on a payload whose values under the keys of
    the template are accepted, the second loop stops at the first key that
    is missing and otherwise leaves the payload as it is. *)
Lemma second_loop_flat (d : list (string * template)) (jm : list (string * jvalue))
    (c : nat) :
  Forall (λ kt, primitive kt.2 = true) d →
  (∀ k t v, (k, t) ∈ d → dict_get jm k = Some v → accepts t v = true) →
  second_loop ((λ kt, (kt.1, subtemplate_of kt.2)) <$> d) jm c
  = match List.find (λ kt, negb (bool_decide (kt.1 ∈ keys jm))) d with
    | Some kt => Raise (InputValidationError (MissingKey kt.1))
    | None => Ok ((c + List.length d)%nat, jm)
    end.
Proof.
  revert c. induction d as [|[k t] d IH]; intros c Hprim Hval.
  - cbn. by rewrite Nat.add_0_r.
  - apply Forall_cons in Hprim as [Ht Hprim]. cbn in Ht.
    cbn [fmap list_fmap second_loop List.find fst snd].
    destruct (dict_get jm k) as [v|] eqn:Eg.
    + assert (Hin : k ∈ keys jm) by (apply dict_get_is_Some; eauto).
      rewrite bool_decide_true by done. cbn [negb]. unfold_res. cbn [sub_validate_type
        sub_nonempty_container sub_validate_jmessage subtemplate_of].
      destruct (primitive_verdict t v Ht) as [-> ->].
      rewrite (Hval k t v) by (done || apply elem_of_cons; by left).
      rewrite dict_set_same by done. fold (@fmap list _ _ _ (λ kt : string * template,
        (kt.1, subtemplate_of kt.2)) d).
      rewrite (IH (S c) Hprim).
      * destruct (List.find _ d); [done|]. cbn [List.length]. do 2 f_equal. lia.
      * intros k0 t0 v0 Hin0. apply Hval. apply elem_of_cons. by right.
    + assert (Hnin : k ∉ keys jm) by (by apply dict_get_None).
      by rewrite bool_decide_false by done.
Qed.

(** X23: under a dict template with distinct keys all of whose values are
    primitive classes or regular expressions, on a dict payload with
    distinct keys, validate_jmessage does exactly this: if some item of the
    payload has a key of the template and a value that validate_type
    refuses, it raises the type validation failure naming the key of the
    first such item; otherwise, if the payload lacks a key of the template,
    it raises the missing key failure naming the first such key; otherwise
    it returns the payload without the items whose key the template lacks,
    the other items unchanged and in their order. *)
Theorem validate_jmessage_flat (d : list (string * template)) (items : list (string * jvalue)) :
  NoDup (keys d) → NoDup (keys items) → flat d = true →
  validate_jmessage (TDict d) (JDict items) = flat_outcome d items.
Proof.
  intros Hd Hitems Hflat. rewrite validate_jmessage_TDict. unfold flat_outcome.
  set (tmpl := (λ kt, (kt.1, subtemplate_of kt.2)) <$> d).
  assert (Hkeys : keys tmpl = keys d) by apply keys_fmap.
  cbn [validate_jmessage_dict]. unfold_res.
  pose proof (first_loop_flat d items 0%nat [] Hflat) as H1. fold tmpl in H1.
  destruct (List.find (refused d) items) as [kv|] eqn:Efind; [by rewrite H1|].
  destruct H1 as (c1 & ks & E1). rewrite E1.
  destruct (first_loop_ok _ _ _ _ _ _ _ E1) as (_ & Hks & _). cbn in Hks.
  assert (Hjm : strip_keys ks items = filter (λ kv, kv.1 ∈ keys d) items).
  { rewrite strip_keys_filter. apply filter_ext_in. intros kv Hkv. rewrite Hks.
    rewrite list_elem_of_filter, Hkeys.
    assert (kv.1 ∈ keys items) by (apply list_elem_of_fmap; by exists kv).
    destruct (decide (kv.1 ∈ keys d)); tauto. }
  assert (Hprim : Forall (λ kt : string * template, primitive kt.2 = true) d).
  { apply Forall_forall. intros [k t] Hin. unfold flat in Hflat.
    rewrite forallb_forall in Hflat. apply (Hflat (k, t)). by apply list_elem_of_In. }
  assert (Hval : ∀ k t v, (k, t) ∈ d → dict_get (strip_keys ks items) k = Some v →
                          accepts t v = true).
  { intros k t v Hin Hg. apply dict_get_elem in Hg. rewrite Hjm in Hg.
    apply list_elem_of_filter in Hg as [_ Hg].
    pose proof (find_none_all _ _ (k, v) Efind Hg) as Hr. unfold refused in Hr. cbn in Hr.
    rewrite (elem_dict_get d k t Hd Hin) in Hr. by apply negb_false_iff in Hr. }
  pose proof (second_loop_flat d (strip_keys ks items) c1 Hprim Hval) as H2. fold tmpl in H2.
  assert (Hfind : List.find (λ kt : string * template,
                               negb (bool_decide (kt.1 ∈ keys (strip_keys ks items)))) d
                  = List.find (λ kt, negb (bool_decide (kt.1 ∈ keys items))) d).
  { apply find_ext_in. intros [k t] Hin. cbn. f_equal. apply bool_decide_ext.
    rewrite Hjm. unfold keys. rewrite !list_elem_of_fmap. split.
    - intros (kv & -> & [_ ?]%list_elem_of_filter). by exists kv.
    - intros (kv & -> & ?). exists kv. split; [done|]. apply list_elem_of_filter.
      split; [|done]. cbn. apply list_elem_of_fmap. by exists (kv.1, t). }
  rewrite Hfind in H2.
  destruct (List.find (λ kt, negb (bool_decide (kt.1 ∈ keys items))) d) as [kt|];
    rewrite H2; [done|].
  pose proof (success_counts tmpl items c1 ks items (c1 + List.length d)%nat
                (strip_keys ks items)) as Hcount.
  rewrite Hkeys in Hcount. specialize (Hcount Hd Hitems E1 H2).
  rewrite bool_decide_false by (intros Hn; by apply Hn).
  by rewrite Hjm.
Qed.

(** X24: a payload that validate_jmessage accepts under a dict template, of
    any depth, is a dict that has every key of the template; what comes
    back is a dict whose keys are the keys of the payload that the template
    has, in the order of the payload. *)
Theorem validate_jmessage_payload_order (d : list (string * template))
    (jmessage jmessage' : jvalue) :
  validate_jmessage (TDict d) jmessage = Ok jmessage' →
  ∃ items items',
    jmessage = JDict items ∧ jmessage' = JDict items'
    ∧ keys items' = filter (λ k, k ∈ keys d) (keys items)
    ∧ ∀ k, k ∈ keys d → k ∈ keys items.
Proof.
  rewrite validate_jmessage_TDict. intros Hok.
  destruct (validate_jmessage_dict_ok _ _ _ Hok) as (items & items' & -> & -> & Hk & Hall).
  rewrite keys_fmap in Hk, Hall. exists items, items'.
  split; [done|]. split; [done|]. split; [done|].
  intros k Hin. specialize (Hall k Hin). rewrite Hk in Hall.
  by apply list_elem_of_filter in Hall as [_ ?].
Qed.

(** X25: validate_message accepts only a message that json.loads parses,
    and under a template whose dicts have distinct keys the payload it
    returns has the shape of the template at every depth: each dict under
    a dict template has exactly the keys of the template, and each element
    of a list under a list template has the shape of element 0 of the
    template. *)
Theorem validate_message_shape (message : string) (message_template : template)
    (jmessage : jvalue) :
  wf_template message_template = true →
  validate_message message message_template = Ok jmessage →
  (∃ parsed, json_loads message = Some parsed)
  ∧ conforms message_template jmessage.
Proof.
  intros Hwf Hok. split; [|by eapply validate_message_conforms].
  unfold validate_message in Hok. destruct (json_loads message); [by eexists|done].
Qed.

End FlatTemplates.

(** ** Downloads: the headers set and the bytes delivered *)
Section DownloadFacts.
Context `{Runtime}.
Variable filesystem : gmap string (list Byte.byte).
Variable Settings : SettingsClass.
Import Download.

Lemma started_producer_drained (data : list Byte.byte) (c : FileProducer.Channel)
    (calls : nat) :
  0 < file_chunk_size Settings →
  FileProducer.connected c = true →
  FileProducer.written c = [] →
  FileProducer.blocks (List.length data) (file_chunk_size Settings) + 1 ≤ Z.of_nat calls →
  let w := FileProducer.drive Settings calls
             (FileProducer.start (FileProducer.init data, c)) in
  List.concat (FileProducer.written w.2) = data
  ∧ FileProducer.finish w.1 = 1%nat
  ∧ FileProducer.producer w.2 = false
  ∧ FileProducer.finished w.2 = true.
Proof.
  intros Hb Hconn Hw Hcalls.
  pose proof (drive_to_exhaustion Settings calls Hb (FileProducer.init data)
                (FileProducer.registerProducer c) eq_refl eq_refl Hconn Hcalls) as Hrun.
  cbn [FileProducer.init FileProducer.fd FileProducer.finish FileProducer.registerProducer
       FileProducer.written] in Hrun.
  rewrite Hw in Hrun.
  cbn [List.length List.concat app] in Hrun. unfold FileProducer.start. cbn [fst snd].
  destruct Hrun as (_ & H2 & H3 & _ & H5 & H6). done.
Qed.

(** X26: write_file on a path that is a regular file leaves the state of
    the handler alone, sets the Content-encoding header to gzip exactly
    when the file name ends in .gz, and starts a producer that, once the
    transport has pulled until it unregisters, has written exactly the
    bytes of the file, finished the request and fired its Deferred once. *)
Theorem write_file_streams (filename filepath : string) (data : list Byte.byte)
    (c : FileProducer.Channel) (self : Handler) (calls : nat) :
  filesystem !! filepath = Some data →
  0 < file_chunk_size Settings →
  FileProducer.connected c = true →
  FileProducer.written c = [] →
  FileProducer.blocks (List.length data) (file_chunk_size Settings) + 1 ≤ Z.of_nat calls →
  ∃ self' w,
    write_file filesystem filename filepath c self = Some (self', w)
    ∧ state self' = state self
    ∧ dict_get (response_headers (request self')) "Content-encoding"
      = (if endswith filename ".gz" then Some "gzip"
         else dict_get (response_headers (request self)) "Content-encoding")
    ∧ let w' := FileProducer.drive Settings calls w in
      List.concat (FileProducer.written w'.2) = data
      ∧ FileProducer.finish w'.1 = 1%nat
      ∧ FileProducer.producer w'.2 = false
      ∧ FileProducer.finished w'.2 = true.
Proof.
  intros Hfile Hb Hconn Hw Hcalls. unfold write_file. rewrite Hfile.
  pose proof (started_producer_drained data c calls Hb Hconn Hw Hcalls) as Hrun.
  destruct (endswith filename ".gz"); cbn [fst snd].
  - destruct (guess_type _) as [m|]; [case_bool_decide|];
      (eexists _, _; split; [reflexivity|]; split; [done|]; split; [|exact Hrun]); cbn;
      rewrite ?dict_get_set; done.
  - destruct (guess_type _) as [m|]; [case_bool_decide|];
      (eexists _, _; split; [reflexivity|]; split; [done|]; split; [|exact Hrun]); cbn;
      rewrite ?dict_get_set; done.
Qed.

(** X27: force_file_download on a path that is a regular file leaves the
    state of the handler alone, sets the Content-Type header to
    application/octet-stream whatever the file name and whatever the header
    was before, X-Download-Options to noopen and Content-Disposition to an
    attachment of the given name, and starts a producer that, once the
    transport has pulled until it unregisters, has written exactly the
    bytes of the file, finished the request and fired its Deferred once. *)
Theorem force_file_download_streams (filename filepath : string) (data : list Byte.byte)
    (c : FileProducer.Channel) (self : Handler) (calls : nat) :
  filesystem !! filepath = Some data →
  0 < file_chunk_size Settings →
  FileProducer.connected c = true →
  FileProducer.written c = [] →
  FileProducer.blocks (List.length data) (file_chunk_size Settings) + 1 ≤ Z.of_nat calls →
  ∃ self' w,
    force_file_download filesystem filename filepath c self = Some (self', w)
    ∧ state self' = state self
    ∧ dict_get (response_headers (request self')) "Content-Type"
      = Some "application/octet-stream"
    ∧ dict_get (response_headers (request self')) "X-Download-Options" = Some "noopen"
    ∧ dict_get (response_headers (request self')) "Content-Disposition"
      = Some (content_disposition filename)
    ∧ let w' := FileProducer.drive Settings calls w in
      List.concat (FileProducer.written w'.2) = data
      ∧ FileProducer.finish w'.1 = 1%nat
      ∧ FileProducer.producer w'.2 = false
      ∧ FileProducer.finished w'.2 = true.
Proof.
  intros Hfile Hb Hconn Hw Hcalls. unfold force_file_download. rewrite Hfile.
  eexists _, _. split; [reflexivity|]. split; [done|].
  split; [|split; [|split; [|by apply started_producer_drained]]]; cbn;
    rewrite !dict_get_set; done.
Qed.

End DownloadFacts.

(** ** The further properties on sample inputs *)
Section FurtherInstances.
Import BaseHandler.
#[local] Existing Instance Samples.runtime.

(** X1 on a request of tenant 1 that carries the token of the node in its
    x-api-token header. *)
Lemma get_api_session_sound_sample :
  get_api_session Samples.settings Samples.api_handler
  = (Ok (Some Samples.api_session), Samples.api_handler)
  ∧ tid (request Samples.api_handler) = 1
  ∧ api_token_session (state Samples.api_handler) = Some Samples.api_session.
Proof.
  split; [reflexivity|].
  destruct (get_api_session_sound (H:=Samples.runtime) Samples.settings Samples.api_handler Samples.api_handler
              Samples.api_session ltac:(reflexivity)) as (_ & Htid & Hs & _).
  split; [exact Htid|exact Hs].
Defined.

(** X2 on a request of tenant 2 that carries the id of a session of
    tenant 2. *)
Lemma get_current_user_sound_sample :
  let self :=
    Samples.handler 2 (Samples.tenant_config false 5) {[ "x-session" := "s-receiver" ]} ∅ in
  (tid (request self) = 1 ∧ api_token_session (state self) = Some Samples.receiver_session)
  ∨ (session_tid Samples.receiver_session = tid (request self)
     ∧ ∃ header session_id,
         headers (request self) !! "x-session" = Some header
         ∧ decode_utf8 header = Some session_id
         ∧ Samples.sessions !! session_id = Some Samples.receiver_session).
Proof.
  intros self.
  exact (proj2 (get_current_user_sound (H:=Samples.runtime) Samples.sessions Samples.settings self self
                  Samples.receiver_session ltac:(reflexivity))).
Defined.

(** X3 on the same request: the identity resolved with the session of the
    receiver is returned again after the session has been dropped. *)
Lemma current_user_cached_sample :
  let self :=
    Samples.handler 2 (Samples.tenant_config false 5) {[ "x-session" := "s-receiver" ]} ∅ in
  let self' := (current_user Samples.sessions Samples.settings self).2 in
  current_user ∅ Samples.settings self' = (Ok (Some Samples.receiver_session), self').
Proof.
  intros self self'.
  apply (current_user_cached Samples.sessions Samples.settings ∅ self self'
           (Some Samples.receiver_session)).
  reflexivity.
Defined.

(** X5 on a request without authorization header. *)
Lemma basic_auth_challenge_sample :
  let self := Samples.handler 1 (Samples.tenant_config true 5) ∅ ∅ in
  (basic_auth self).1 = Raise HTTPAuthenticationRequired
  ∧ dict_get (response_headers (request (basic_auth self).2)) "WWW-Authenticate"
    = Some www_authenticate.
Proof.
  intros self. split; [reflexivity|].
  exact (proj2 (basic_auth_challenge (H:=Samples.runtime) self (basic_auth self).2 HTTPAuthenticationRequired
                  ltac:(reflexivity))).
Defined.

(** X6 on an authorization header of one word. *)
Lemma basic_auth_malformed_header_sample :
  let self :=
    Samples.handler 1 (Samples.tenant_config true 5) {[ "authorization" := "Basic" ]} ∅ in
  basic_auth self = (Raise ValueError, self).
Proof.
  intros self. apply (basic_auth_malformed_header self "Basic").
  - reflexivity.
  - vm_compute. intros Hl. discriminate Hl.
Defined.

(** X7 on a tenant with basic auth and the allow-list ['*']. *)
Lemma decorator_authentication_challenge_first_sample :
  let self := Samples.handler 1 (Samples.tenant_config true 5) ∅ ∅ in
  decorator_authentication Samples.sessions Samples.settings (mret ()) ["*"] self
  = (Raise HTTPAuthenticationRequired, (basic_auth self).2).
Proof.
  intros self.
  apply (decorator_authentication_challenge_first Samples.sessions Samples.settings
           (mret ()) ["*"] self (basic_auth self).2 (Samples.tenant_config true 5)).
  - reflexivity.
  - reflexivity.
  - reflexivity.
  - reflexivity.
Defined.

(** X8 on the allow-list ['unauthenticated'] and the session of a
    receiver. *)
Lemma decorator_authentication_unauthenticated_sample :
  let self :=
    Samples.handler 2 (Samples.tenant_config false 5) {[ "x-session" := "s-receiver" ]} ∅ in
  decorator_authentication Samples.sessions Samples.settings (mret ()) ["unauthenticated"] self
  = (Raise InvalidAuthentication, (current_user Samples.sessions Samples.settings self).2).
Proof.
  intros self.
  apply (decorator_authentication_unauthenticated Samples.sessions Samples.settings
           (mret ()) ["unauthenticated"] self
           (current_user Samples.sessions Samples.settings self).2
           (Samples.tenant_config false 5) (Some Samples.receiver_session)).
  - reflexivity.
  - intros Hf. discriminate Hf.
  - intros Hin. apply list_elem_of_singleton in Hin. discriminate Hin.
  - apply list_elem_of_singleton. reflexivity.
  - reflexivity.
Defined.

(** X9 on the allow-list ['receiver'] and the session of a receiver. *)
Lemma decorator_authentication_role_in_list_sample :
  let self :=
    Samples.handler 2 (Samples.tenant_config false 5) {[ "x-session" := "s-receiver" ]} ∅ in
  decorator_authentication Samples.sessions Samples.settings (mret ()) ["receiver"] self
  = (Ok (), (current_user Samples.sessions Samples.settings self).2).
Proof.
  intros self.
  rewrite (decorator_authentication_role_in_list Samples.sessions Samples.settings
             (mret ()) ["receiver"] self
             (current_user Samples.sessions Samples.settings self).2
             (Samples.tenant_config false 5) Samples.receiver_session).
  - rewrite bool_decide_true; [reflexivity|]. apply list_elem_of_singleton. reflexivity.
  - reflexivity.
  - intros Hf. discriminate Hf.
  - intros Hin. apply list_elem_of_singleton in Hin. discriminate Hin.
  - intros Hin. apply list_elem_of_singleton in Hin. discriminate Hin.
  - reflexivity.
Defined.

(** X10 on the first chunk of the flow flow-1: the flow flow-2 is not
    touched. *)
Lemma process_file_upload_other_flows_sample :
  let self := Samples.upload (Samples.fresh_state 5) "abc" "1" in
  TempUploadFiles (state (process_file_upload Samples.settings TrueDivision 0 self).2)
    !! "flow-2"
  = TempUploadFiles (state self) !! "flow-2".
Proof.
  intros self.
  apply (process_file_upload_other_flows Samples.settings TrueDivision 0 self "flow-2").
  intros l Hl. vm_compute in Hl. discriminate Hl.
Defined.


(** X12 on the same request: the descriptor carries the declared size of
    1 MiB for the three bytes stored. *)
Lemma process_file_upload_descriptor_sample :
  ∃ u, uploaded_file Samples.uploaded = Some u
       ∧ int_of_text "1048576" = Some (uf_size u)
       ∧ uf_type u = "application/octet-stream".
Proof.
  destruct (process_file_upload_descriptor (H:=Samples.runtime) Samples.settings TrueDivision 0
              (Samples.upload (Samples.fresh_state 5) "abc" "3") Samples.uploaded
              ltac:(vm_compute; reflexivity))
    as (u & total & text & Hu & _ & _ & Ht & Hs & _ & _ & Hty & _).
  exists u. split; [exact Hu|]. split; [|exact Hty].
  injection Ht as <-. exact Hs.
Defined.

(** X13 on the upload of three bytes, with every destination writable. *)
Lemma write_upload_plaintext_to_disk_copies_sample :
  ∃ u body,
    uploaded_file Samples.uploaded = Some u
    ∧ TempUploadFiles (state Samples.uploaded) !! uf_body u = Some body
    ∧ content body = "abc"
    ∧ write_upload_plaintext_to_disk (λ _, true) "/store/report" Samples.uploaded
        Samples.storage
      = (Ok (), {| files := <["/store/report" := content body]> ∅;
                   uploaded_path := Some "/store/report" |}).
Proof.
  eexists _, _. split; [reflexivity|]. split; [reflexivity|]. split; [reflexivity|].
  eapply (write_upload_plaintext_to_disk_copies (λ _, true) "/store/report" Samples.uploaded
           Samples.storage).
  - reflexivity.
  - reflexivity.
Defined.

(** X16 on a file of 10 bytes read in blocks of 4 bytes, with a call of
    stopProducing after the first block and a call of resumeProducing after
    that. *)
Lemma file_producer_any_calls_sample :
  let data := replicate 10 Byte.x41 in
  let c := {| FileProducer.connected := true; FileProducer.producer := false;
              FileProducer.written := []; FileProducer.finished := false |} in
  let w := FileProducer.run_calls Samples.settings
             [FileProducer.ResumeProducing; FileProducer.StopProducing;
              FileProducer.ResumeProducing]
             (FileProducer.start (FileProducer.init data, c)) in
  (List.concat (FileProducer.written w.2) ++ FileProducer.fd w.1)%list = data
  ∧ FileProducer.finish w.1 = 1%nat
  ∧ FileProducer.finished w.2 = true
  ∧ FileProducer.producer w.2 = false.
Proof.
  intros data c.
  apply (file_producer_any_calls Samples.settings data c
           [FileProducer.ResumeProducing; FileProducer.StopProducing;
            FileProducer.ResumeProducing]).
  - reflexivity.
  - reflexivity.
Defined.

(** X17 on the same file and calls, on a request whose connection is
    gone. *)
Lemma file_producer_connection_gone_sample :
  let data := replicate 10 Byte.x41 in
  let c := {| FileProducer.connected := false; FileProducer.producer := false;
              FileProducer.written := []; FileProducer.finished := false |} in
  let w := FileProducer.run_calls Samples.settings
             [FileProducer.ResumeProducing; FileProducer.StopProducing;
              FileProducer.ResumeProducing]
             (FileProducer.start (FileProducer.init data, c)) in
  FileProducer.written w.2 = []
  ∧ FileProducer.finished w.2 = false
  ∧ FileProducer.finish w.1 = 0%nat
  ∧ FileProducer.request w.1 = true.
Proof.
  intros data c.
  apply (file_producer_connection_gone Samples.settings data c
           [FileProducer.ResumeProducing; FileProducer.StopProducing;
            FileProducer.ResumeProducing]).
  reflexivity.
Defined.

(** X19 on a clock that stands at 1000 and two receivers, one whose key
    expired at 500 and one whose key expires at 2000. *)
Lemma pgp_validation_check_exactly_expired_sample :
  let expired := Samples.receiver "r1" "KEY" 500 in
  let valid := Samples.receiver "r2" "KEY" 2000 in
  PGPCheckSchedule.pgp_validation_check (H:=Samples.job 1000) [expired; valid]
  = (["r1"], [PGPCheckSchedule.set_pgp_key_status "disabled" expired; valid]).
Proof.
  intros expired valid.
  apply (pgp_validation_check_exactly_expired (H:=Samples.job 1000) 1000 [expired; valid]).
  intros rcvr n _ _. reflexivity.
Defined.

(** X21 on the same clock and receivers, two admin users and the mail to
    the receiver r1. *)
Lemma operation_alerts_only_expired_sample :
  let expired := Samples.receiver "r1" "KEY" 500 in
  let valid := Samples.receiver "r2" "KEY" 2000 in
  let m := {| PGPCheckSchedule.to_address := "r1";
              PGPCheckSchedule.event_type := "pgp_expiration_alert";
              PGPCheckSchedule.language := "en";
              PGPCheckSchedule.receiver_info := Some "r1";
              PGPCheckSchedule.expired_or_expiring_info := [] |} in
  (PGPCheckSchedule.operation (H:=Samples.job 1000) (H0:=Samples.notification)
     [expired; valid]).1 !! 4%nat = Some m
  ∧ ((∃ u : string, u ∈ ["admin1@node"; "admin2@node"] ∧ "r1" = u
        ∧ Some "r1" = None
        ∧ [] = (PGPCheckSchedule.pgp_validation_check (H:=Samples.job 1000)
                  [expired; valid]).1)
     ∨ (∃ (rcvr : PGPCheckSchedule.Receiver) (n : nat), rcvr ∈ [expired; valid]
          ∧ PGPCheckSchedule.has_dated_key (H:=Samples.job 1000) rcvr = true
          ∧ PGPCheckSchedule.pgp_key_expiration (PGPCheckSchedule.user rcvr) < 1000
          ∧ Some "r1" = Some (PGPCheckSchedule.id rcvr)
          ∧ "r1" = PGPCheckSchedule.id rcvr
          ∧ "en" = "en")).
Proof.
  intros expired valid m. split; [reflexivity|].
  apply (operation_alerts_only_expired (H:=Samples.job 1000) (H0:=Samples.notification)
           [expired; valid] m).
  - intros n. vm_compute. discriminate.
  - apply (list_elem_of_lookup_2 _ 4%nat). reflexivity.
Defined.

(** X22 on the same clock and the receiver whose key expires at 2000. *)
Lemma operation_quiet_sample :
  let valid := Samples.receiver "r2" "KEY" 2000 in
  PGPCheckSchedule.operation (H:=Samples.job 1000) (H0:=Samples.notification) [valid]
  = ([], [valid]).
Proof.
  intros valid.
  apply (operation_quiet (H:=Samples.job 1000) (H0:=Samples.notification) [valid]).
  intros rcvr n Hin _. apply list_elem_of_singleton in Hin. subst rcvr.
  vm_compute. discriminate.
Defined.

(** X23 on the template {a: int}: a payload with an extra key comes back
    without it; a payload whose value under a is the text one is refused
    naming a, although an extra key comes first; under the template
    {a: int, b: r...} a payload without b is refused naming b. *)
Lemma validate_jmessage_flat_sample :
  validate_jmessage (TDict [("a", TCallable Tint)]) (JDict [("a", JInt 1); ("x", JInt 2)])
  = Ok (JDict [("a", JInt 1)])
  ∧ validate_jmessage (TDict [("a", TCallable Tint)])
      (JDict [("x", JInt 2); ("a", JStr "one")])
    = Raise (InputValidationError (KeyTypeValidationFailure "a"))
  ∧ validate_jmessage (TDict [("a", TCallable Tint); ("b", TRegexp "r")])
      (JDict [("a", JInt 1)])
    = Raise (InputValidationError (MissingKey "b")).
Proof.
  split; [|split].
  - rewrite (validate_jmessage_flat [("a", TCallable Tint)] [("a", JInt 1); ("x", JInt 2)]).
    + reflexivity.
    + apply (bool_decide_unpack _). reflexivity.
    + apply (bool_decide_unpack _). reflexivity.
    + reflexivity.
  - rewrite (validate_jmessage_flat [("a", TCallable Tint)]
               [("x", JInt 2); ("a", JStr "one")]).
    + reflexivity.
    + apply (bool_decide_unpack _). reflexivity.
    + apply (bool_decide_unpack _). reflexivity.
    + reflexivity.
  - rewrite (validate_jmessage_flat [("a", TCallable Tint); ("b", TRegexp "r")]
               [("a", JInt 1)]).
    + reflexivity.
    + apply (bool_decide_unpack _). reflexivity.
    + apply (bool_decide_unpack _). reflexivity.
    + reflexivity.
Defined.

(** X24 on the same template and payload. *)
Lemma validate_jmessage_payload_order_sample :
  ∃ items items',
    JDict [("a", JInt 1); ("x", JInt 2)] = JDict items
    ∧ JDict [("a", JInt 1)] = JDict items'
    ∧ keys items' = filter (λ k, k ∈ keys [("a", TCallable Tint)]) (keys items)
    ∧ ∀ k, k ∈ keys [("a", TCallable Tint)] → k ∈ keys items.
Proof.
  apply (validate_jmessage_payload_order [("a", TCallable Tint)]
           (JDict [("a", JInt 1); ("x", JInt 2)]) (JDict [("a", JInt 1)])).
  reflexivity.
Defined.

(** X25 on the message [[1, 2]] under the template [int]. *)
Lemma validate_message_shape_sample :
  (∃ parsed, json_loads (Runtime:=Samples.json_runtime) "[1, 2]" = Some parsed)
  ∧ conforms (TList [TCallable Tint]) (JList [JInt 1; JInt 2]).
Proof.
  apply (validate_message_shape (H:=Samples.json_runtime) "[1, 2]" (TList [TCallable Tint])
           (JList [JInt 1; JInt 2])).
  - reflexivity.
  - reflexivity.
Defined.

(** X26 on a gzipped report of 10 bytes read in blocks of 4 bytes. *)
Lemma write_file_streams_sample :
  let self := Samples.handler 1 (Samples.tenant_config false 5) ∅ ∅ in
  let c := {| FileProducer.connected := true; FileProducer.producer := false;
              FileProducer.written := []; FileProducer.finished := false |} in
  ∃ self' w,
    Download.write_file Samples.filesystem "report.txt.gz" "/files/report.txt.gz" c self
    = Some (self', w)
    ∧ dict_get (response_headers (request self')) "Content-encoding" = Some "gzip"
    ∧ List.concat (FileProducer.written (FileProducer.drive Samples.settings 4 w).2)
      = replicate 10 Byte.x41.
Proof.
  intros self c.
  destruct (write_file_streams (H:=Samples.runtime) Samples.filesystem Samples.settings
              "report.txt.gz" "/files/report.txt.gz" (replicate 10 Byte.x41) c self 4)
    as (self' & w & Hw & _ & Hh & Hrun & _).
  - reflexivity.
  - reflexivity.
  - reflexivity.
  - reflexivity.
  - vm_compute. discriminate.
  - exists self', w. split; [exact Hw|]. split; [exact Hh|exact Hrun].
Defined.

(** X27 on the same file. *)
Lemma force_file_download_streams_sample :
  let self := Samples.handler 1 (Samples.tenant_config false 5) ∅ ∅ in
  let c := {| FileProducer.connected := true; FileProducer.producer := false;
              FileProducer.written := []; FileProducer.finished := false |} in
  ∃ self' w,
    Download.force_file_download Samples.filesystem "report.txt.gz" "/files/report.txt.gz"
      c self
    = Some (self', w)
    ∧ dict_get (response_headers (request self')) "Content-Type"
      = Some "application/octet-stream"
    ∧ List.concat (FileProducer.written (FileProducer.drive Samples.settings 4 w).2)
      = replicate 10 Byte.x41.
Proof.
  intros self c.
  destruct (force_file_download_streams Samples.filesystem Samples.settings
              "report.txt.gz" "/files/report.txt.gz" (replicate 10 Byte.x41) c self 4)
    as (self' & w & Hw & _ & Hh & _ & _ & Hrun & _).
  - reflexivity.
  - reflexivity.
  - reflexivity.
  - reflexivity.
  - vm_compute. discriminate.
  - exists self', w. split; [exact Hw|]. split; [exact Hh|exact Hrun].
Defined.

End FurtherInstances.
